(** * Heightfield terrain and first-person controller: a shallow embedding

    The development follows the three source modules
    [src/utils/heightmap.js], [src/utils/terrain.js] and
    [src/utils/controller.js], and the speed bar of the game loop of
    [src/main.js].

    Numbers.  A JavaScript number is modelled by [num]: a real number, one
    of the two infinities, or NaN.  Arithmetic on finite values is exact
    real arithmetic (rounding to binary64, rounding on a store into a
    [Float32Array], and the sign of zero are not modelled); the
    non-finite values follow IEEE 754 as JavaScript does, so that a
    division by zero or a read outside an array yields what the program
    would see (an infinity or NaN) and never an arbitrary real.  A
    statement about finite values is therefore a statement up to
    rounding; where a property depends on the rounding itself (the
    length of the movement vector), the same lines are evaluated in
    binary64 in [Binary64].

    Integers.  Loop counters, grid sizes and array indices are integers
    in the source and are modelled in [Z]; [zn] injects them in [num]. *)

From Corelib Require Import PrimFloat.
From Stdlib Require Import ZArith Reals Lra Lia.
From stdpp Require Import base list strings gmap.

(** A decimal literal of a binary64 number denotes the nearest binary64
    value, as it does in JavaScript. *)
Set Warnings "-inexact-float".

(** ** JavaScript numbers *)

Inductive num : Type :=
  | Fin (r : R)
  | PInf
  | NInf
  | NaN.

#[global] Instance Rlt_decision : RelDecision Rlt := Rlt_dec.
#[global] Instance Rle_decision : RelDecision Rle := Rle_dec.
#[global] Instance Req_decision : EqDecision R := Req_dec_T.
#[global] Instance num_inhabited : Inhabited num := populate NaN.

Definition zn (z : Z) : num := Fin (IZR z).

(** An infinity of the sign of [r] (times [-1] when [flip]); [0 * Infinity]
    is NaN. *)
Definition inf_signed (r : R) (flip : bool) : num :=
  if decide (r = 0%R) then NaN
  else if bool_decide (0 < r)%R then (if flip then NInf else PInf)
  else (if flip then PInf else NInf).

Definition nneg (a : num) : num :=
  match a with
  | Fin r => Fin (- r)
  | PInf => NInf
  | NInf => PInf
  | NaN => NaN
  end.

Definition nadd (a b : num) : num :=
  match a, b with
  | NaN, _ | _, NaN => NaN
  | Fin x, Fin y => Fin (x + y)
  | PInf, NInf | NInf, PInf => NaN
  | PInf, _ | _, PInf => PInf
  | NInf, _ | _, NInf => NInf
  end.

Definition nsub (a b : num) : num :=
  match a, b with
  | NaN, _ | _, NaN => NaN
  | Fin x, Fin y => Fin (x - y)
  | PInf, PInf | NInf, NInf => NaN
  | PInf, _ | _, NInf => PInf
  | NInf, _ | _, PInf => NInf
  end.

Definition nmul (a b : num) : num :=
  match a, b with
  | NaN, _ | _, NaN => NaN
  | Fin x, Fin y => Fin (x * y)
  | Fin x, PInf | PInf, Fin x => inf_signed x false
  | Fin x, NInf | NInf, Fin x => inf_signed x true
  | PInf, PInf | NInf, NInf => PInf
  | PInf, NInf | NInf, PInf => NInf
  end.

(** Division.  A finite non-zero value divided by zero is an infinity of
    the sign of the numerator (the zero divisors of the program are
    differences and counts, hence [+0]); [0/0] is NaN. *)
Definition ndiv (a b : num) : num :=
  match a, b with
  | NaN, _ | _, NaN => NaN
  | Fin x, Fin y =>
      if decide (y = 0%R) then inf_signed x false else Fin (x / y)
  | Fin _, (PInf | NInf) => Fin 0
  | PInf, Fin y => if bool_decide (y < 0)%R then NInf else PInf
  | NInf, Fin y => if bool_decide (y < 0)%R then PInf else NInf
  | (PInf | NInf), (PInf | NInf) => NaN
  end.

(** The comparison [a < b]; false as soon as one side is NaN. *)
Definition nlt (a b : num) : bool :=
  match a, b with
  | NaN, _ | _, NaN => false
  | Fin x, Fin y => bool_decide (x < y)%R
  | NInf, (Fin _ | PInf) => true
  | Fin _, PInf => true
  | _, _ => false
  end.

(** The comparison [a <= b]. *)
Definition nle (a b : num) : bool :=
  match a, b with
  | NaN, _ | _, NaN => false
  | Fin x, Fin y => bool_decide (x <= y)%R
  | NInf, _ => true
  | _, PInf => true
  | _, _ => false
  end.

Definition ngt (a b : num) : bool := nlt b a.

(** [Math.max] and [Math.min]: NaN when an argument is NaN. *)
Definition Math_max (a b : num) : num :=
  match a, b with
  | NaN, _ | _, NaN => NaN
  | _, _ => if nlt a b then b else a
  end.

Definition Math_min (a b : num) : num :=
  match a, b with
  | NaN, _ | _, NaN => NaN
  | _, _ => if nlt b a then b else a
  end.

(** [Math.floor]: the greatest integer below a finite value. *)
Definition Math_floor (a : num) : num :=
  match a with
  | Fin r => zn (Int_part r)
  | other => other
  end.

Definition Math_sqrt (a : num) : num :=
  match a with
  | Fin r => if bool_decide (r < 0)%R then NaN else Fin (sqrt r)
  | PInf => PInf
  | _ => NaN
  end.

Definition Math_sin (a : num) : num :=
  match a with Fin r => Fin (sin r) | _ => NaN end.

Definition Math_cos (a : num) : num :=
  match a with Fin r => Fin (cos r) | _ => NaN end.

(** Truthiness of a number: everything but [0] and NaN. *)
Definition truthy (a : num) : bool :=
  match a with
  | Fin r => bool_decide (r ≠ 0%R)
  | NaN => false
  | _ => true
  end.

(** [a || b] on numbers. *)
Definition nor (a b : num) : num := if truthy a then a else b.

Definition is_fin (a : num) : Prop :=
  match a with Fin _ => True | _ => False end.

(** The real behind a finite number. *)
Definition to_R (a : num) : R :=
  match a with Fin r => r | _ => 0%R end.

Declare Scope num_scope.
Delimit Scope num_scope with num.
Bind Scope num_scope with num.
Infix "+" := nadd : num_scope.
Infix "-" := nsub : num_scope.
Infix "*" := nmul : num_scope.
Infix "/" := ndiv : num_scope.
Local Open Scope num_scope.

(** ** Typed arrays

    A [Float32Array] (and the [Uint32Array] of indices) is a list.  A read
    outside the bounds gives [undefined], which every use in the program
    turns into NaN; a write outside the bounds is ignored. *)

Definition agetZ (a : list num) (i : Z) : num :=
  if bool_decide (0 ≤ i)%Z then default NaN (a !! Z.to_nat i) else NaN.

Definition asetZ {A} (a : list A) (i : Z) (v : A) : list A :=
  if bool_decide (0 ≤ i)%Z then <[Z.to_nat i := v]> a else a.

(** A read at a JavaScript number: only an integral index can hit. *)
Definition aget (a : list num) (i : num) : num :=
  match i with
  | Fin r =>
      if decide (IZR (Int_part r) = r) then agetZ a (Int_part r) else NaN
  | _ => NaN
  end.

(** [new Float32Array(n)]: [n] zeros. *)
Definition new_array (n : Z) : list num := replicate (Z.to_nat n) (Fin 0).

(** [for (let i = 0; i < n; i++) s = body(i, s)]. *)
Definition for_Z {St} (n : Z) (body : Z → St → St) (s : St) : St :=
  foldl (λ s i, body i s) s (seqZ 0 n).

(** ** THREE.Vector3

    The vector class of the three.js library, with the methods the program
    calls, as that library defines them (component-wise arithmetic in
    place; [normalize] divides by [length() || 1]). *)

Record Vector3 : Type := V3 { vx : num; vy : num; vz : num }.

Definition v_fromArray (a : list num) (offset : Z) : Vector3 :=
  V3 (agetZ a offset) (agetZ a (offset + 1)) (agetZ a (offset + 2)).

Definition v_subVectors (a b : Vector3) : Vector3 :=
  V3 (vx a - vx b) (vy a - vy b) (vz a - vz b).

Definition v_crossVectors (a b : Vector3) : Vector3 :=
  V3 (vy a * vz b - vz a * vy b)
     (vz a * vx b - vx a * vz b)
     (vx a * vy b - vy a * vx b).

Definition v_lengthSq (v : Vector3) : num :=
  vx v * vx v + vy v * vy v + vz v * vz v.

Definition v_length (v : Vector3) : num := Math_sqrt (v_lengthSq v).

Definition v_multiplyScalar (v : Vector3) (s : num) : Vector3 :=
  V3 (vx v * s) (vy v * s) (vz v * s).

Definition v_divideScalar (v : Vector3) (s : num) : Vector3 :=
  v_multiplyScalar v (Fin 1 / s).

Definition v_normalize (v : Vector3) : Vector3 :=
  v_divideScalar v (nor (v_length v) (Fin 1)).

Definition v_addScaledVector (v w : Vector3) (s : num) : Vector3 :=
  V3 (vx v + vx w * s) (vy v + vy w * s) (vz v + vz w * s).

(** ** terrain.js: TerrainBuilder *)

Record TerrainBuilder : Type := {
  heights : list num;
  size : Z;
  cols : Z;
  worldSize : num;
  heightScale : num;
  heightOffset : num;
  cellSize : num
}.

(** The constructor's argument object; an absent ([undefined]) field takes
    the default of the destructuring pattern. *)
Record TerrainOptions : Type := {
  opt_heights : list num;
  opt_size : Z;
  opt_worldSize : option num;
  opt_heightScale : option num;
  opt_heightOffset : option num
}.

(** How a call ends: with a value, or by throwing. *)
Inductive completion (A : Type) : Type :=
  | Returned (a : A)
  | Thrown.
Arguments Returned {A} a.
Arguments Thrown {A}.

Definition TerrainBuilder_init (o : TerrainOptions) : TerrainBuilder :=
  let worldSize := default (Fin 200) (opt_worldSize o) in
  let heightScale := default (Fin 14) (opt_heightScale o) in
  let heightOffset := default (Fin 0) (opt_heightOffset o) in
  {| heights := opt_heights o;
     size := opt_size o;
     cols := opt_size o - 1;
     worldSize := worldSize;
     heightScale := heightScale;
     heightOffset := heightOffset;
     cellSize := worldSize / zn (opt_size o - 1) |}.

(** [new TerrainBuilder({...})]: the body holds assignments only, no
    [throw] and no call that can throw. *)
Definition TerrainBuilder_new (o : TerrainOptions) : completion TerrainBuilder :=
  Returned (TerrainBuilder_init o).

(** The configurations the specification calls degenerate. *)
Definition degenerate (o : TerrainOptions) : Prop :=
  (opt_size o < 2)%Z
  ∨ nle (default (Fin 200) (opt_worldSize o)) (Fin 0) = true
  ∨ nle (default (Fin 200) (opt_worldSize o) / zn (opt_size o - 1)) (Fin 0) = true
  ∨ Z.of_nat (length (opt_heights o)) ≠ (opt_size o * opt_size o)%Z.

Definition getHeight (t : TerrainBuilder) (row col : num) : num :=
  let row := Math_max (Fin 0) (Math_min (zn (size t - 1)) row) in
  let col := Math_max (Fin 0) (Math_min (zn (size t - 1)) col) in
  aget (heights t) (row * zn (size t) + col) * heightScale t + heightOffset t.

(** The clamp of [getHeight], on integers. *)
Definition clampZ (n i : Z) : Z := Z.max 0 (Z.min (n - 1) i).

Definition getHeightAtWorld (t : TerrainBuilder) (x z : num) : num :=
  let gx := (x + worldSize t / Fin 2) / cellSize t in
  let gz := (z + worldSize t / Fin 2) / cellSize t in
  let col0 := Math_floor gx in
  let row0 := Math_floor gz in
  let col1 := col0 + Fin 1 in
  let row1 := row0 + Fin 1 in
  let fx := gx - col0 in
  let fz := gz - row0 in
  let h00 := getHeight t row0 col0 in
  let h10 := getHeight t row0 col1 in
  let h01 := getHeight t row1 col0 in
  let h11 := getHeight t row1 col1 in
  h00 * (Fin 1 - fx) * (Fin 1 - fz)
  + h10 * fx * (Fin 1 - fz)
  + h01 * (Fin 1 - fx) * fz
  + h11 * fx * fz.

(** The blend of [getHeightAtWorld] along one axis, at grid coordinate
    [g], of the values [h] at the two clamped neighbours. *)
Definition axis_blend (n : Z) (h : Z → R) (g : R) : R :=
  (h (clampZ n (Int_part g)) * (1 - (g - IZR (Int_part g)))
   + h (clampZ n (Int_part g + 1)) * (g - IZR (Int_part g)))%R.

(** *** buildMesh *)

Record VertexBuffers : Type := {
  vb_positions : list num;
  vb_uvs : list num;
  vb_colors : list num
}.

(** The elevation bands of the vertex colour. *)
Definition vertexColor (t : num) : Vector3 :=
  if nlt t (Fin 0.3) then
    let s := t / Fin 0.3 in
    V3 (Fin 0.35 + s * Fin 0.15) (Fin 0.22 + s * Fin 0.18) (Fin 0.10)
  else if nlt t (Fin 0.65) then
    let s := (t - Fin 0.3) / Fin 0.35 in
    V3 (Fin 0.18 + s * Fin 0.10) (Fin 0.38 + s * Fin 0.12) (Fin 0.10)
  else if nlt t (Fin 0.85) then
    let s := (t - Fin 0.65) / Fin 0.2 in
    V3 (Fin 0.42 + s * Fin 0.28) (Fin 0.38 + s * Fin 0.25) (Fin 0.30 + s * Fin 0.25)
  else
    let s := (t - Fin 0.85) / Fin 0.15 in
    V3 (Fin 0.70 + s * Fin 0.30) (Fin 0.70 + s * Fin 0.30) (Fin 0.75 + s * Fin 0.25).

(** Writes three consecutive slots. *)
Definition aset3 (a : list num) (base : Z) (v : Vector3) : list num :=
  asetZ (asetZ (asetZ a (base + 0) (vx v)) (base + 1) (vy v)) (base + 2) (vz v).

Definition vertexPosition (t : TerrainBuilder) (row col : Z) : Vector3 :=
  let half := worldSize t / Fin 2 in
  V3 (zn col * cellSize t - half)
     (getHeight t (zn row) (zn col))
     (zn row * cellSize t - half).

(** The body of the vertex loop at [(row, col)]. *)
Definition vertex_step (t : TerrainBuilder) (row col : Z) (b : VertexBuffers)
  : VertexBuffers :=
  let i := (row * size t + col)%Z in
  {| vb_positions := aset3 (vb_positions b) (i * 3) (vertexPosition t row col);
     vb_uvs :=
       asetZ (asetZ (vb_uvs b) (i * 2 + 0) (zn col / zn (size t - 1)))
             (i * 2 + 1) (zn row / zn (size t - 1));
     vb_colors := aset3 (vb_colors b) (i * 3) (vertexColor (agetZ (heights t) i)) |}.

Definition build_vertices (t : TerrainBuilder) : VertexBuffers :=
  let vertCount := (size t * size t)%Z in
  for_Z (size t) (λ row b, for_Z (size t) (λ col b, vertex_step t row col b) b)
    {| vb_positions := new_array (vertCount * 3);
       vb_uvs := new_array (vertCount * 2);
       vb_colors := new_array (vertCount * 3) |}.

(** A store into a [Uint32Array] wraps modulo 2^32. *)
Definition u32 (v : Z) : Z := (v mod 2 ^ 32)%Z.

(** The body of the index loop: the two triangles of cell [(row, col)],
    written at the running offset [idx]. *)
Definition index_step (size row col : Z) (st : list Z * Z) : list Z * Z :=
  let ind := st.1 in
  let idx := st.2 in
  let tl := (row * size + col)%Z in
  let tr := (tl + 1)%Z in
  let bl := ((row + 1) * size + col)%Z in
  let br := (bl + 1)%Z in
  let ind := asetZ ind idx (u32 tl) in
  let ind := asetZ ind (idx + 1) (u32 bl) in
  let ind := asetZ ind (idx + 2) (u32 tr) in
  let ind := asetZ ind (idx + 3) (u32 tr) in
  let ind := asetZ ind (idx + 4) (u32 bl) in
  let ind := asetZ ind (idx + 5) (u32 br) in
  (ind, (idx + 6)%Z).

Definition build_indices (size : Z) : list Z :=
  let cellCount := ((size - 1) * (size - 1))%Z in
  (for_Z (size - 1)
     (λ row st, for_Z (size - 1) (λ col st, index_step size row col st) st)
     (replicate (Z.to_nat (cellCount * 6)) 0%Z, 0%Z)).1.

(** A read of the index array: [None] is [undefined]. *)
Definition index_at (ind : list Z) (i : Z) : option Z :=
  if bool_decide (0 ≤ i)%Z then ind !! Z.to_nat i else None.

(** [v.fromArray(positions, a * 3)] for an index [a] read from the index
    array; an [undefined] index reads [undefined] components. *)
Definition vertex_of (positions : list num) (a : option Z) : Vector3 :=
  match a with
  | Some a => v_fromArray positions (a * 3)
  | None => V3 NaN NaN NaN
  end.

(** [normals[vi*3+k] += n.k] for [k = 0, 1, 2]; with [vi] undefined the
    stores hit no element. *)
Definition accumulate (normals : list num) (vi : option Z) (n : Vector3)
  : list num :=
  match vi with
  | Some vi =>
      let normals := asetZ normals (vi * 3 + 0) (agetZ normals (vi * 3 + 0) + vx n) in
      let normals := asetZ normals (vi * 3 + 1) (agetZ normals (vi * 3 + 1) + vy n) in
      asetZ normals (vi * 3 + 2) (agetZ normals (vi * 3 + 2) + vz n)
  | None => normals
  end.

Definition faceNormal (positions : list num) (a b c : option Z) : Vector3 :=
  let v0 := vertex_of positions a in
  let v1 := vertex_of positions b in
  let v2 := vertex_of positions c in
  let edge1 := v_subVectors v1 v0 in
  let edge2 := v_subVectors v2 v0 in
  v_normalize (v_crossVectors edge1 edge2).

(** The body of the accumulation loop for the triangle at offset [i]. *)
Definition normal_step (positions : list num) (ind : list Z) (i : Z)
    (normals : list num) : list num :=
  let a := index_at ind i in
  let b := index_at ind (i + 1) in
  let c := index_at ind (i + 2) in
  let n := faceNormal positions a b c in
  foldl (λ normals vi, accumulate normals vi n) normals [a; b; c].

(** [for (let i = 0; i < indices.length; i += 3)]. *)
Definition accumulate_normals (positions : list num) (ind : list Z)
    (normals : list num) : list num :=
  for_Z ((Z.of_nat (length ind) + 2) / 3)
    (λ k normals, normal_step positions ind (3 * k) normals) normals.

Definition normalize_step (i : Z) (normals : list num) : list num :=
  let n := v_normalize
    (V3 (agetZ normals (i * 3)) (agetZ normals (i * 3 + 1)) (agetZ normals (i * 3 + 2))) in
  asetZ (asetZ (asetZ normals (i * 3) (vx n)) (i * 3 + 1) (vy n)) (i * 3 + 2) (vz n).

Record Mesh : Type := {
  positions : list num;
  normals : list num;
  uvs : list num;
  colors : list num;
  indices : list Z
}.

Definition buildMesh (t : TerrainBuilder) : Mesh :=
  let vertCount := (size t * size t)%Z in
  let vb := build_vertices t in
  let ind := build_indices (size t) in
  let normals0 := for_Z (vertCount * 3) (λ i n, asetZ n i (Fin 0)) (new_array (vertCount * 3)) in
  let normals1 := accumulate_normals (vb_positions vb) ind normals0 in
  let normals2 := for_Z vertCount normalize_step normals1 in
  {| positions := vb_positions vb;
     normals := normals2;
     uvs := vb_uvs vb;
     colors := vb_colors vb;
     indices := ind |}.

(** The normal stored for vertex [i]. *)
Definition normal_at (m : Mesh) (i : Z) : Vector3 := v_fromArray (normals m) (i * 3).

(** *** Notions used in the statements about the mesh *)

(** The six indices of cell [q] (counted row by row over the
    (size-1)×(size-1) cells): the triangles (tl, bl, tr) and (tr, bl, br). *)
Definition cell_indices (size : Z) (ind : list Z) (q : Z) : Prop :=
  let r := (q / (size - 1))%Z in
  let c := (q mod (size - 1))%Z in
  let tl := (r * size + c)%Z in
  let bl := ((r + 1) * size + c)%Z in
  index_at ind (6 * q) = Some tl
  ∧ index_at ind (6 * q + 1) = Some bl
  ∧ index_at ind (6 * q + 2) = Some (tl + 1)%Z
  ∧ index_at ind (6 * q + 3) = Some (tl + 1)%Z
  ∧ index_at ind (6 * q + 4) = Some bl
  ∧ index_at ind (6 * q + 5) = Some (bl + 1)%Z.

(** A finite vector pointing up (positive y); with [flat], straight up. *)
Definition upward (flat : bool) (n : Vector3) : Prop :=
  ∃ x y z : R, n = V3 (Fin x) (Fin y) (Fin z) ∧ (0 < y)%R
    ∧ (flat = true → x = 0%R ∧ z = 0%R).

Definition null_or_upward (flat : bool) (n : Vector3) : Prop :=
  n = V3 (Fin 0) (Fin 0) (Fin 0) ∨ upward flat n.

(** Accumulators for [nv] vertices, each still null or pointing up. *)
Definition accumulators (flat : bool) (nv : Z) (normals : list num) : Prop :=
  Z.of_nat (length normals) = (nv * 3)%Z
  ∧ ∀ v, (0 ≤ v < nv)%Z → null_or_upward flat (v_fromArray normals (v * 3)).

(** Samples that are finite and within [lo, hi]. *)
Definition samples_within (lo hi : R) (hs : list num) : Prop :=
  Forall (λ a, ∃ r : R, a = Fin r ∧ (lo <= r <= hi)%R) hs.

(** *** buildRapierHeightfield *)

Record Heightfield : Type := {
  nrows : Z;
  ncols : Z;
  hf_heights : list num;
  scale : Vector3
}.

Definition buildRapierHeightfield (t : TerrainBuilder) : Heightfield :=
  let nrows := (size t - 1)%Z in
  let ncols := (size t - 1)%Z in
  let rapierHeights := new_array ((nrows + 1) * (ncols + 1)) in
  {| nrows := nrows;
     ncols := ncols;
     hf_heights :=
       for_Z (size t) (λ row rh,
         for_Z (size t) (λ col rh,
           asetZ rh (col * size t + row) (agetZ (heights t) (row * size t + col)))
         rh) rapierHeights;
     scale := V3 (worldSize t) (heightScale t) (worldSize t) |}.

(** ** heightmap.js *)

(** The hash of a lattice point. *)
Definition noise (x y : num) : num :=
  let n := Math_sin (x * Fin 127.1 + y * Fin 311.7) * Fin 43758.5453123 in
  n - Math_floor n.

(** The four hashed corners and the two smoothstep weights at [(x, y)]. *)
Record Lattice : Type := {
  la : num; lb : num; lc : num; ld : num;
  lux : num; luy : num
}.

Definition lattice (x y : num) : Lattice :=
  let ix := Math_floor x in
  let iy := Math_floor y in
  let fx := x - ix in
  let fy := y - iy in
  {| lux := fx * fx * (Fin 3 - Fin 2 * fx);
     luy := fy * fy * (Fin 3 - Fin 2 * fy);
     la := noise ix iy;
     lb := noise (ix + Fin 1) iy;
     lc := noise ix (iy + Fin 1);
     ld := noise (ix + Fin 1) (iy + Fin 1) |}.

(** [smoothNoise]: the value of its first [return]. *)
Definition smoothNoise (x y : num) : num :=
  let l := lattice x y in
  let a := la l in let b := lb l in let c := lc l in let d := ld l in
  let ux := lux l in let uy := luy l in
  a + (b - a) * ux + (c - a) * uy + (d - a) * ux * uy
  + (b - a) * (Fin 1 - uy) * Fin 0.

(** The expression of the second [return] of [smoothNoise], under the
    comment "Proper bilinear"; control never reaches it. *)
Definition properBilinear (x y : num) : num :=
  let l := lattice x y in
  let a := la l in let b := lb l in let c := lc l in let d := ld l in
  let ux := lux l in let uy := luy l in
  a * (Fin 1 - ux) * (Fin 1 - uy) + b * ux * (Fin 1 - uy)
  + c * (Fin 1 - ux) * uy + d * ux * uy.

Record Octaves : Type := {
  value : num;
  amplitude : num;
  frequency : num;
  maxValue : num
}.

Definition octave_step (x y : num) (s : Octaves) : Octaves :=
  {| value := value s + smoothNoise (x * frequency s) (y * frequency s) * amplitude s;
     maxValue := maxValue s + amplitude s;
     amplitude := amplitude s * Fin 0.5;
     frequency := frequency s * Fin 2.1 |}.

Definition fractalNoise (x y : num) (octaves : Z) : num :=
  let s := for_Z octaves (λ _ s, octave_step x y s)
    {| value := Fin 0; amplitude := Fin 1; frequency := Fin 1; maxValue := Fin 0 |} in
  value s / maxValue s.

(** A height array being filled, with the running extrema. *)
Record Scan : Type := {
  sc_heights : list num;
  sc_minH : num;
  sc_maxH : num
}.

Definition scan_put (s : Scan) (i : Z) (h : num) : Scan :=
  {| sc_heights := asetZ (sc_heights s) i h;
     sc_minH := if nlt h (sc_minH s) then h else sc_minH s;
     sc_maxH := if ngt h (sc_maxH s) then h else sc_maxH s |}.

Definition scan_init (n : Z) : Scan :=
  {| sc_heights := new_array n; sc_minH := PInf; sc_maxH := NInf |}.

Record HeightData : Type := {
  hd_heights : list num;
  hd_size : Z;
  hd_minH : num;
  hd_maxH : num
}.

(** The grid before the final rescale. *)
Definition raw_heightmap (size : Z) : Scan :=
  for_Z size (λ row s,
    for_Z size (λ col s,
      let nx := zn col / zn size * Fin 4 in
      let ny := zn row / zn size * Fin 4 in
      scan_put s (row * size + col) (fractalNoise nx ny 6)) s)
    (scan_init (size * size)).

(** The loop "Normalize to [0..1]". *)
Definition rescale (minH range : num) (hs : list num) : list num :=
  for_Z (Z.of_nat (length hs))
    (λ i hs, asetZ hs i ((agetZ hs i - minH) / range)) hs.

Definition generateProceduralHeightmap (size : Z) : HeightData :=
  let s := raw_heightmap size in
  let range := sc_maxH s - sc_minH s in
  {| hd_heights := rescale (sc_minH s) range (sc_heights s);
     hd_size := size;
     hd_minH := Fin 0;
     hd_maxH := Fin 1 |}.

(** *** Real-valued readings of the noise functions

    On finite arguments the noise functions are finite; these are their
    values as reals, for use in the statements below. *)

(** The hash [noise] of a finite lattice point. *)
Definition hashR (u v : R) : R :=
  frac_part (sin (u * 127.1 + v * 311.7) * 43758.5453123).

(** [smoothNoise] at a finite point, as a real. *)
Definition smoothR (x y : R) : R := to_R (smoothNoise (Fin x) (Fin y)).

(** The value [generateProceduralHeightmap] computes for cell [(row, col)]
    before the rescale, as a real. *)
Definition cellR (size row col : Z) : R :=
  to_R (fractalNoise (zn col / zn size * Fin 4) (zn row / zn size * Fin 4) 6).

(** A scan that has stored the values [F 0 .. F (k-1)] at the indices
    [0 .. k-1]: the extrema are still the initial infinities when [k = 0],
    and are the least and the greatest stored value otherwise. *)
Definition scanned (k : Z) (F : Z → R) (s : Scan) : Prop :=
  (∀ i, (0 ≤ i < k)%Z → agetZ (sc_heights s) i = Fin (F i))
  ∧ ((k ≤ 0)%Z → sc_minH s = PInf ∧ sc_maxH s = NInf)
  ∧ ((0 < k)%Z →
     ∃ imin imax, (0 ≤ imin < k)%Z ∧ (0 ≤ imax < k)%Z
       ∧ sc_minH s = Fin (F imin) ∧ sc_maxH s = Fin (F imax)
       ∧ ∀ i, (0 ≤ i < k)%Z → (F imin <= F i <= F imax)%R).

(** [fractalNoise] with six octaves at a finite point, as a real. *)
Definition fractalR (x y : R) : R := to_R (fractalNoise (Fin x) (Fin y) 6).

(** A read of the pixel bytes ([Uint8ClampedArray]). *)
Definition pixel_at (pixels : list Z) (i : Z) : num :=
  if bool_decide (0 ≤ i)%Z then
    match pixels !! Z.to_nat i with Some p => zn p | None => NaN end
  else NaN.

(** The [onload] handler of [loadHeightmap], from the RGBA bytes the
    canvas returns: the red channel of each pixel, over 255. *)
Definition loadHeightmap_onload (pixels : list Z) (targetSize : Z) : HeightData :=
  let s := for_Z (targetSize * targetSize)
    (λ i s, scan_put s i (pixel_at pixels (i * 4) / Fin 255))
    (scan_init (targetSize * targetSize)) in
  {| hd_heights := sc_heights s;
     hd_size := targetSize;
     hd_minH := sc_minH s;
     hd_maxH := sc_maxH s |}.

(** ** controller.js: FPSController *)

Record FPSController : Type := {
  keys : gmap string bool;
  yaw : num;
  pitch : num;
  locked : bool;
  velY : num;
  isGrounded : bool;
  jumpCooldown : num;
  MOVE_SPEED : num;
  SPRINT_MULT : num;
  JUMP_FORCE : num;
  GRAVITY : num;
  EYE_HEIGHT : num;
  SENSITIVITY : num;
  _mov : Vector3;
  (** the kinematic body: its translation, and the one requested for the
      next physics step *)
  body_translation : Vector3;
  body_next : Vector3;
  (** the camera *)
  camera_position : Vector3;
  camera_rotation_x : num;
  camera_rotation_y : num
}.

(** The state the constructor leaves, for a camera at [cam] with rotation
    [(rx, ry)]: the body is created at [(0, 30, 0)]. *)
Definition FPSController_new (cam : Vector3) (rx ry : num) : FPSController :=
  {| keys := ∅;
     yaw := Fin 0; pitch := Fin 0; locked := false;
     velY := Fin 0; isGrounded := false; jumpCooldown := Fin 0;
     MOVE_SPEED := Fin 8; SPRINT_MULT := Fin 1.8; JUMP_FORCE := Fin 9;
     GRAVITY := Fin (-25); EYE_HEIGHT := Fin 1.2; SENSITIVITY := Fin 0.002;
     _mov := V3 (Fin 0) (Fin 0) (Fin 0);
     body_translation := V3 (Fin 0) (Fin 30) (Fin 0);
     body_next := V3 (Fin 0) (Fin 30) (Fin 0);
     camera_position := cam;
     camera_rotation_x := rx;
     camera_rotation_y := ry |}.

(** [this.keys[code]] as a condition: an absent key is [undefined]. *)
Definition pressed (c : FPSController) (code : string) : bool :=
  default false (keys c !! code).

Definition set_keys (c : FPSController) (k : gmap string bool) : FPSController :=
  {| keys := k; yaw := yaw c; pitch := pitch c; locked := locked c;
     velY := velY c; isGrounded := isGrounded c; jumpCooldown := jumpCooldown c;
     MOVE_SPEED := MOVE_SPEED c; SPRINT_MULT := SPRINT_MULT c;
     JUMP_FORCE := JUMP_FORCE c; GRAVITY := GRAVITY c;
     EYE_HEIGHT := EYE_HEIGHT c; SENSITIVITY := SENSITIVITY c;
     _mov := _mov c; body_translation := body_translation c;
     body_next := body_next c; camera_position := camera_position c;
     camera_rotation_x := camera_rotation_x c;
     camera_rotation_y := camera_rotation_y c |}.

(** The [keydown] and [keyup] listeners. *)
Definition on_keydown (c : FPSController) (code : string) : FPSController :=
  set_keys c (<[code := true]> (keys c)).

Definition on_keyup (c : FPSController) (code : string) : FPSController :=
  set_keys c (<[code := false]> (keys c)).

(** The [mousemove] listener. *)
Definition on_mousemove (c : FPSController) (movementX movementY : num)
  : FPSController :=
  if negb (locked c) then c
  else
    let yaw' := yaw c - movementX * SENSITIVITY c in
    let pitch' := pitch c - movementY * SENSITIVITY c in
    let pitch' := Math_max (Fin (-1.4)) (Math_min (Fin 1.4) pitch') in
    {| keys := keys c; yaw := yaw'; pitch := pitch'; locked := locked c;
       velY := velY c; isGrounded := isGrounded c; jumpCooldown := jumpCooldown c;
       MOVE_SPEED := MOVE_SPEED c; SPRINT_MULT := SPRINT_MULT c;
       JUMP_FORCE := JUMP_FORCE c; GRAVITY := GRAVITY c;
       EYE_HEIGHT := EYE_HEIGHT c; SENSITIVITY := SENSITIVITY c;
       _mov := _mov c; body_translation := body_translation c;
       body_next := body_next c; camera_position := camera_position c;
       camera_rotation_x := camera_rotation_x c;
       camera_rotation_y := camera_rotation_y c |}.

(** The [pointerlockchange] listener: [locked] becomes whether the pointer
    is now locked on the document body. *)
Definition on_pointerlockchange (c : FPSController) (onBody : bool)
  : FPSController :=
  {| keys := keys c; yaw := yaw c; pitch := pitch c; locked := onBody;
     velY := velY c; isGrounded := isGrounded c; jumpCooldown := jumpCooldown c;
     MOVE_SPEED := MOVE_SPEED c; SPRINT_MULT := SPRINT_MULT c;
     JUMP_FORCE := JUMP_FORCE c; GRAVITY := GRAVITY c;
     EYE_HEIGHT := EYE_HEIGHT c; SENSITIVITY := SENSITIVITY c;
     _mov := _mov c; body_translation := body_translation c;
     body_next := body_next c; camera_position := camera_position c;
     camera_rotation_x := camera_rotation_x c;
     camera_rotation_y := camera_rotation_y c |}.

(** The target speed of the frame. *)
Definition targetSpeed (c : FPSController) : num :=
  let sprint := pressed c "ShiftLeft" || pressed c "ShiftRight" in
  MOVE_SPEED c * (if sprint then SPRINT_MULT c else Fin 1).

(** The horizontal movement vector [_mov] that [update] builds. *)
Definition movement (c : FPSController) : Vector3 :=
  let speed := targetSpeed c in
  let fwd := V3 (nneg (Math_sin (yaw c))) (Fin 0) (nneg (Math_cos (yaw c))) in
  let rgt := V3 (Math_cos (yaw c)) (Fin 0) (nneg (Math_sin (yaw c))) in
  let mov := V3 (Fin 0) (Fin 0) (Fin 0) in
  let mov := if pressed c "KeyW" || pressed c "ArrowUp"
             then v_addScaledVector mov fwd (Fin 1) else mov in
  let mov := if pressed c "KeyS" || pressed c "ArrowDown"
             then v_addScaledVector mov fwd (Fin (-1)) else mov in
  let mov := if pressed c "KeyA" || pressed c "ArrowLeft"
             then v_addScaledVector mov rgt (Fin (-1)) else mov in
  let mov := if pressed c "KeyD" || pressed c "ArrowRight"
             then v_addScaledVector mov rgt (Fin 1) else mov in
  if ngt (v_lengthSq mov) (Fin 0.001)
  then v_multiplyScalar (v_normalize mov) speed
  else mov.

(** What [update] returns. *)
Record Frame : Type := {
  fr_position : Vector3;
  fr_speed : num;
  fr_grounded : bool
}.

Section Update.
(** The character controller of the physics engine: from the body's
    translation and the desired movement, the corrected movement and
    whether the body is grounded. *)
Variable computeColliderMovement : Vector3 → Vector3 → Vector3 * bool.

Definition update (c : FPSController) (dt : num) : FPSController * Frame :=
  (* Cooldowns *)
  let jumpCooldown1 :=
    if ngt (jumpCooldown c) (Fin 0) then jumpCooldown c - dt else jumpCooldown c in
  (* Horizontal movement vector *)
  let mov := movement c in
  (* Vertical velocity (gravity + jump) *)
  let velY1 := velY c + GRAVITY c * dt in
  let velY2 := if isGrounded c && nlt velY1 (Fin 0) then Fin (-2) else velY1 in
  let jump := pressed c "Space" && isGrounded c && nle jumpCooldown1 (Fin 0) in
  let velY3 := if jump then JUMP_FORCE c else velY2 in
  let jumpCooldown2 := if jump then Fin 0.4 else jumpCooldown1 in
  (* Resolution by the physics engine *)
  let desired := V3 (vx mov * dt) (velY3 * dt) (vz mov * dt) in
  let cur := body_translation c in
  let res := computeColliderMovement cur desired in
  let corrected := res.1 in
  let next := V3 (vx cur + vx corrected) (vy cur + vy corrected) (vz cur + vz corrected) in
  (* Camera *)
  let pos := body_translation c in
  ({| keys := keys c; yaw := yaw c; pitch := pitch c; locked := locked c;
      velY := velY3; isGrounded := res.2; jumpCooldown := jumpCooldown2;
      MOVE_SPEED := MOVE_SPEED c; SPRINT_MULT := SPRINT_MULT c;
      JUMP_FORCE := JUMP_FORCE c; GRAVITY := GRAVITY c;
      EYE_HEIGHT := EYE_HEIGHT c; SENSITIVITY := SENSITIVITY c;
      _mov := mov;
      body_translation := cur;
      body_next := next;
      camera_position := V3 (vx pos) (vy pos + EYE_HEIGHT c) (vz pos);
      camera_rotation_x := pitch c;
      camera_rotation_y := yaw c |},
   {| fr_position := pos; fr_speed := v_length mov; fr_grounded := res.2 |}).
End Update.

(** [setPosition(x, y, z)]. *)
Definition setPosition (c : FPSController) (x y z : num) : FPSController :=
  {| keys := keys c; yaw := yaw c; pitch := pitch c; locked := locked c;
     velY := Fin 0; isGrounded := isGrounded c; jumpCooldown := jumpCooldown c;
     MOVE_SPEED := MOVE_SPEED c; SPRINT_MULT := SPRINT_MULT c;
     JUMP_FORCE := JUMP_FORCE c; GRAVITY := GRAVITY c;
     EYE_HEIGHT := EYE_HEIGHT c; SENSITIVITY := SENSITIVITY c;
     _mov := _mov c; body_translation := body_translation c;
     body_next := V3 x y z; camera_position := camera_position c;
     camera_rotation_x := camera_rotation_x c;
     camera_rotation_y := camera_rotation_y c |}.

(** [getPosition()]. *)
Definition getPosition (c : FPSController) : Vector3 := body_translation c.

(** ** controller.js: the movement vector in binary64

    The lines of [update] that build the movement vector, on IEEE 754
    double precision numbers (the kernel's primitive floats), with the
    [Vector3] methods they call.  [Math.sin(yaw)] and [Math.cos(yaw)] are
    taken as given: ECMAScript fixes them at yaw 0 (0 and 1) and leaves
    their precision elsewhere to the engine.  The four key tests and the
    sprint test are booleans. *)

Module Binary64.
Local Open Scope float_scope.

Record Vector3 : Type := V3 { vx : float; vy : float; vz : float }.

Definition addScaledVector (v w : Vector3) (s : float) : Vector3 :=
  V3 (vx v + vx w * s) (vy v + vy w * s) (vz v + vz w * s).

Definition lengthSq (v : Vector3) : float :=
  vx v * vx v + vy v * vy v + vz v * vz v.

Definition length (v : Vector3) : float := PrimFloat.sqrt (lengthSq v).

Definition multiplyScalar (v : Vector3) (s : float) : Vector3 :=
  V3 (vx v * s) (vy v * s) (vz v * s).

Definition divideScalar (v : Vector3) (s : float) : Vector3 :=
  multiplyScalar v (1 / s).

(** [a || b] on numbers: [b] when [a] is 0 or NaN. *)
Definition or_else (a b : float) : float :=
  if PrimFloat.is_nan a || PrimFloat.is_zero a then b else a.

Definition normalize (v : Vector3) : Vector3 :=
  divideScalar v (or_else (length v) 1).

Definition targetSpeed (MOVE_SPEED SPRINT_MULT : float) (sprint : bool) : float :=
  MOVE_SPEED * (if sprint then SPRINT_MULT else 1).

Definition movement (MOVE_SPEED SPRINT_MULT sin_yaw cos_yaw : float)
    (sprint forward backward left right : bool) : Vector3 :=
  let speed := targetSpeed MOVE_SPEED SPRINT_MULT sprint in
  let fwd := V3 (- sin_yaw) 0 (- cos_yaw) in
  let rgt := V3 cos_yaw 0 (- sin_yaw) in
  let mov := V3 0 0 0 in
  let mov := if forward then addScaledVector mov fwd 1 else mov in
  let mov := if backward then addScaledVector mov fwd (-1) else mov in
  let mov := if left then addScaledVector mov rgt (-1) else mov in
  let mov := if right then addScaledVector mov rgt 1 else mov in
  if 0.001 <? lengthSq mov
  then multiplyScalar (normalize mov) speed
  else mov.

End Binary64.

(** ** main.js: the game loop *)

(** [const MAX_SPEED = player.MOVE_SPEED * player.SPRINT_MULT]. *)
Definition MAX_SPEED (player : FPSController) : num :=
  MOVE_SPEED player * SPRINT_MULT player.

(** The width of the speed bar of the HUD, in percent:
    [Math.min(100, (speed / MAX_SPEED) * 100)]. *)
Definition speedFill_width (max_speed speed : num) : num :=
  Math_min (Fin 100) (speed / max_speed * Fin 100).

(** * Properties *)

(** ** Numbers and arrays *)

Lemma Int_part_IZR (k : Z) : Int_part (IZR k) = k.
Proof. symmetry. apply Int_part_spec. lra. Qed.

Lemma zn_add (a b : Z) : zn a + zn b = zn (a + b).
Proof. unfold zn. simpl. by rewrite plus_IZR. Qed.

Lemma zn_mul (a b : Z) : zn a * zn b = zn (a * b).
Proof. unfold zn. simpl. by rewrite mult_IZR. Qed.

Lemma Math_min_zn (a b : Z) : Math_min (zn a) (zn b) = zn (Z.min a b).
Proof.
  unfold zn. simpl. case_bool_decide as H.
  - apply lt_IZR in H. by rewrite Z.min_r by lia.
  - assert (¬ (b < a)%Z) by (intros H'; by apply IZR_lt in H').
    by rewrite Z.min_l by lia.
Qed.

Lemma Math_max_zn (a b : Z) : Math_max (zn a) (zn b) = zn (Z.max a b).
Proof.
  unfold zn. simpl. case_bool_decide as H.
  - apply lt_IZR in H. by rewrite Z.max_r by lia.
  - assert (¬ (a < b)%Z) by (intros H'; by apply IZR_lt in H').
    by rewrite Z.max_l by lia.
Qed.

Lemma aget_zn (a : list num) (k : Z) : aget a (zn k) = agetZ a k.
Proof.
  unfold aget, zn. rewrite Int_part_IZR. by rewrite decide_True.
Qed.

Lemma agetZ_lookup (a : list num) (i : Z) :
  (0 ≤ i < Z.of_nat (length a))%Z → a !! Z.to_nat i = Some (agetZ a i).
Proof.
  intros Hi. unfold agetZ. rewrite bool_decide_eq_true_2 by lia.
  destruct (lookup_lt_is_Some_2 a (Z.to_nat i)) as [v Hv]; [lia|].
  by rewrite Hv.
Qed.

Lemma length_asetZ {A} (a : list A) (i : Z) (v : A) :
  length (asetZ a i v) = length a.
Proof. unfold asetZ. case_bool_decide; by rewrite ?length_insert. Qed.

Lemma agetZ_asetZ_eq (a : list num) (i : Z) (v : num) :
  (0 ≤ i < Z.of_nat (length a))%Z → agetZ (asetZ a i v) i = v.
Proof.
  intros Hi. unfold agetZ, asetZ. rewrite !bool_decide_eq_true_2 by lia.
  by rewrite list_lookup_insert_eq by lia.
Qed.

Lemma agetZ_asetZ_ne (a : list num) (i j : Z) (v : num) :
  i ≠ j → agetZ (asetZ a i v) j = agetZ a j.
Proof.
  intros Hij. unfold agetZ, asetZ.
  case_bool_decide; [|done]. case_bool_decide; [|done].
  by rewrite list_lookup_insert_ne by lia.
Qed.

Lemma length_new_array (n : Z) : length (new_array n) = Z.to_nat n.
Proof. apply length_replicate. Qed.

(** Induction over a counting loop. *)
Lemma for_Z_ind {St} (P : Z → St → Prop) (n : Z) (body : Z → St → St) (s : St) :
  (0 ≤ n)%Z →
  P 0%Z s →
  (∀ i s, (0 ≤ i < n)%Z → P i s → P (i + 1)%Z (body i s)) →
  P n (for_Z n body s).
Proof.
  intros Hn H0 Hstep. unfold for_Z.
  rewrite <- (Z2Nat.id n) by done.
  assert (Hk : (Z.of_nat (Z.to_nat n) ≤ n)%Z) by lia.
  revert Hk. generalize (Z.to_nat n) as k. intros k.
  induction k as [|k IH]; intros Hk.
  - done.
  - rewrite seqZ_S, foldl_app. simpl.
    replace (Z.of_nat (S k)) with (Z.of_nat k + 1)%Z by lia.
    apply Hstep; [lia|]. apply IH. lia.
Qed.

Lemma for_Z_nil {St} (n : Z) (body : Z → St → St) (s : St) :
  (n ≤ 0)%Z → for_Z n body s = s.
Proof. intros Hn. unfold for_Z. by rewrite seqZ_nil. Qed.

(** Row-major indices of distinct cells are distinct. *)
Lemma index_inj (n r c r' c' : Z) :
  (0 ≤ c < n)%Z → (0 ≤ c' < n)%Z →
  (r * n + c = r' * n + c')%Z → r = r' ∧ c = c'.
Proof.
  intros Hc Hc' Heq.
  assert (r = r') as -> by nia. lia.
Qed.

Lemma index_bound (n r c : Z) :
  (0 ≤ r < n)%Z → (0 ≤ c < n)%Z → (0 ≤ r * n + c < n * n)%Z.
Proof. intros. nia. Qed.

(** ** terrain.js: grid lookup *)

Lemma getHeight_zn (t : TerrainBuilder) (row col : Z) :
  getHeight t (zn row) (zn col) =
  agetZ (heights t) (clampZ (size t) row * size t + clampZ (size t) col)
  * heightScale t + heightOffset t.
Proof.
  unfold getHeight, clampZ.
  change (Fin 0) with (zn 0).
  by rewrite !Math_min_zn, !Math_max_zn, zn_mul, zn_add, aget_zn.
Qed.

Lemma clampZ_range (n i : Z) : (1 ≤ n)%Z → (0 ≤ clampZ n i < n)%Z.
Proof. unfold clampZ. lia. Qed.

Lemma clampZ_id (n i : Z) : (0 ≤ i < n)%Z → clampZ n i = i.
Proof. unfold clampZ. lia. Qed.

(** C2.  On a grid of size N ≥ 2 holding N·N samples, [getHeight] at any
    integers (row, col), inside the grid or not, is the value at the
    indices clamped into [0, N-1]: an actual sample of the grid, times
    [heightScale], plus [heightOffset]. *)
Theorem getHeight_clamped (t : TerrainBuilder) (row col : Z) :
  (2 ≤ size t)%Z →
  Z.of_nat (length (heights t)) = (size t * size t)%Z →
  getHeight t (zn row) (zn col)
  = getHeight t (zn (clampZ (size t) row)) (zn (clampZ (size t) col))
  ∧ ∃ sample : num,
      heights t !! Z.to_nat (clampZ (size t) row * size t + clampZ (size t) col)
      = Some sample
      ∧ getHeight t (zn row) (zn col) = sample * heightScale t + heightOffset t.
Proof.
  intros HN Hlen.
  pose proof (clampZ_range (size t) row ltac:(lia)) as Hr.
  pose proof (clampZ_range (size t) col ltac:(lia)) as Hc.
  split.
  - rewrite !getHeight_zn.
    by rewrite (clampZ_id _ (clampZ _ row)), (clampZ_id _ (clampZ _ col)).
  - eexists. split; [|apply getHeight_zn].
    apply agetZ_lookup. rewrite Hlen. by apply index_bound.
Qed.

(** A 2×2 grid, probed far outside on both axes. *)
Lemma getHeight_clamped_witness :
  getHeight
    (TerrainBuilder_init
       {| opt_heights := [Fin 0; Fin 1; Fin 2; Fin 3]; opt_size := 2;
          opt_worldSize := None; opt_heightScale := None;
          opt_heightOffset := None |})
    (zn (-5)) (zn 7)
  = getHeight
      (TerrainBuilder_init
         {| opt_heights := [Fin 0; Fin 1; Fin 2; Fin 3]; opt_size := 2;
            opt_worldSize := None; opt_heightScale := None;
            opt_heightOffset := None |})
      (zn 0) (zn 1).
Proof.
  refine (proj1 (getHeight_clamped
    (TerrainBuilder_init
       {| opt_heights := [Fin 0; Fin 1; Fin 2; Fin 3]; opt_size := 2;
          opt_worldSize := None; opt_heightScale := None;
          opt_heightOffset := None |}) (-5) 7 _ _)).
  - simpl. lia.
  - reflexivity.
Defined.

(** ** terrain.js: the collision heightfield *)

Lemma rapier_heights_spec (hs : list num) (n : Z) :
  (0 ≤ n)%Z →
  let out :=
    for_Z n (λ row rh,
      for_Z n (λ col rh,
        asetZ rh (col * n + row) (agetZ hs (row * n + col))) rh)
      (new_array ((n - 1 + 1) * (n - 1 + 1))) in
  length out = Z.to_nat (n * n)
  ∧ ∀ row col, (0 ≤ row < n)%Z → (0 ≤ col < n)%Z →
      agetZ out (col * n + row) = agetZ hs (row * n + col).
Proof.
  intros Hn out. subst out.
  apply (for_Z_ind (λ r rh,
    length rh = Z.to_nat (n * n)
    ∧ ∀ row col, (0 ≤ row < r)%Z → (0 ≤ col < n)%Z →
        agetZ rh (col * n + row) = agetZ hs (row * n + col))); [done| |].
  - split; [|lia]. rewrite length_new_array. f_equal. lia.
  - intros r rh Hr [Hlen Hrows].
    cbv beta.
    match goal with |- context [for_Z ?m ?b ?s] =>
      enough (length (for_Z m b s) = Z.to_nat (n * n)
        ∧ ∀ row col, (0 ≤ col < n)%Z →
            (0 ≤ row < r)%Z ∨ (row = r ∧ col < n)%Z →
            agetZ (for_Z m b s) (col * n + row) = agetZ hs (row * n + col))
        as [Hlen' Hcells]
    end.
    { split; [done|]. intros row col Hrow Hcol. apply Hcells; [done|]. lia. }
    apply (for_Z_ind (λ c rh,
      length rh = Z.to_nat (n * n)
      ∧ ∀ row col, (0 ≤ col < n)%Z →
          (0 ≤ row < r)%Z ∨ (row = r ∧ col < c)%Z →
          agetZ rh (col * n + row) = agetZ hs (row * n + col))); [done| |].
    + split; [done|]. intros row col Hcol [Hrow|[_ ?]]; [by apply Hrows|lia].
    + intros c rh' Hc [Hlen' Hcells]. split; [by rewrite length_asetZ|].
      intros row col Hcol Hcase.
      destruct (decide (col = c ∧ row = r)) as [[-> ->]|Hne].
      * apply agetZ_asetZ_eq. rewrite Hlen'.
        pose proof (index_bound n c r Hc Hr). lia.
      * rewrite agetZ_asetZ_ne.
        { apply Hcells; [done|]. lia. }
        intros Heq. apply Hne.
        assert (0 ≤ row < n)%Z as Hrow by lia.
        destruct (index_inj n c r col row Hr Hrow Heq) as [-> ->]. done.
Qed.

(** C1.  For a grid of size N ≥ 2 in row-major order, the exporter
    returns nrows = ncols = N-1, the scale (worldSize, heightScale,
    worldSize), and an array of (nrows+1)(ncols+1) values whose element
    col·N+row is the input's element row·N+col, for all row, col in
    [0, N-1]. *)
Theorem buildRapierHeightfield_transposes (t : TerrainBuilder) :
  (2 ≤ size t)%Z →
  Z.of_nat (length (heights t)) = (size t * size t)%Z →
  nrows (buildRapierHeightfield t) = (size t - 1)%Z
  ∧ ncols (buildRapierHeightfield t) = (size t - 1)%Z
  ∧ scale (buildRapierHeightfield t)
    = V3 (worldSize t) (heightScale t) (worldSize t)
  ∧ Z.of_nat (length (hf_heights (buildRapierHeightfield t)))
    = ((nrows (buildRapierHeightfield t) + 1)
       * (ncols (buildRapierHeightfield t) + 1))%Z
  ∧ ∀ row col : Z,
      (0 ≤ row ≤ size t - 1)%Z → (0 ≤ col ≤ size t - 1)%Z →
      ∃ v : num,
        heights t !! Z.to_nat (row * size t + col) = Some v
        ∧ hf_heights (buildRapierHeightfield t) !! Z.to_nat (col * size t + row)
          = Some v.
Proof.
  intros HN Hlen.
  destruct (rapier_heights_spec (heights t) (size t) ltac:(lia)) as [Hl Hget].
  unfold buildRapierHeightfield. simpl.
  repeat split.
  - rewrite Hl. lia.
  - intros row col Hrow Hcol.
    exists (agetZ (heights t) (row * size t + col)). split.
    + apply agetZ_lookup. rewrite Hlen. apply index_bound; lia.
    + rewrite <- Hget by lia. apply agetZ_lookup. rewrite Hl.
      pose proof (index_bound (size t) col row). lia.
Qed.

(** The 2×2 grid [[0 1] [2 3]]. *)
Lemma buildRapierHeightfield_transposes_witness :
  nrows (buildRapierHeightfield
    (TerrainBuilder_init
       {| opt_heights := [Fin 0; Fin 1; Fin 2; Fin 3]; opt_size := 2;
          opt_worldSize := None; opt_heightScale := None;
          opt_heightOffset := None |})) = 1%Z.
Proof.
  refine (proj1 (buildRapierHeightfield_transposes
    (TerrainBuilder_init
       {| opt_heights := [Fin 0; Fin 1; Fin 2; Fin 3]; opt_size := 2;
          opt_worldSize := None; opt_heightScale := None;
          opt_heightOffset := None |}) _ _)).
  - simpl. lia.
  - reflexivity.
Defined.

(** ** terrain.js: interpolation at a grid vertex *)

Lemma agetZ_fin (a : list num) (i : Z) :
  Forall is_fin a → (0 ≤ i < Z.of_nat (length a))%Z → ∃ r, agetZ a i = Fin r.
Proof.
  intros Hfin Hi. pose proof (agetZ_lookup a i Hi) as Hl.
  rewrite Forall_forall in Hfin.
  apply list_elem_of_lookup_2, Hfin in Hl.
  destruct (agetZ a i); try done. by eexists.
Qed.

Lemma getHeight_fin (t : TerrainBuilder) (row col : Z) :
  (1 ≤ size t)%Z →
  Z.of_nat (length (heights t)) = (size t * size t)%Z →
  Forall is_fin (heights t) →
  is_fin (heightScale t) → is_fin (heightOffset t) →
  ∃ h, getHeight t (zn row) (zn col) = Fin h.
Proof.
  intros HN Hlen Hfin Hs Ho. rewrite getHeight_zn.
  destruct (agetZ_fin (heights t)
    (clampZ (size t) row * size t + clampZ (size t) col) Hfin) as [r ->].
  { rewrite Hlen. apply index_bound; by apply clampZ_range. }
  destruct (heightScale t), (heightOffset t); try done. by eexists.
Qed.

(** C3.  For a terrain built from a finite N×N grid (N ≥ 2) over a world
    of positive size, [getHeightAtWorld] at the world position that
    [buildMesh] gives to vertex (row, col) is [getHeight row col], which is
    also the height [buildMesh] stores for that vertex: at integral grid
    coordinates the bilinear blend is the sample itself.  (Exact real
    arithmetic; the tolerance of the claim covers the rounding.) *)
Theorem getHeightAtWorld_at_vertex (o : TerrainOptions) (W : R) (row col : Z) :
  (2 ≤ opt_size o)%Z →
  Z.of_nat (length (opt_heights o)) = (opt_size o * opt_size o)%Z →
  Forall is_fin (opt_heights o) →
  default (Fin 200) (opt_worldSize o) = Fin W → (0 < W)%R →
  is_fin (default (Fin 14) (opt_heightScale o)) →
  is_fin (default (Fin 0) (opt_heightOffset o)) →
  (0 ≤ row ≤ opt_size o - 1)%Z → (0 ≤ col ≤ opt_size o - 1)%Z →
  getHeightAtWorld (TerrainBuilder_init o)
    (vx (vertexPosition (TerrainBuilder_init o) row col))
    (vz (vertexPosition (TerrainBuilder_init o) row col))
  = getHeight (TerrainBuilder_init o) (zn row) (zn col)
  ∧ vy (vertexPosition (TerrainBuilder_init o) row col)
    = getHeight (TerrainBuilder_init o) (zn row) (zn col).
Proof.
  intros HN Hlen Hfin HW HWpos Hs Ho Hrow Hcol.
  split; [|done].
  set (t := TerrainBuilder_init o).
  assert (Hsize : size t = opt_size o) by done.
  assert (Hd : (IZR (opt_size o - 1) ≠ 0)%R).
  { apply not_0_IZR. lia. }
  assert (Hd' : (0 < IZR (opt_size o - 1))%R).
  { apply IZR_lt. lia. }
  assert (Hcs : cellSize t = Fin (W / IZR (opt_size o - 1))).
  { unfold t. simpl. rewrite HW. unfold zn. simpl. by rewrite decide_False. }
  assert (Hws : worldSize t = Fin W) by (unfold t; simpl; done).
  assert (Hcs0 : (W / IZR (opt_size o - 1) ≠ 0)%R).
  { apply Rgt_not_eq. by apply Rdiv_lt_0_compat. }
  assert (Hg : ∀ k : Z,
    (zn k * cellSize t - worldSize t / Fin 2 + worldSize t / Fin 2) / cellSize t
    = zn k).
  { intros k. rewrite Hcs, Hws. unfold zn. simpl.
    rewrite (decide_False (P := (2 = 0)%R)) by lra.
    simpl. rewrite decide_False by done. f_equal. field. split; lra. }
  unfold getHeightAtWorld, vertexPosition. cbn [vx vz].
  rewrite !Hg.
  assert (Hfl : ∀ k, Math_floor (zn k) = zn k).
  { intros k. unfold Math_floor, zn. by rewrite Int_part_IZR. }
  rewrite !Hfl. change (Fin 1) with (zn 1). rewrite !zn_add.
  destruct (getHeight_fin t row col) as [h00 ->]; try done; [lia|].
  destruct (getHeight_fin t row (col + 1)) as [h10 ->]; try done; [lia|].
  destruct (getHeight_fin t (row + 1) col) as [h01 ->]; try done; [lia|].
  destruct (getHeight_fin t (row + 1) (col + 1)) as [h11 ->]; try done; [lia|].
  unfold zn. simpl. f_equal. ring.
Qed.

(** The centre vertex of a flat 3×3 grid over a world of size 4. *)
Lemma getHeightAtWorld_at_vertex_witness :
  getHeightAtWorld
    (TerrainBuilder_init
       {| opt_heights := replicate 9 (Fin 0.5); opt_size := 3;
          opt_worldSize := Some (Fin 4); opt_heightScale := Some (Fin 10);
          opt_heightOffset := None |})
    (vx (vertexPosition
      (TerrainBuilder_init
         {| opt_heights := replicate 9 (Fin 0.5); opt_size := 3;
            opt_worldSize := Some (Fin 4); opt_heightScale := Some (Fin 10);
            opt_heightOffset := None |}) 1 1))
    (vz (vertexPosition
      (TerrainBuilder_init
         {| opt_heights := replicate 9 (Fin 0.5); opt_size := 3;
            opt_worldSize := Some (Fin 4); opt_heightScale := Some (Fin 10);
            opt_heightOffset := None |}) 1 1))
  = getHeight
      (TerrainBuilder_init
         {| opt_heights := replicate 9 (Fin 0.5); opt_size := 3;
            opt_worldSize := Some (Fin 4); opt_heightScale := Some (Fin 10);
            opt_heightOffset := None |}) (zn 1) (zn 1).
Proof.
  refine (proj1 (getHeightAtWorld_at_vertex
    {| opt_heights := replicate 9 (Fin 0.5); opt_size := 3;
       opt_worldSize := Some (Fin 4); opt_heightScale := Some (Fin 10);
       opt_heightOffset := None |} 4 1 1 _ _ _ _ _ _ _ _ _)).
  - simpl. lia.
  - reflexivity.
  - simpl. repeat constructor.
  - reflexivity.
  - lra.
  - exact I.
  - exact I.
  - simpl. lia.
  - simpl. lia.
Defined.

(** ** terrain.js: the constructor *)

(** A grid of size 1 with no sample over a world of size 0 is degenerate
    on every count, and is constructed all the same. *)
Lemma TerrainBuilder_new_accepts_degenerate :
  degenerate
    {| opt_heights := []; opt_size := 1; opt_worldSize := Some (Fin 0);
       opt_heightScale := None; opt_heightOffset := None |}
  ∧ TerrainBuilder_new
      {| opt_heights := []; opt_size := 1; opt_worldSize := Some (Fin 0);
         opt_heightScale := None; opt_heightOffset := None |}
    ≠ Thrown.
Proof. split; [left; simpl; lia | done]. Qed.

(** C9, as the code has it.  The constructor validates nothing: for every
    configuration, degenerate or not, it returns a model that stores the
    given grid and size, with [cols = size - 1] and
    [cellSize = worldSize / (size - 1)], the absent parameters taking
    their defaults. *)
Theorem TerrainBuilder_new_total (o : TerrainOptions) :
  ∃ t : TerrainBuilder,
    TerrainBuilder_new o = Returned t
    ∧ heights t = opt_heights o
    ∧ size t = opt_size o
    ∧ cols t = (opt_size o - 1)%Z
    ∧ worldSize t = default (Fin 200) (opt_worldSize o)
    ∧ heightScale t = default (Fin 14) (opt_heightScale o)
    ∧ heightOffset t = default (Fin 0) (opt_heightOffset o)
    ∧ cellSize t = worldSize t / zn (size t - 1).
Proof. by eexists. Qed.

(** ** controller.js: the integrator step *)

Lemma nle_not_ngt (a b : num) : nle a b = true → ngt a b = false.
Proof.
  unfold ngt. destruct a, b; simpl; try done.
  intros H%bool_decide_eq_true. apply bool_decide_eq_false. lra.
Qed.

(** C7.  A step taken grounded, with the cooldown expired and the jump
    key down, leaves [velY] at the jump force 9, whatever gravity (-25 or
    any other value) added in the frame, and the cooldown at 0.4. *)
Theorem update_jump
    (resolve : Vector3 → Vector3 → Vector3 * bool)
    (c : FPSController) (dt : num) :
  isGrounded c = true →
  nle (jumpCooldown c) (Fin 0) = true →
  pressed c "Space" = true →
  JUMP_FORCE c = Fin 9 →
  velY (update resolve c dt).1 = Fin 9
  ∧ jumpCooldown (update resolve c dt).1 = Fin 0.4.
Proof.
  intros Hg Hcd Hsp Hjf. unfold update. cbn [fst velY jumpCooldown].
  rewrite (nle_not_ngt _ _ Hcd), Hsp, Hg, Hcd. simpl. by rewrite Hjf.
Qed.

(** The controller one frame after it landed with the jump key held. *)
Lemma update_jump_witness :
  velY (update (λ _ d, (d, true))
    (update (λ _ d, (d, true))
       (on_keydown (FPSController_new (V3 (Fin 0) (Fin 0) (Fin 0)) (Fin 0) (Fin 0))
          "Space") (Fin 0.016)).1 (Fin 0.016)).1 = Fin 9.
Proof.
  refine (proj1 (update_jump _ _ _ _ _ _ _)).
  - reflexivity.
  - unfold update. cbn [fst jumpCooldown isGrounded on_keydown set_keys].
    cbn [FPSController_new jumpCooldown isGrounded].
    rewrite andb_false_r. cbn [andb].
    assert (ngt (Fin 0) (Fin 0) = false) as ->.
    { apply bool_decide_eq_false. lra. }
    apply bool_decide_eq_true. lra.
  - unfold pressed, update, on_keydown. cbn [fst keys set_keys].
    by rewrite lookup_insert_eq.
  - reflexivity.
Defined.

(** With the cooldown at 0 and no key down, a step of one second leaves
    the cooldown at 0, not at -1. *)
Lemma update_cooldown_not_decremented :
  jumpCooldown
    (update (λ _ d, (d, false))
       (FPSController_new (V3 (Fin 0) (Fin 0) (Fin 0)) (Fin 0) (Fin 0))
       (Fin 1)).1
  ≠ jumpCooldown (FPSController_new (V3 (Fin 0) (Fin 0) (Fin 0)) (Fin 0) (Fin 0))
    - Fin 1.
Proof.
  unfold update. cbn [fst jumpCooldown FPSController_new isGrounded].
  rewrite andb_false_r.
  assert (ngt (Fin 0) (Fin 0) = false) as ->.
  { apply bool_decide_eq_false. lra. }
  simpl. intros [= H]. lra.
Qed.

(** C8, as the code has it.  A step takes [dt] off the cooldown only when
    the cooldown is above zero; at or below zero it is left as it is.
    After that, a jump fired in the step (jump key down, grounded, and
    the cooldown so obtained at or below zero) sets it to 0.4. *)
Theorem update_cooldown
    (resolve : Vector3 → Vector3 → Vector3 * bool)
    (c : FPSController) (jc d : R) :
  jumpCooldown c = Fin jc →
  jumpCooldown (update resolve c (Fin d)).1
  = if pressed c "Space" && isGrounded c
       && bool_decide (jc <= 0 ∨ jc - d <= 0)%R
    then Fin 0.4
    else if bool_decide (0 < jc)%R then Fin (jc - d) else Fin jc.
Proof.
  intros Hjc. unfold update. cbn [fst jumpCooldown]. rewrite Hjc.
  unfold ngt. cbn [nlt nsub].
  destruct (pressed c "Space" && isGrounded c); cbn [andb];
    case_bool_decide as H0; cbn [nle];
    repeat case_bool_decide; try done; lra.
Qed.

(** The new controller, whose cooldown is 0, stepped by 1/60 s. *)
Lemma update_cooldown_witness :
  jumpCooldown
    (update (λ _ d, (d, false))
       (FPSController_new (V3 (Fin 0) (Fin 0) (Fin 0)) (Fin 0) (Fin 0))
       (Fin (1 / 60))).1
  = if pressed (FPSController_new (V3 (Fin 0) (Fin 0) (Fin 0)) (Fin 0) (Fin 0))
         "Space"
       && isGrounded
            (FPSController_new (V3 (Fin 0) (Fin 0) (Fin 0)) (Fin 0) (Fin 0))
       && bool_decide (0 <= 0 ∨ 0 - 1 / 60 <= 0)%R
    then Fin 0.4
    else if bool_decide (0 < 0)%R then Fin (0 - 1 / 60) else Fin 0.
Proof.
  refine (update_cooldown _ _ 0 (1 / 60) _). reflexivity.
Defined.

(** ** Vector3: normalisation *)

Lemma sumsq_nonneg (a b c : R) : (0 <= a * a + b * b + c * c)%R.
Proof. nra. Qed.

Lemma v_lengthSq_fin (a b c : R) :
  v_lengthSq (V3 (Fin a) (Fin b) (Fin c)) = Fin (a * a + b * b + c * c).
Proof. reflexivity. Qed.

Lemma v_length_fin (a b c : R) :
  v_length (V3 (Fin a) (Fin b) (Fin c)) = Fin (sqrt (a * a + b * b + c * c)).
Proof.
  unfold v_length. rewrite v_lengthSq_fin. simpl.
  rewrite bool_decide_eq_false_2; [done|]. pose proof (sumsq_nonneg a b c). lra.
Qed.

(** A finite vector that is not null is divided by its length. *)
Lemma v_normalize_fin (a b c : R) :
  (0 < a * a + b * b + c * c)%R →
  v_normalize (V3 (Fin a) (Fin b) (Fin c))
  = V3 (Fin (a * (1 / sqrt (a * a + b * b + c * c))))
       (Fin (b * (1 / sqrt (a * a + b * b + c * c))))
       (Fin (c * (1 / sqrt (a * a + b * b + c * c)))).
Proof.
  intros HL. unfold v_normalize. rewrite v_length_fin.
  pose proof (sqrt_lt_R0 _ HL) as Hs.
  unfold nor, truthy. rewrite bool_decide_eq_true_2 by lra.
  unfold v_divideScalar, v_multiplyScalar. simpl.
  by rewrite decide_False by lra.
Qed.

(** The null vector is left null (it is divided by 1). *)
Lemma v_normalize_null :
  v_normalize (V3 (Fin 0) (Fin 0) (Fin 0)) = V3 (Fin 0) (Fin 0) (Fin 0).
Proof.
  unfold v_normalize. rewrite v_length_fin.
  replace (0 * 0 + 0 * 0 + 0 * 0)%R with 0%R by ring. rewrite sqrt_0.
  unfold nor, truthy. rewrite bool_decide_eq_false_2 by tauto.
  unfold v_divideScalar, v_multiplyScalar. simpl.
  rewrite decide_False by lra. do 3 f_equal; field.
Qed.

Lemma normalized_sumsq (a b c : R) :
  (0 < a * a + b * b + c * c)%R →
  let k := (1 / sqrt (a * a + b * b + c * c))%R in
  ((a * k) * (a * k) + (b * k) * (b * k) + (c * k) * (c * k))%R = 1%R.
Proof.
  intros HL k. subst k.
  pose proof (sqrt_lt_R0 _ HL) as Hs.
  pose proof (sqrt_sqrt (a * a + b * b + c * c) ltac:(lra)) as Hss.
  set (s := sqrt (a * a + b * b + c * c)) in *.
  replace ((a * (1 / s)) * (a * (1 / s)) + (b * (1 / s)) * (b * (1 / s))
           + (c * (1 / s)) * (c * (1 / s)))%R
    with ((a * a + b * b + c * c) / (s * s))%R by (field; lra).
  rewrite Hss. field. lra.
Qed.

(** A finite vector that is not null has length 1 once normalised. *)
Lemma v_normalize_unit (a b c : R) :
  (0 < a * a + b * b + c * c)%R →
  v_length (v_normalize (V3 (Fin a) (Fin b) (Fin c))) = Fin 1.
Proof.
  intros HL. rewrite v_normalize_fin by done. rewrite v_length_fin.
  rewrite (normalized_sumsq a b c HL). by rewrite sqrt_1.
Qed.

(** ... and length [s] once scaled by [s ≥ 0]. *)
Lemma v_normalize_scaled (a b c s : R) :
  (0 < a * a + b * b + c * c)%R → (0 <= s)%R →
  v_length (v_multiplyScalar (v_normalize (V3 (Fin a) (Fin b) (Fin c))) (Fin s))
  = Fin s.
Proof.
  intros HL Hs. rewrite v_normalize_fin by done.
  unfold v_multiplyScalar. cbn [vx vy vz nmul]. rewrite v_length_fin.
  f_equal. pose proof (normalized_sumsq a b c HL) as Hn. cbv zeta in Hn.
  set (k := (1 / sqrt (a * a + b * b + c * c))%R) in *.
  replace (a * k * s * (a * k * s) + b * k * s * (b * k * s)
           + c * k * s * (c * k * s))%R
    with ((a * k * (a * k) + b * k * (b * k) + c * k * (c * k)) * (s * s))%R
    by ring.
  rewrite Hn, Rmult_1_l. by apply sqrt_square.
Qed.

(** ** controller.js: the movement vector *)

Lemma targetSpeed_fin (c : FPSController) (ms sm : R) :
  MOVE_SPEED c = Fin ms → SPRINT_MULT c = Fin sm →
  (0 <= ms)%R → (0 <= sm)%R →
  ∃ s, targetSpeed c = Fin s ∧ (0 <= s)%R.
Proof.
  intros H1 H2 Hms Hsm. unfold targetSpeed. rewrite H1, H2.
  destruct (pressed c "ShiftLeft" || pressed c "ShiftRight"); simpl.
  - eexists. split; [done|]. nra.
  - eexists. split; [done|]. lra.
Qed.

(** The vector left by the four key tests is null (squared length exactly
    0), or of squared length 1 or 2. *)
Lemma dead_zone_or_normalised (a e b s : R) :
  (a * a + e * e + b * b = 0 ∨ 1 <= a * a + e * e + b * b)%R →
  (0 <= s)%R →
  let mov := V3 (Fin a) (Fin e) (Fin b) in
  let out := if ngt (v_lengthSq mov) (Fin 0.001)
             then v_multiplyScalar (v_normalize mov) (Fin s) else mov in
  (out = V3 (Fin 0) (Fin 0) (Fin 0) ∧ v_length out = Fin 0)
  ∨ v_length out = Fin s.
Proof.
  intros [H0|H1] Hs mov out; subst mov out; rewrite v_lengthSq_fin;
    unfold ngt, nlt.
  - rewrite bool_decide_eq_false_2 by lra. left.
    assert (a = 0 ∧ e = 0 ∧ b = 0)%R as (-> & -> & ->) by (repeat split; nra).
    split; [done|]. rewrite v_length_fin.
    replace (0 * 0 + 0 * 0 + 0 * 0)%R with 0%R by ring. by rewrite sqrt_0.
  - rewrite bool_decide_eq_true_2 by lra. right.
    apply v_normalize_scaled; lra.
Qed.

(** C10, up to rounding.  With a finite yaw and non-negative speed
    settings (8 and 1.8 in the constructor), the movement vector of a
    step is the null vector, of length 0, or has the length of the target
    speed: base speed, times the sprint multiplier when a shift key is
    down.  (Exact real arithmetic; in binary64 the length is the target
    speed up to rounding only, as the evaluation below shows.) *)
Theorem movement_magnitude (c : FPSController) (y ms sm : R) :
  yaw c = Fin y →
  MOVE_SPEED c = Fin ms → SPRINT_MULT c = Fin sm →
  (0 <= ms)%R → (0 <= sm)%R →
  (movement c = V3 (Fin 0) (Fin 0) (Fin 0) ∧ v_length (movement c) = Fin 0)
  ∨ v_length (movement c) = targetSpeed c.
Proof.
  intros Hy Hms Hsm Hms0 Hsm0.
  destruct (targetSpeed_fin c ms sm Hms Hsm Hms0 Hsm0) as (s & Hts & Hs).
  unfold movement. rewrite Hts, Hy.
  pose proof (sin2_cos2 y) as Hsc. unfold Rsqr in Hsc.
  destruct (pressed c "KeyW" || pressed c "ArrowUp"),
           (pressed c "KeyS" || pressed c "ArrowDown"),
           (pressed c "KeyA" || pressed c "ArrowLeft"),
           (pressed c "KeyD" || pressed c "ArrowRight");
    cbn [v_addScaledVector vx vy vz nadd nmul nneg Math_sin Math_cos];
    (apply dead_zone_or_normalised; [|done]);
    first [ left; nra | right; nra ].
Qed.

(** The new controller with the forward key down. *)
Lemma movement_magnitude_witness :
  (movement (on_keydown
     (FPSController_new (V3 (Fin 0) (Fin 0) (Fin 0)) (Fin 0) (Fin 0)) "KeyW")
   = V3 (Fin 0) (Fin 0) (Fin 0)
   ∧ v_length (movement (on_keydown
       (FPSController_new (V3 (Fin 0) (Fin 0) (Fin 0)) (Fin 0) (Fin 0)) "KeyW"))
     = Fin 0)
  ∨ v_length (movement (on_keydown
       (FPSController_new (V3 (Fin 0) (Fin 0) (Fin 0)) (Fin 0) (Fin 0)) "KeyW"))
    = targetSpeed (on_keydown
        (FPSController_new (V3 (Fin 0) (Fin 0) (Fin 0)) (Fin 0) (Fin 0)) "KeyW").
Proof.
  refine (movement_magnitude _ 0 8 1.8 _ _ _ _ _).
  - reflexivity.
  - reflexivity.
  - reflexivity.
  - lra.
  - lra.
Defined.

(** C10, as stated, fails in binary64.  At yaw 0 (sine 0, cosine 1), with
    the forward and the right key down, no sprint and the speeds of the
    constructor, the target speed is 8 and the vector before normalising
    is (1, 0, -1); normalised and scaled it has length
    7.999999999999999 (one unit in the last place below 8): neither 0
    nor the target speed. *)
Lemma movement_binary64_inexact :
  Binary64.targetSpeed 8 1.8 false = 8%float
  ∧ Binary64.length (Binary64.movement 8 1.8 0 1 false true false false true)
    = 0x1.fffffffffffffp+2%float
  ∧ PrimFloat.eqb
      (Binary64.length (Binary64.movement 8 1.8 0 1 false true false false true))
      (Binary64.targetSpeed 8 1.8 false) = false
  ∧ PrimFloat.eqb
      (Binary64.length (Binary64.movement 8 1.8 0 1 false true false false true))
      0 = false.
Proof. repeat split; vm_compute; reflexivity. Qed.

(** ** heightmap.js: the noise primitive *)

Lemma PI_bounds : (3.1 < PI < 3.1775)%R.
Proof.
  pose proof (PI_2_3_7_ineq 1) as H.
  unfold sum_f_R0, tg_alt, PI_2_3_7_tg, Ratan_seq in H. simpl in H.
  lra.
Qed.

Lemma sin_127_1_nonzero : sin 127.1 ≠ 0%R.
Proof.
  intros [k Hk]%sin_eq_0_0. pose proof PI_bounds as [Hl Hu].
  assert (40 < IZR k < 41)%R as [H1 H2] by (split; nra).
  apply lt_IZR in H1, H2. lia.
Qed.

Lemma hash_not_integral_twice (m1 m2 : Z) :
  (sin 127.1 * 43758.5453123)%R = IZR m1 →
  (sin (2 * 127.1) * 43758.5453123)%R = IZR m2 →
  False.
Proof.
  intros H1 H2. rewrite sin_2a in H2.
  pose proof (sin2_cos2 127.1) as Hsc. unfold Rsqr in Hsc.
  pose proof (SIN_bound 127.1) as Hb.
  set (s := sin 127.1) in *. set (k := cos 127.1) in *.
  set (P := 437585453123%Z). set (Q := 10000000%Z).
  assert (E1 : (IZR m1 * IZR Q = s * IZR P)%R) by (unfold P, Q; lra).
  assert (E2 : (IZR m2 * IZR Q = 2 * s * k * IZR P)%R) by (unfold P, Q; lra).
  assert (E3 : (IZR m2 * IZR m2 * (IZR P * IZR P)
               = 4 * (IZR m1 * IZR m1) * (IZR P * IZR P)
                 - 4 * (IZR m1 * IZR m1 * IZR m1 * IZR m1) * (IZR Q * IZR Q))%R).
  { assert (HQ : (IZR Q * IZR Q ≠ 0)%R) by (unfold Q; lra).
    apply (Rmult_eq_reg_r (IZR Q * IZR Q)); [|done].
    transitivity ((IZR m2 * IZR Q) * (IZR m2 * IZR Q) * (IZR P * IZR P))%R; [ring|].
    rewrite E2.
    transitivity (4 * (s * IZR P) * (s * IZR P) * ((s * s + k * k) * (IZR P * IZR P) - (s * IZR P) * (s * IZR P)) * (IZR P * IZR P) / (IZR P * IZR P))%R.
    { field. unfold P. lra. }
    rewrite Hsc, <- E1. field. unfold P. lra. }
  assert (E4 : (m2 * m2 * (P * P) = 4 * (m1 * m1) * (P * P) - 4 * (m1 * m1 * m1 * m1) * (Q * Q))%Z).
  { apply eq_IZR. rewrite minus_IZR, !mult_IZR. exact E3. }
  assert (Hdiv : (P * P | (4 * (Q * Q)) * (m1 * m1 * m1 * m1))%Z).
  { exists (4 * (m1 * m1) - m2 * m2)%Z. lia. }
  apply Z.gauss in Hdiv; [|by vm_compute].
  assert (Hm : (-43759 < m1 < 43759)%Z).
  { split; apply lt_IZR; unfold s in *; nra. }
  assert (Hm2 : (0 ≤ m1 * m1 < 43759 * 43759)%Z) by nia.
  assert (Hm4 : (0 ≤ m1 * m1 * m1 * m1 < P * P)%Z) by (unfold P; nia).
  destruct Hdiv as [q Hq].
  assert (q = 0)%Z by (unfold P in *; nia).
  assert (m1 = 0)%Z by nia. subst m1.
  apply sin_127_1_nonzero. fold s. lra.
Qed.

(** The hash of a finite lattice point, as a real. *)
Lemma noise_fin (x y : R) :
  noise (Fin x) (Fin y)
  = Fin (frac_part (sin (x * 127.1 + y * 311.7) * 43758.5453123)).
Proof. reflexivity. Qed.

Lemma frac_part_range (r : R) : (0 <= frac_part r < 1)%R.
Proof. pose proof (base_Int_part r). unfold frac_part. lra. Qed.

Lemma frac_part_0_integral (r : R) : frac_part r = 0%R → r = IZR (Int_part r).
Proof. unfold frac_part. lra. Qed.

Lemma Int_part_eq (r : R) (z : Z) : (IZR z <= r < IZR z + 1)%R → Int_part r = z.
Proof. intros H. symmetry. apply Int_part_spec. lra. Qed.

Lemma smoothNoise_fin (x y : R) :
  let i := IZR (Int_part x) in
  let j := IZR (Int_part y) in
  let h := λ u v : R, frac_part (sin (u * 127.1 + v * 311.7) * 43758.5453123) in
  let ux := ((x - i) * (x - i) * (3 - 2 * (x - i)))%R in
  let uy := ((y - j) * (y - j) * (3 - 2 * (y - j)))%R in
  smoothNoise (Fin x) (Fin y)
  = Fin (h i j + (h (i + 1) j - h i j) * ux + (h i (j + 1) - h i j) * uy
         + (h (i + 1) (j + 1) - h i j) * ux * uy
         + (h (i + 1) j - h i j) * (1 - uy) * 0)%R
  ∧ properBilinear (Fin x) (Fin y)
  = Fin (h i j * (1 - ux) * (1 - uy) + h (i + 1) j * ux * (1 - uy)
         + h i (j + 1) * (1 - ux) * uy + h (i + 1) (j + 1) * ux * uy)%R.
Proof. split; reflexivity. Qed.

(** C4 fails on the code.  [smoothNoise] returns its first expression and
    never the bilinear blend written after it: at (0.5, 0.5) or at
    (1.5, 0.5) the two differ.  (They agree at both points only if the
    hashes of the lattice points (1, 0) and (2, 0) both vanish, that is
    if sin(127.1)·43758.5453123 and sin(254.2)·43758.5453123 are both
    integers, which they are not.) *)
Theorem smoothNoise_not_properBilinear :
  smoothNoise (Fin 0.5) (Fin 0.5) ≠ properBilinear (Fin 0.5) (Fin 0.5)
  ∨ smoothNoise (Fin 1.5) (Fin 0.5) ≠ properBilinear (Fin 1.5) (Fin 0.5).
Proof.
  destruct (smoothNoise_fin 0.5 0.5) as [-> ->].
  destruct (smoothNoise_fin 1.5 0.5) as [-> ->].
  rewrite (Int_part_eq 0.5 0) by lra. rewrite (Int_part_eq 1.5 1) by lra.
  match goal with |- Fin ?a ≠ Fin ?b ∨ Fin ?c ≠ Fin ?d =>
    destruct (Req_dec a b) as [E1|N1]; [|left; congruence];
    destruct (Req_dec c d) as [E2|N2]; [|right; congruence]
  end.
  exfalso.
  replace (0 + 1)%R with 1%R in * by ring.
  replace (1 + 1)%R with 2%R in * by ring.
  replace (0 * 127.1 + 0 * 311.7)%R with 0%R in * by ring.
  rewrite sin_0, Rmult_0_l in E1.
  assert (H00 : frac_part 0 = 0%R).
  { unfold frac_part. rewrite (Int_part_eq 0 0) by lra. lra. }
  rewrite H00 in E1.
  pose proof (frac_part_range (sin (1 * 127.1 + 0 * 311.7) * 43758.5453123)) as Hb.
  pose proof (frac_part_range (sin (0 * 127.1 + 1 * 311.7) * 43758.5453123)) as Hc.
  pose proof (frac_part_range (sin (1 * 127.1 + 1 * 311.7) * 43758.5453123)) as Hd.
  pose proof (frac_part_range (sin (2 * 127.1 + 0 * 311.7) * 43758.5453123)) as Hb2.
  assert (Hb0 : frac_part (sin (1 * 127.1 + 0 * 311.7) * 43758.5453123) = 0%R) by lra.
  rewrite Hb0 in E2.
  assert (Hb20 : frac_part (sin (2 * 127.1 + 0 * 311.7) * 43758.5453123) = 0%R) by lra.
  apply frac_part_0_integral in Hb0, Hb20.
  replace (1 * 127.1 + 0 * 311.7)%R with 127.1%R in Hb0 by ring.
  replace (2 * 127.1 + 0 * 311.7)%R with (2 * 127.1)%R in Hb20 by ring.
  exact (hash_not_integral_twice _ _ Hb0 Hb20).
Qed.

(** ** heightmap.js: the procedural generator *)


Lemma for_Z2_ind {St} (P : Z → St → Prop) (n : Z) (body : Z → Z → St → St) (s : St) :
  (0 ≤ n)%Z →
  P 0%Z s →
  (∀ r c s, (0 ≤ r < n)%Z → (0 ≤ c < n)%Z →
     P (r * n + c)%Z s → P (r * n + c + 1)%Z (body r c s)) →
  P (n * n)%Z (for_Z n (λ r s, for_Z n (λ c s, body r c s) s) s).
Proof.
  intros Hn H0 Hstep.
  apply (for_Z_ind (λ r s, P (r * n)%Z s)); [done|done|].
  intros r s' Hr HP. cbv beta.
  replace ((r + 1) * n)%Z with (r * n + n)%Z by lia.
  apply (for_Z_ind (λ c s, P (r * n + c)%Z s)); [done| |].
  - by rewrite Z.add_0_r.
  - intros c s'' Hc HP'. rewrite Z.add_assoc. by apply Hstep.
Qed.

Lemma scanned_put (k : Z) (F : Z → R) (s : Scan) :
  (0 ≤ k < Z.of_nat (length (sc_heights s)))%Z →
  scanned k F s →
  scanned (k + 1) F (scan_put s k (Fin (F k)))
  ∧ length (sc_heights (scan_put s k (Fin (F k)))) = length (sc_heights s).
Proof.
  intros Hk (Hval & Hinit & Hext). split; [|apply length_asetZ].
  split; [|split].
  - intros i Hi. unfold scan_put. cbn [sc_heights].
    destruct (decide (i = k)) as [->|Hne].
    + by apply agetZ_asetZ_eq.
    + rewrite agetZ_asetZ_ne by done. apply Hval. lia.
  - lia.
  - intros _. unfold scan_put. cbn [sc_minH sc_maxH].
    destruct (decide (k = 0)%Z) as [->|Hk0].
    + destruct Hinit as [-> ->]; [done|]. exists 0%Z, 0%Z. simpl.
      split; [lia|]. split; [lia|]. split; [done|]. split; [done|].
      intros i Hi. assert (i = 0)%Z as -> by lia. lra.
    + destruct Hext as (imin & imax & Himin & Himax & -> & -> & Hall); [lia|].
      unfold ngt. cbn [nlt].
      assert (Hnew : ∀ a b, (0 ≤ a < k + 1)%Z → (0 ≤ b < k + 1)%Z →
        (F a <= F imin)%R → (F a <= F k)%R →
        (F imax <= F b)%R → (F k <= F b)%R →
        ∀ i, (0 ≤ i < k + 1)%Z → (F a <= F i <= F b)%R).
      { intros a b _ _ ? ? ? ? i Hi. destruct (decide (i = k)) as [->|]; [lra|].
        pose proof (Hall i ltac:(lia)). lra. }
      pose proof (Hall imin ltac:(lia)).
      case_bool_decide as Hlt; case_bool_decide as Hgt.
      * lra.
      * exists k, imax. split; [lia|]. split; [lia|]. split; [done|].
        split; [done|]. apply Hnew; (lia || lra).
      * exists imin, k. split; [lia|]. split; [lia|]. split; [done|].
        split; [done|]. apply Hnew; (lia || lra).
      * exists imin, imax. split; [lia|]. split; [lia|]. split; [done|].
        split; [done|]. apply Hnew; (lia || lra).
Qed.

Lemma scanned_init (n : Z) (F : Z → R) : scanned 0 F (scan_init n).
Proof. split; [|split]; [lia|done|lia]. Qed.

Lemma smoothNoise_R (x y : R) : smoothNoise (Fin x) (Fin y) = Fin (smoothR x y).
Proof. reflexivity. Qed.


Lemma fractalNoise_R (x y : R) :
  fractalNoise (Fin x) (Fin y) 6 = Fin (fractalR x y)
  ∧ fractalR x y
    = ((0 + smoothR (x * 1) (y * 1) * 1
        + smoothR (x * (1 * 2.1)) (y * (1 * 2.1)) * (1 * 0.5)
        + smoothR (x * (1 * 2.1 * 2.1)) (y * (1 * 2.1 * 2.1)) * (1 * 0.5 * 0.5)
        + smoothR (x * (1 * 2.1 * 2.1 * 2.1)) (y * (1 * 2.1 * 2.1 * 2.1))
          * (1 * 0.5 * 0.5 * 0.5)
        + smoothR (x * (1 * 2.1 * 2.1 * 2.1 * 2.1)) (y * (1 * 2.1 * 2.1 * 2.1 * 2.1))
          * (1 * 0.5 * 0.5 * 0.5 * 0.5)
        + smoothR (x * (1 * 2.1 * 2.1 * 2.1 * 2.1 * 2.1))
            (y * (1 * 2.1 * 2.1 * 2.1 * 2.1 * 2.1))
          * (1 * 0.5 * 0.5 * 0.5 * 0.5 * 0.5))
       / (0 + 1 + 1 * 0.5 + 1 * 0.5 * 0.5 + 1 * 0.5 * 0.5 * 0.5
          + 1 * 0.5 * 0.5 * 0.5 * 0.5 + 1 * 0.5 * 0.5 * 0.5 * 0.5 * 0.5))%R.
Proof.
  unfold fractalR, fractalNoise, for_Z.
  change (seqZ 0 6) with [0; 1; 2; 3; 4; 5]%Z.
  cbn [foldl octave_step value amplitude frequency maxValue nmul nadd].
  rewrite !smoothNoise_R.
  cbn [nmul nadd ndiv].
  rewrite decide_False by lra. done.
Qed.

Lemma cell_value (size row col : Z) :
  size ≠ 0%Z →
  fractalNoise (zn col / zn size * Fin 4) (zn row / zn size * Fin 4) 6
  = Fin (cellR size row col).
Proof.
  intros Hs.
  assert (E : ∀ k, zn k / zn size * Fin 4 = Fin (IZR k / IZR size * 4)).
  { intros k. unfold zn. cbn [ndiv].
    by rewrite decide_False by (by apply not_0_IZR). }
  unfold cellR. rewrite !E.
  by destruct (fractalNoise_R (IZR col / IZR size * 4) (IZR row / IZR size * 4))
    as [-> _].
Qed.

Lemma raw_heightmap_scanned (size : Z) :
  (1 ≤ size)%Z →
  scanned (size * size) (λ k, cellR size (k / size) (k mod size))
    (raw_heightmap size)
  ∧ length (sc_heights (raw_heightmap size)) = Z.to_nat (size * size).
Proof.
  intros Hs. unfold raw_heightmap.
  apply (for_Z2_ind (λ k s,
    scanned k (λ k, cellR size (k / size) (k mod size)) s
    ∧ length (sc_heights s) = Z.to_nat (size * size))); [lia| |].
  - split; [apply scanned_init|]. apply length_new_array.
  - intros r c s Hr Hc [Hsc Hlen]. rewrite cell_value by lia.
    replace (cellR size r c)
      with ((λ k, cellR size (k / size) (k mod size)) (r * size + c)%Z).
    2:{ cbv beta. rewrite Z.div_add_l, Z.div_small, Z.add_0_r by lia.
        rewrite Z.add_comm, Z.mod_add, Z.mod_small by lia. done. }
    destruct (scanned_put (r * size + c)
      (λ k, cellR size (k / size) (k mod size)) s) as [H1 H2]; [|done|].
    + rewrite Hlen. pose proof (index_bound size r c Hr Hc). lia.
    + split; [done|]. by rewrite H2.
Qed.

Lemma raw_heightmap_empty (size : Z) :
  (size ≤ 0)%Z → raw_heightmap size = scan_init (size * size).
Proof. intros Hs. unfold raw_heightmap. by rewrite for_Z_nil. Qed.

Lemma rescale_spec (minH range : num) (hs : list num) :
  length (rescale minH range hs) = length hs
  ∧ ∀ i, (0 ≤ i < Z.of_nat (length hs))%Z →
      agetZ (rescale minH range hs) i = (agetZ hs i - minH) / range.
Proof.
  unfold rescale.
  match goal with |- context [for_Z ?n ?b ?s] =>
    enough (length (for_Z n b s) = length hs
      ∧ (∀ i, (0 ≤ i < n)%Z → agetZ (for_Z n b s) i = (agetZ hs i - minH) / range)
      ∧ (∀ i, (n ≤ i)%Z → agetZ (for_Z n b s) i = agetZ hs i))
      as (H1 & H2 & _) by done
  end.
  apply (for_Z_ind (λ k a,
    length a = length hs
    ∧ (∀ i, (0 ≤ i < k)%Z → agetZ a i = (agetZ hs i - minH) / range)
    ∧ (∀ i, (k ≤ i)%Z → agetZ a i = agetZ hs i))); [lia| |].
  - split; [done|]. split; [lia|done].
  - intros k a Hk (Hlen & Hlo & Hhi). split; [by rewrite length_asetZ|]. split.
    + intros i Hi. destruct (decide (i = k)) as [->|Hne].
      * rewrite agetZ_asetZ_eq by lia. by rewrite Hhi by lia.
      * rewrite agetZ_asetZ_ne by done. apply Hlo. lia.
    + intros i Hi. rewrite agetZ_asetZ_ne by lia. apply Hhi. lia.
Qed.

(** The rescale of a scan of one cell: the range is 0, and 0/0 is NaN. *)
Lemma rescale_scanned_1 (F : Z → R) (s : Scan) :
  scanned 1 F s →
  length (sc_heights s) = 1%nat →
  rescale (sc_minH s) (sc_maxH s - sc_minH s) (sc_heights s) = [NaN].
Proof.
  intros (Hval & _ & Hext) Hlen.
  destruct Hext as (imin & imax & Himin & Himax & Hmn & Hmx & Hall); [lia|].
  assert (imin = 0)%Z as -> by lia. assert (imax = 0)%Z as -> by lia.
  rewrite Hmn, Hmx. cbn [nsub].
  destruct (rescale_spec (Fin (F 0%Z)) (Fin (F 0%Z - F 0%Z)) (sc_heights s))
    as [Hl Hget].
  rewrite Hlen in Hl, Hget.
  specialize (Hget 0%Z ltac:(lia)). rewrite Hval in Hget by lia.
  cbn [nsub ndiv] in Hget. rewrite decide_True in Hget by lra.
  unfold inf_signed in Hget. rewrite decide_True in Hget by lra.
  unfold agetZ in Hget. rewrite bool_decide_eq_true_2 in Hget by lia.
  destruct (rescale (Fin (F 0%Z)) (Fin (F 0%Z - F 0%Z)) (sc_heights s))
    as [|a [|b l']]; [done| |done].
  change (a = NaN) in Hget. by subst.
Qed.

Lemma smoothR_row0 (x y : R) (i : Z) :
  y = 0%R → (IZR i <= x < IZR i + 1)%R →
  smoothR x y
  = (hashR (IZR i) 0
     + (hashR (IZR i + 1) 0 - hashR (IZR i) 0)
       * ((x - IZR i) * (x - IZR i) * (3 - 2 * (x - IZR i))))%R.
Proof.
  intros -> Hx. unfold smoothR.
  destruct (smoothNoise_fin x 0) as [-> _]. cbn [to_R].
  rewrite (Int_part_eq x i) by done. rewrite (Int_part_eq 0 0) by lra.
  unfold hashR. ring.
Qed.

Lemma hashR_origin : hashR 0 0 = 0%R.
Proof.
  unfold hashR. replace (0 * 127.1 + 0 * 311.7)%R with 0%R by ring.
  rewrite sin_0, Rmult_0_l. unfold frac_part.
  rewrite (Int_part_eq 0 0) by lra. lra.
Qed.

Lemma grid_coord (size k : Z) :
  size ≠ 0%Z → zn k / zn size * Fin 4 = Fin (IZR k / IZR size * 4).
Proof.
  intros Hs. unfold zn. cbn [ndiv].
  by rewrite decide_False by (by apply not_0_IZR).
Qed.

Lemma smoothR_origin : smoothR 0 0 = 0%R.
Proof.
  rewrite (smoothR_row0 0 0 0) by lra. rewrite hashR_origin. ring.
Qed.

Lemma fractalR_origin : fractalR 0 0 = 0%R.
Proof.
  rewrite (proj2 (fractalNoise_R 0 0)).
  rewrite !Rmult_0_l, smoothR_origin. unfold Rdiv. ring.
Qed.

Lemma cellR_1 : cellR 1 0 0 = 0%R.
Proof.
  unfold cellR. rewrite !grid_coord by done.
  replace (0 / 1 * 4)%R with 0%R by (unfold Rdiv; ring).
  exact fractalR_origin.
Qed.

(** The grid of size 1 before the rescale: the single value 0. *)
Lemma raw_heightmap_1 :
  raw_heightmap 1
  = {| sc_heights := [Fin 0]; sc_minH := Fin 0; sc_maxH := Fin 0 |}.
Proof.
  destruct (raw_heightmap_scanned 1 ltac:(lia)) as [(Hval & _ & Hext) Hlen].
  destruct Hext as (imin & imax & Himin & Himax & Hmn & Hmx & _); [lia|].
  assert (imin = 0)%Z as -> by lia. assert (imax = 0)%Z as -> by lia.
  specialize (Hval 0%Z ltac:(lia)).
  change (0 / 1)%Z with 0%Z in *. change (0 mod 1)%Z with 0%Z in *.
  rewrite cellR_1 in Hval, Hmn, Hmx.
  destruct (raw_heightmap 1) as [hs mn mx]. cbn in *. subst mn mx.
  destruct hs as [|h [|h' hs]]; try done.
  pose proof (agetZ_lookup [h] 0 ltac:(simpl; lia)) as Hl.
  rewrite Hval in Hl. cbn in Hl. by injection Hl as ->.
Qed.

(** C5.  The generator at size 1.  The grid holds the single value 0 (the
    hash of the origin, with every other term under a zero weight), the
    least and the greatest value coincide, and the loop "Normalize to
    [0..1]" divides by the range 0: the one height returned is 0/0 = NaN,
    outside [0, 1], while the result reports [minH = 0] and [maxH = 1].
    Rounding takes no part: the value 0 is exact in binary64 and in
    binary32. *)
Theorem generateProceduralHeightmap_1 :
  raw_heightmap 1
  = {| sc_heights := [Fin 0]; sc_minH := Fin 0; sc_maxH := Fin 0 |}
  ∧ generateProceduralHeightmap 1
    = {| hd_heights := [NaN]; hd_size := 1; hd_minH := Fin 0; hd_maxH := Fin 1 |}.
Proof.
  split; [exact raw_heightmap_1|].
  destruct (raw_heightmap_scanned 1 ltac:(lia)) as [Hsc Hlen].
  pose proof (rescale_scanned_1 _ _ Hsc Hlen) as Hout.
  unfold generateProceduralHeightmap. by rewrite Hout.
Qed.

Lemma cellR_200 (col : Z) :
  cellR 200 0 col = fractalR (IZR col / 200 * 4) (0 / 200 * 4).
Proof. unfold cellR. by rewrite !grid_coord. Qed.

Lemma raw_200_cells :
  ¬ (cellR 200 0 1 = cellR 200 0 0 ∧ cellR 200 0 2 = cellR 200 0 0).
Proof.
  rewrite !cellR_200.
  rewrite !(proj2 (fractalNoise_R _ _)).
  intros [E1 E2].
  pose proof (frac_part_range (sin (1 * 127.1 + 0 * 311.7) * 43758.5453123)) as Hb.
  pose proof (frac_part_range (sin (2 * 127.1 + 0 * 311.7) * 43758.5453123)) as Hb2.
  fold (hashR 1 0) in Hb. fold (hashR 2 0) in Hb2.
  pose proof hashR_origin as H0.
  rewrite !(smoothR_row0 _ _ 0) in E1 by lra.
  rewrite !(smoothR_row0 (0 / 200 * 4 * _) _ 0) in E2 by lra.
  rewrite !(smoothR_row0 (2 / 200 * 4 * 1) _ 0) in E2 by lra.
  rewrite !(smoothR_row0 (2 / 200 * 4 * (1 * 2.1)) _ 0) in E2 by lra.
  rewrite !(smoothR_row0 (2 / 200 * 4 * (1 * 2.1 * 2.1)) _ 0) in E2 by lra.
  rewrite !(smoothR_row0 (2 / 200 * 4 * (1 * 2.1 * 2.1 * 2.1)) _ 0) in E2 by lra.
  rewrite !(smoothR_row0 (2 / 200 * 4 * (1 * 2.1 * 2.1 * 2.1 * 2.1)) _ 0) in E2 by lra.
  rewrite !(smoothR_row0 (2 / 200 * 4 * (1 * 2.1 * 2.1 * 2.1 * 2.1 * 2.1)) _ 1) in E2 by lra.
  replace (0 + 1)%R with 1%R in * by ring.
  replace (1 + 1)%R with 2%R in * by ring.
  rewrite H0 in E1, E2.
  assert (Hb0 : hashR 1 0 = 0%R) by lra.
  rewrite Hb0 in E2.
  assert (Hb20 : hashR 2 0 = 0%R) by lra.
  unfold hashR in Hb0, Hb20.
  apply frac_part_0_integral in Hb0, Hb20.
  replace (1 * 127.1 + 0 * 311.7)%R with 127.1%R in Hb0 by ring.
  replace (2 * 127.1 + 0 * 311.7)%R with (2 * 127.1)%R in Hb20 by ring.
  exact (hash_not_integral_twice _ _ Hb0 Hb20).
Qed.

Lemma scanned_not_constant (F : Z → R) (n a b : Z) (s : Scan) :
  scanned n F s → (0 ≤ a < n)%Z → (0 ≤ b < n)%Z → F a ≠ F b →
  nlt (sc_minH s) (sc_maxH s) = true.
Proof.
  intros (_ & _ & Hext) Ha Hb Hne.
  destruct Hext as (imin & imax & _ & _ & -> & -> & Hall); [lia|].
  apply bool_decide_eq_true.
  pose proof (Hall a Ha). pose proof (Hall b Hb).
  destruct (Rlt_dec (F imin) (F imax)); [done|].
  exfalso. apply Hne. lra.
Qed.

(** The raw grid of size 200 is not constant: its cells (0, 0), (0, 1) and
    (0, 2) do not all hold the same value. *)
Lemma raw_heightmap_200_range :
  nlt (sc_minH (raw_heightmap 200)) (sc_maxH (raw_heightmap 200)) = true.
Proof.
  destruct (raw_heightmap_scanned 200 ltac:(lia)) as [Hsc _].
  destruct (Req_dec (cellR 200 0 1) (cellR 200 0 0)) as [E1|N1].
  - destruct (Req_dec (cellR 200 0 2) (cellR 200 0 0)) as [E2|N2].
    + destruct raw_200_cells. by split.
    + apply (scanned_not_constant _ _ 2 0 _ Hsc); [lia|lia|exact N2].
  - apply (scanned_not_constant _ _ 1 0 _ Hsc); [lia|lia|exact N1].
Qed.

(** ** terrain.js: the mesh *)

Lemma length_aset3 (a : list num) (base : Z) (v : Vector3) :
  length (aset3 a base v) = length a.
Proof. unfold aset3. by rewrite !length_asetZ. Qed.

Lemma agetZ_aset3_other (a : list num) (base i : Z) (v : Vector3) :
  (i < base ∨ base + 3 ≤ i)%Z → agetZ (aset3 a base v) i = agetZ a i.
Proof. intros Hi. unfold aset3. by rewrite !agetZ_asetZ_ne by lia. Qed.

Lemma v_fromArray_aset3_eq (a : list num) (k : Z) (v : Vector3) :
  (0 ≤ k)%Z → (k * 3 + 3 ≤ Z.of_nat (length a))%Z →
  v_fromArray (aset3 a (k * 3) v) (k * 3) = v.
Proof.
  intros Hk Hlen. unfold v_fromArray, aset3. destruct v as [x y z]. cbn [vx vy vz].
  f_equal.
  - rewrite !agetZ_asetZ_ne by lia. rewrite Z.add_0_r.
    apply agetZ_asetZ_eq. lia.
  - rewrite agetZ_asetZ_ne by lia. apply agetZ_asetZ_eq.
    rewrite length_asetZ. lia.
  - apply agetZ_asetZ_eq. rewrite !length_asetZ. lia.
Qed.

Lemma v_fromArray_aset3_ne (a : list num) (k i : Z) (v : Vector3) :
  i ≠ k → v_fromArray (aset3 a (k * 3) v) (i * 3) = v_fromArray a (i * 3).
Proof.
  intros Hne. unfold v_fromArray. by rewrite !agetZ_aset3_other by lia.
Qed.

(** The vertex loop leaves at every vertex the position computed for its
    grid cell. *)
Lemma build_vertices_positions (t : TerrainBuilder) :
  (0 ≤ size t)%Z →
  Z.of_nat (length (vb_positions (build_vertices t))) = (size t * size t * 3)%Z
  ∧ Z.of_nat (length (vb_uvs (build_vertices t))) = (size t * size t * 2)%Z
  ∧ Z.of_nat (length (vb_colors (build_vertices t))) = (size t * size t * 3)%Z
  ∧ ∀ row col, (0 ≤ row < size t)%Z → (0 ≤ col < size t)%Z →
      v_fromArray (vb_positions (build_vertices t)) ((row * size t + col) * 3)
      = vertexPosition t row col.
Proof.
  intros HN. unfold build_vertices.
  set (n := size t) in *.
  match goal with |- context [for_Z n ?b ?s] =>
    enough (Z.of_nat (length (vb_positions (for_Z n b s))) = (n * n * 3)%Z
      ∧ Z.of_nat (length (vb_uvs (for_Z n b s))) = (n * n * 2)%Z
      ∧ Z.of_nat (length (vb_colors (for_Z n b s))) = (n * n * 3)%Z
      ∧ ∀ i, (0 ≤ i < n * n)%Z →
          v_fromArray (vb_positions (for_Z n b s)) (i * 3)
          = vertexPosition t (i / n) (i mod n)) as (H1 & H2 & H3 & H4)
  end.
  { split; [done|]. split; [done|]. split; [done|]. intros row col Hr Hc.
    rewrite H4 by (by apply index_bound).
    rewrite Z.div_add_l, Z.div_small, Z.add_0_r by lia.
    rewrite Z.add_comm, Z.mod_add, Z.mod_small by lia. done. }
  apply (for_Z2_ind (λ k b,
    Z.of_nat (length (vb_positions b)) = (n * n * 3)%Z
    ∧ Z.of_nat (length (vb_uvs b)) = (n * n * 2)%Z
    ∧ Z.of_nat (length (vb_colors b)) = (n * n * 3)%Z
    ∧ ∀ i, (0 ≤ i < k)%Z →
        v_fromArray (vb_positions b) (i * 3)
        = vertexPosition t (i / n) (i mod n))); [done| |].
  - cbn [vb_positions vb_uvs vb_colors]. rewrite !length_new_array.
    repeat split; lia.
  - intros r c b Hr Hc (H1 & H2 & H3 & H4).
    unfold vertex_step. cbn [vb_positions vb_uvs vb_colors]. fold n.
    rewrite !length_aset3, !length_asetZ.
    split; [done|]. split; [done|]. split; [done|].
    intros i Hi. pose proof (index_bound n r c Hr Hc).
    destruct (decide (i = r * n + c)%Z) as [->|Hne].
    + rewrite v_fromArray_aset3_eq by lia.
      rewrite Z.div_add_l, Z.div_small, Z.add_0_r by lia.
      rewrite Z.add_comm, Z.mod_add, Z.mod_small by lia. done.
    + rewrite v_fromArray_aset3_ne by done. apply H4. lia.
Qed.

Lemma index_at_asetZ_eq (a : list Z) (i v : Z) :
  (0 ≤ i < Z.of_nat (length a))%Z → index_at (asetZ a i v) i = Some v.
Proof.
  intros Hi. unfold index_at, asetZ. rewrite !bool_decide_eq_true_2 by lia.
  by rewrite list_lookup_insert_eq by lia.
Qed.

Lemma index_at_asetZ_ne (a : list Z) (i j v : Z) :
  i ≠ j → index_at (asetZ a i v) j = index_at a j.
Proof.
  intros Hij. unfold index_at, asetZ.
  case_bool_decide; [|done]. case_bool_decide; [|done].
  by rewrite list_lookup_insert_ne by lia.
Qed.

Lemma u32_small (v : Z) : (0 ≤ v < 2 ^ 32)%Z → u32 v = v.
Proof. intros. unfold u32. by rewrite Z.mod_small. Qed.

Lemma build_indices_spec (size : Z) :
  (1 ≤ size)%Z → (size * size ≤ 2 ^ 32)%Z →
  Z.of_nat (length (build_indices size)) = (6 * ((size - 1) * (size - 1)))%Z
  ∧ ∀ q, (0 ≤ q < (size - 1) * (size - 1))%Z →
      cell_indices size (build_indices size) q.
Proof.
  intros HN Hbig. unfold build_indices. set (n := (size - 1)%Z).
  match goal with |- context [for_Z n ?b ?s] =>
    enough ((for_Z n b s).2 = (6 * (n * n))%Z
      ∧ Z.of_nat (length (for_Z n b s).1) = (6 * (n * n))%Z
      ∧ ∀ q, (0 ≤ q < n * n)%Z → cell_indices size (for_Z n b s).1 q)
      as (_ & H1 & H2) by done
  end.
  apply (for_Z2_ind (λ k st,
    st.2 = (6 * k)%Z
    ∧ Z.of_nat (length st.1) = (6 * (n * n))%Z
    ∧ ∀ q, (0 ≤ q < k)%Z → cell_indices size st.1 q)); [lia| |].
  - cbn [fst snd]. rewrite length_replicate.
    split; [done|]. split; [fold n; nia|]. lia.
  - intros r c [ind idx] Hr Hc (Hidx & Hlen & Hcells).
    cbn [fst snd] in Hidx, Hlen, Hcells. subst idx.
    pose proof (index_bound n r c Hr Hc) as Hq.
    unfold index_step. cbn [fst snd].
    split; [lia|]. split; [by rewrite !length_asetZ|].
    assert (Hlt : (6 * (r * n + c) + 5 < 6 * (n * n))%Z) by lia.
    rewrite !u32_small by (unfold n in *; nia).
    intros q Hqk. destruct (decide (q = r * n + c)%Z) as [->|Hne].
    + unfold cell_indices. fold n.
      rewrite Z.div_add_l, Z.div_small, Z.add_0_r by lia.
      rewrite (Z.add_comm (r * n)), Z.mod_add, Z.mod_small by lia.
      cbv zeta.
      split; [|split; [|split; [|split; [|split]]]].
      * rewrite !index_at_asetZ_ne by lia.
        apply index_at_asetZ_eq. lia.
      * rewrite !index_at_asetZ_ne by lia.
        apply index_at_asetZ_eq. rewrite !length_asetZ. lia.
      * rewrite !index_at_asetZ_ne by lia.
        apply index_at_asetZ_eq. rewrite !length_asetZ. lia.
      * rewrite !index_at_asetZ_ne by lia.
        apply index_at_asetZ_eq. rewrite !length_asetZ. lia.
      * rewrite !index_at_asetZ_ne by lia.
        apply index_at_asetZ_eq. rewrite !length_asetZ. lia.
      * apply index_at_asetZ_eq. rewrite !length_asetZ. lia.
    + specialize (Hcells q ltac:(lia)). unfold cell_indices in *.
      cbv zeta in *. rewrite !index_at_asetZ_ne by lia. exact Hcells.
Qed.

Lemma length_accumulate (normals : list num) (vi : option Z) (n : Vector3) :
  length (accumulate normals vi n) = length normals.
Proof. destruct vi; [|done]. unfold accumulate. by rewrite !length_asetZ. Qed.

Lemma accumulate_at_eq (normals : list num) (vi : Z) (n : Vector3) :
  (0 ≤ vi)%Z → (vi * 3 + 3 ≤ Z.of_nat (length normals))%Z →
  v_fromArray (accumulate normals (Some vi) n) (vi * 3)
  = V3 (vx (v_fromArray normals (vi * 3)) + vx n)
       (vy (v_fromArray normals (vi * 3)) + vy n)
       (vz (v_fromArray normals (vi * 3)) + vz n).
Proof.
  intros Hv Hlen. unfold accumulate, v_fromArray. cbn [vx vy vz].
  rewrite !Z.add_0_r. f_equal.
  - rewrite !agetZ_asetZ_ne by lia. apply agetZ_asetZ_eq. lia.
  - rewrite agetZ_asetZ_ne by lia. rewrite agetZ_asetZ_eq by (rewrite length_asetZ; lia).
    by rewrite agetZ_asetZ_ne by lia.
  - rewrite agetZ_asetZ_eq by (rewrite !length_asetZ; lia).
    by rewrite !agetZ_asetZ_ne by lia.
Qed.

Lemma accumulate_at_ne (normals : list num) (vi v : Z) (n : Vector3) :
  v ≠ vi →
  v_fromArray (accumulate normals (Some vi) n) (v * 3)
  = v_fromArray normals (v * 3).
Proof.
  intros Hne. unfold accumulate, v_fromArray.
  by rewrite !agetZ_asetZ_ne by lia.
Qed.

Lemma upward_add (flat : bool) (a n : Vector3) :
  null_or_upward flat a → upward flat n →
  upward flat (V3 (vx a + vx n) (vy a + vy n) (vz a + vz n)).
Proof.
  intros [->|(x & y & z & -> & Hy & Hf)] (x' & y' & z' & -> & Hy' & Hf');
    cbn [vx vy vz nadd]; eexists _, _, _; (split; [done|]); (split; [lra|]);
    intros Hflat; try specialize (Hf Hflat); specialize (Hf' Hflat); lra.
Qed.

Lemma accumulate_good (flat : bool) (nv vi : Z) (normals : list num) (n : Vector3) :
  accumulators flat nv normals → (0 ≤ vi < nv)%Z → upward flat n →
  accumulators flat nv (accumulate normals (Some vi) n)
  ∧ upward flat (v_fromArray (accumulate normals (Some vi) n) (vi * 3))
  ∧ ∀ v, (0 ≤ v < nv)%Z → upward flat (v_fromArray normals (v * 3)) →
      upward flat (v_fromArray (accumulate normals (Some vi) n) (v * 3)).
Proof.
  intros [Hlen Hacc] Hvi Hn.
  assert (Hat : upward flat (v_fromArray (accumulate normals (Some vi) n) (vi * 3))).
  { rewrite accumulate_at_eq by lia. apply upward_add; [by apply Hacc|done]. }
  split; [split|split; [done|]].
  - by rewrite length_accumulate.
  - intros v Hv. destruct (decide (v = vi)) as [->|Hne].
    + by right.
    + rewrite accumulate_at_ne by done. by apply Hacc.
  - intros v Hv Hup. destruct (decide (v = vi)) as [->|Hne]; [done|].
    by rewrite accumulate_at_ne by done.
Qed.

Lemma normal_step_good (flat : bool) (nv : Z) (pos : list num) (ind : list Z)
    (i a b c : Z) (normals : list num) :
  index_at ind i = Some a → index_at ind (i + 1) = Some b →
  index_at ind (i + 2) = Some c →
  (0 ≤ a < nv)%Z → (0 ≤ b < nv)%Z → (0 ≤ c < nv)%Z →
  upward flat (faceNormal pos (Some a) (Some b) (Some c)) →
  accumulators flat nv normals →
  accumulators flat nv (normal_step pos ind i normals)
  ∧ (∀ v, v = a ∨ v = b ∨ v = c →
       upward flat (v_fromArray (normal_step pos ind i normals) (v * 3)))
  ∧ ∀ v, (0 ≤ v < nv)%Z → upward flat (v_fromArray normals (v * 3)) →
      upward flat (v_fromArray (normal_step pos ind i normals) (v * 3)).
Proof.
  intros Ha Hb Hc Hra Hrb Hrc Hn Hacc.
  unfold normal_step. rewrite Ha, Hb, Hc. cbn [foldl].
  set (n := faceNormal pos (Some a) (Some b) (Some c)) in *.
  destruct (accumulate_good flat nv a normals n Hacc Hra Hn) as (G1 & A1 & M1).
  destruct (accumulate_good flat nv b _ n G1 Hrb Hn) as (G2 & A2 & M2).
  destruct (accumulate_good flat nv c _ n G2 Hrc Hn) as (G3 & A3 & M3).
  split; [done|]. split.
  - intros v [->|[->| ->]].
    + apply M3; [done|]. by apply M2.
    + by apply M3.
    + done.
  - intros v Hv Hup. apply M3; [done|]. apply M2; [done|]. by apply M1.
Qed.

Lemma accumulate_normals_good (flat : bool) (nv nt : Z) (pos : list num)
    (ind : list Z) (normals0 : list num) :
  (0 ≤ nt)%Z → Z.of_nat (length ind) = (3 * nt)%Z →
  (∀ k, (0 ≤ k < nt)%Z → ∃ a b c,
     index_at ind (3 * k) = Some a ∧ index_at ind (3 * k + 1) = Some b
     ∧ index_at ind (3 * k + 2) = Some c
     ∧ (0 ≤ a < nv)%Z ∧ (0 ≤ b < nv)%Z ∧ (0 ≤ c < nv)%Z
     ∧ upward flat (faceNormal pos (Some a) (Some b) (Some c))) →
  accumulators flat nv normals0 →
  accumulators flat nv (accumulate_normals pos ind normals0)
  ∧ ∀ k j v, (0 ≤ k < nt)%Z → (0 ≤ j < 3)%Z →
      index_at ind (3 * k + j) = Some v →
      upward flat (v_fromArray (accumulate_normals pos ind normals0) (v * 3)).
Proof.
  intros Hnt Hlen Htri Hacc0. unfold accumulate_normals.
  rewrite Hlen.
  replace ((3 * nt + 2) / 3)%Z with nt
    by (apply (Z.div_unique _ _ _ 2); lia).
  apply (for_Z_ind (λ k normals,
    accumulators flat nv normals
    ∧ ∀ k' j v, (0 ≤ k' < k)%Z → (0 ≤ j < 3)%Z →
        index_at ind (3 * k' + j) = Some v →
        upward flat (v_fromArray normals (v * 3)))); [done| |].
  - split; [done|]. lia.
  - intros k normals Hk [Hacc Hdone].
    destruct (Htri k Hk) as (a & b & c & Ha & Hb & Hc & Hra & Hrb & Hrc & Hn).
    destruct (normal_step_good flat nv pos ind (3 * k) a b c normals
      Ha Hb Hc Hra Hrb Hrc Hn Hacc) as (G & Hnew & Hmono).
    split; [done|].
    intros k' j v Hk' Hj Hv.
    destruct (decide (k' = k)) as [->|Hne].
    + apply Hnew.
      assert (j = 0 ∨ j = 1 ∨ j = 2)%Z as [->|[->| ->]] by lia.
      * rewrite Z.add_0_r in Hv. left. congruence.
      * right; left. congruence.
      * right; right. congruence.
    + assert (Hold : upward flat (v_fromArray normals (v * 3))).
      { apply (Hdone k' j v); [lia|done|done]. }
      apply Hmono; [|done].
      destruct (Htri k' ltac:(lia)) as (a' & b' & c' & Ha' & Hb' & Hc' & ? & ? & ? & _).
      assert (j = 0 ∨ j = 1 ∨ j = 2)%Z as [->|[->| ->]] by lia.
      * rewrite Z.add_0_r in Hv. congruence.
      * congruence.
      * congruence.
Qed.

(** A triangle whose cross product has a positive y component has an
    upward face normal; on a flat grid the normal has no x or z. *)
Lemma faceNormal_upward (flat : bool) (pos : list num) (a b c : Z)
    (x0 y0 z0 x1 y1 z1 x2 y2 z2 : R) :
  v_fromArray pos (a * 3) = V3 (Fin x0) (Fin y0) (Fin z0) →
  v_fromArray pos (b * 3) = V3 (Fin x1) (Fin y1) (Fin z1) →
  v_fromArray pos (c * 3) = V3 (Fin x2) (Fin y2) (Fin z2) →
  (0 < (z1 - z0) * (x2 - x0) - (x1 - x0) * (z2 - z0))%R →
  (flat = true →
   ((y1 - y0) * (z2 - z0) - (z1 - z0) * (y2 - y0) = 0
    ∧ (x1 - x0) * (y2 - y0) - (y1 - y0) * (x2 - x0) = 0)%R) →
  upward flat (faceNormal pos (Some a) (Some b) (Some c)).
Proof.
  intros Ha Hb Hc HY Hflat. unfold faceNormal, vertex_of.
  rewrite Ha, Hb, Hc. unfold v_subVectors, v_crossVectors.
  cbn [vx vy vz nsub nmul].
  set (X := ((y1 - y0) * (z2 - z0) - (z1 - z0) * (y2 - y0))%R) in *.
  set (Y := ((z1 - z0) * (x2 - x0) - (x1 - x0) * (z2 - z0))%R) in *.
  set (Z := ((x1 - x0) * (y2 - y0) - (y1 - y0) * (x2 - x0))%R) in *.
  assert (HL : (0 < X * X + Y * Y + Z * Z)%R) by nra.
  rewrite v_normalize_fin by done.
  pose proof (sqrt_lt_R0 _ HL) as Hs.
  assert (Hk : (0 < 1 / sqrt (X * X + Y * Y + Z * Z))%R).
  { apply Rdiv_lt_0_compat; lra. }
  eexists _, _, _. split; [done|]. split; [nra|].
  intros Hf. destruct (Hflat Hf) as [-> ->]. lra.
Qed.

Lemma upward_normalize (flat : bool) (a : Vector3) :
  upward flat a →
  ∃ x y z : R, v_normalize a = V3 (Fin x) (Fin y) (Fin z)
    ∧ (x * x + y * y + z * z = 1)%R
    ∧ (0 < y)%R
    ∧ (flat = true → x = 0%R ∧ y = 1%R ∧ z = 0%R).
Proof.
  intros (x & y & z & -> & Hy & Hf).
  assert (HL : (0 < x * x + y * y + z * z)%R) by nra.
  rewrite v_normalize_fin by done.
  eexists _, _, _. split; [done|]. split; [by apply normalized_sumsq|].
  split.
  { apply Rmult_lt_0_compat; [done|]. apply Rdiv_lt_0_compat; [lra|].
    by apply sqrt_lt_R0. }
  intros Hflat. destruct (Hf Hflat) as [-> ->].
  replace (0 * 0 + y * y + 0 * 0)%R with (y * y)%R by ring.
  rewrite sqrt_square by lra. repeat split; try lra. field. lra.
Qed.

Lemma normalize_step_aset3 (i : Z) (normals : list num) :
  normalize_step i normals
  = aset3 normals (i * 3) (v_normalize (v_fromArray normals (i * 3))).
Proof. unfold normalize_step, aset3, v_fromArray. by rewrite Z.add_0_r. Qed.

Lemma normalize_loop (flat : bool) (nv : Z) (normals : list num) :
  (0 ≤ nv)%Z →
  Z.of_nat (length normals) = (nv * 3)%Z →
  (∀ v, (0 ≤ v < nv)%Z → upward flat (v_fromArray normals (v * 3))) →
  Z.of_nat (length (for_Z nv normalize_step normals)) = (nv * 3)%Z
  ∧ ∀ v, (0 ≤ v < nv)%Z →
      ∃ x y z : R,
        v_fromArray (for_Z nv normalize_step normals) (v * 3)
        = V3 (Fin x) (Fin y) (Fin z)
        ∧ (x * x + y * y + z * z = 1)%R
        ∧ (0 < y)%R
        ∧ (flat = true → x = 0%R ∧ y = 1%R ∧ z = 0%R).
Proof.
  intros Hnv Hlen Hup.
  enough (Z.of_nat (length (for_Z nv normalize_step normals)) = (nv * 3)%Z
    ∧ (∀ v, (0 ≤ v < nv)%Z →
        ∃ x y z : R,
          v_fromArray (for_Z nv normalize_step normals) (v * 3)
          = V3 (Fin x) (Fin y) (Fin z)
          ∧ (x * x + y * y + z * z = 1)%R
          ∧ (0 < y)%R
          ∧ (flat = true → x = 0%R ∧ y = 1%R ∧ z = 0%R))
    ∧ (∀ v, (nv ≤ v)%Z →
        v_fromArray (for_Z nv normalize_step normals) (v * 3)
        = v_fromArray normals (v * 3))) as (H1 & H2 & _) by done.
  apply (for_Z_ind (λ k a,
    Z.of_nat (length a) = (nv * 3)%Z
    ∧ (∀ v, (0 ≤ v < k)%Z →
        ∃ x y z : R, v_fromArray a (v * 3) = V3 (Fin x) (Fin y) (Fin z)
          ∧ (x * x + y * y + z * z = 1)%R
          ∧ (0 < y)%R
          ∧ (flat = true → x = 0%R ∧ y = 1%R ∧ z = 0%R))
    ∧ (∀ v, (k ≤ v)%Z → v_fromArray a (v * 3) = v_fromArray normals (v * 3))));
    [done| |].
  - split; [done|]. split; [lia|done].
  - intros k a Hk (Hl & Hlo & Hhi). rewrite normalize_step_aset3.
    split; [by rewrite length_aset3|]. split.
    + intros v Hv. destruct (decide (v = k)) as [->|Hne].
      * rewrite v_fromArray_aset3_eq by lia. rewrite Hhi by lia.
        apply upward_normalize, Hup. lia.
      * rewrite v_fromArray_aset3_ne by done. apply Hlo. lia.
    + intros v Hv. rewrite v_fromArray_aset3_ne by lia. apply Hhi. lia.
Qed.

Lemma zero_fill (n : Z) :
  for_Z n (λ i a, asetZ a i (Fin 0)) (new_array n) = new_array n.
Proof.
  destruct (decide (0 ≤ n)%Z); [|by rewrite for_Z_nil by lia].
  apply (for_Z_ind (λ _ a, a = new_array n)); [done|done|].
  intros i a Hi ->. unfold asetZ, new_array.
  rewrite bool_decide_eq_true_2 by lia. apply insert_replicate.
Qed.

Lemma accumulators_null (flat : bool) (nv : Z) :
  (0 ≤ nv)%Z → accumulators flat nv (new_array (nv * 3)).
Proof.
  intros Hnv. split; [rewrite length_new_array; lia|].
  intros v Hv. left. unfold v_fromArray, agetZ, new_array.
  rewrite !bool_decide_eq_true_2 by lia.
  by rewrite !lookup_replicate_2 by lia.
Qed.

Section Mesh.
Variables (o : TerrainOptions) (W : R) (flat : bool).
Let t := TerrainBuilder_init o.
Let N := opt_size o.
Let cs := (W / IZR (N - 1))%R.

Hypothesis HN : (2 ≤ N)%Z.
Hypothesis Hbig : (N * N ≤ 2 ^ 32)%Z.
Hypothesis Hlen : Z.of_nat (length (opt_heights o)) = (N * N)%Z.
Hypothesis Hfin : Forall is_fin (opt_heights o).
Hypothesis HW : default (Fin 200) (opt_worldSize o) = Fin W.
Hypothesis HWpos : (0 < W)%R.
Hypothesis Hhs : is_fin (default (Fin 14) (opt_heightScale o)).
Hypothesis Hho : is_fin (default (Fin 0) (opt_heightOffset o)).
Hypothesis Hflat : flat = true →
  ∀ i j, (0 ≤ i < N * N)%Z → (0 ≤ j < N * N)%Z →
    agetZ (opt_heights o) i = agetZ (opt_heights o) j.

Local Lemma cs_pos : (0 < cs)%R.
Proof.
  unfold cs. apply Rdiv_lt_0_compat; [done|]. apply IZR_lt. lia.
Qed.

Local Lemma vertexPosition_fin (row col : Z) :
  (0 ≤ row < N)%Z → (0 ≤ col < N)%Z →
  vertexPosition t row col
  = V3 (Fin (IZR col * cs - W / 2))
       (Fin (to_R (getHeight t (zn row) (zn col))))
       (Fin (IZR row * cs - W / 2)).
Proof.
  intros Hr Hc.
  destruct (getHeight_fin t row col) as [y Hy]; try done; [unfold t; simpl; lia|].
  unfold vertexPosition. rewrite Hy. cbn [to_R].
  unfold t at 1 2 3 4. cbn [cellSize worldSize TerrainBuilder_init].
  rewrite HW. unfold zn. cbn [ndiv nmul nsub].
  rewrite (decide_False (P := (IZR (opt_size o - 1) = 0)%R))
    by (apply not_0_IZR; fold N; lia).
  rewrite (decide_False (P := (2 = 0)%R)) by lra. done.
Qed.

Local Lemma flat_heights (row col row' col' : Z) :
  flat = true →
  (0 ≤ row < N)%Z → (0 ≤ col < N)%Z → (0 ≤ row' < N)%Z → (0 ≤ col' < N)%Z →
  to_R (getHeight t (zn row) (zn col)) = to_R (getHeight t (zn row') (zn col')).
Proof.
  intros Hf Hr Hc Hr' Hc'. rewrite !getHeight_zn.
  change (size t) with N. change (heights t) with (opt_heights o).
  rewrite !clampZ_id by lia.
  rewrite (Hflat Hf (row' * N + col')%Z (row * N + col)%Z);
    [done| by apply index_bound | by apply index_bound].
Qed.

Local Lemma position_at (row col : Z) :
  (0 ≤ row < N)%Z → (0 ≤ col < N)%Z →
  v_fromArray (vb_positions (build_vertices t)) ((row * N + col) * 3)
  = vertexPosition t row col.
Proof.
  intros Hr Hc.
  destruct (build_vertices_positions t) as (_ & _ & _ & H);
    [change (size t) with N; lia|].
  by apply H.
Qed.

(** Both triangles of every cell have an upward face normal. *)
Local Lemma triangles_upward (k : Z) :
  (0 ≤ k < 2 * ((N - 1) * (N - 1)))%Z →
  ∃ a b c,
    index_at (build_indices N) (3 * k) = Some a
    ∧ index_at (build_indices N) (3 * k + 1) = Some b
    ∧ index_at (build_indices N) (3 * k + 2) = Some c
    ∧ (0 ≤ a < N * N)%Z ∧ (0 ≤ b < N * N)%Z ∧ (0 ≤ c < N * N)%Z
    ∧ upward flat
        (faceNormal (vb_positions (build_vertices t)) (Some a) (Some b) (Some c)).
Proof.
  intros Hk.
  destruct (build_indices_spec N ltac:(lia) Hbig) as [_ Hcells].
  set (q := (k / 2)%Z). set (n := (N - 1)%Z) in *.
  assert (Hq : (0 ≤ q < n * n)%Z).
  { unfold q. split; [apply Z.div_pos; lia|].
    apply Z.div_lt_upper_bound; lia. }
  specialize (Hcells q Hq). unfold cell_indices in Hcells. fold n in Hcells.
  cbv zeta in Hcells.
  set (r := (q / n)%Z) in *. set (c := (q mod n)%Z) in *.
  assert (Hr : (0 ≤ r < n)%Z).
  { unfold r. split; [apply Z.div_pos; lia|]. apply Z.div_lt_upper_bound; lia. }
  assert (Hc : (0 ≤ c < n)%Z) by (unfold c; apply Z.mod_pos_bound; lia).
  destruct Hcells as (I0 & I1 & I2 & I3 & I4 & I5).
  pose proof cs_pos as Hcs.
  assert (Hin : ∀ r' c', (0 ≤ r' < N)%Z → (0 ≤ c' < N)%Z →
    (0 ≤ r' * N + c' < N * N)%Z) by (intros; by apply index_bound).
  pose proof (Z.div_mod k 2 ltac:(lia)) as Hdm. fold q in Hdm.
  pose proof (Z.mod_pos_bound k 2 ltac:(lia)) as Hmb.
  destruct (decide (k mod 2 = 0)%Z) as [He|He].
  - assert (3 * k = 6 * q)%Z as -> by lia.
    exists (r * N + c)%Z, ((r + 1) * N + c)%Z, (r * N + c + 1)%Z.
    split; [done|]. split; [done|]. split; [done|].
    split; [apply Hin; lia|]. split; [apply Hin; lia|].
    split; [pose proof (Hin r (c + 1)%Z); lia|].
    eapply faceNormal_upward.
    + rewrite position_at by lia. apply vertexPosition_fin; lia.
    + rewrite position_at by lia. apply vertexPosition_fin; lia.
    + rewrite <- Z.add_assoc. rewrite position_at by lia.
      apply vertexPosition_fin; lia.
    + rewrite !plus_IZR. nra.
    + intros Hf.
      rewrite (flat_heights (r + 1) c r c) by (done || lia).
      rewrite (flat_heights r (c + 1) r c) by (done || lia).
      split; ring.
  - assert (3 * k = 6 * q + 3)%Z as -> by lia.
    exists (r * N + c + 1)%Z, ((r + 1) * N + c)%Z, ((r + 1) * N + c + 1)%Z.
    replace (6 * q + 3 + 1)%Z with (6 * q + 4)%Z by lia.
    replace (6 * q + 3 + 2)%Z with (6 * q + 5)%Z by lia.
    split; [done|]. split; [done|]. split; [done|].
    split; [pose proof (Hin r (c + 1)%Z); lia|]. split; [apply Hin; lia|].
    split; [pose proof (Hin (r + 1)%Z (c + 1)%Z); lia|].
    eapply faceNormal_upward.
    + rewrite <- Z.add_assoc. rewrite position_at by lia.
      apply vertexPosition_fin; lia.
    + rewrite position_at by lia. apply vertexPosition_fin; lia.
    + rewrite <- Z.add_assoc. rewrite position_at by lia.
      apply vertexPosition_fin; lia.
    + rewrite !plus_IZR. nra.
    + intros Hf.
      rewrite (flat_heights (r + 1) c r (c + 1)) by (done || lia).
      rewrite (flat_heights (r + 1) (c + 1) r (c + 1)) by (done || lia).
      split; ring.
Qed.
(** Every vertex is a corner of some triangle. *)
Local Lemma vertex_touched (v : Z) :
  (0 ≤ v < N * N)%Z →
  ∃ k j, (0 ≤ k < 2 * ((N - 1) * (N - 1)))%Z ∧ (0 ≤ j < 3)%Z
    ∧ index_at (build_indices N) (3 * k + j) = Some v.
Proof.
  intros Hv.
  destruct (build_indices_spec N ltac:(lia) Hbig) as [_ Hcells].
  set (n := (N - 1)%Z) in *.
  pose proof (Z.div_mod v N ltac:(lia)) as Hdm.
  pose proof (Z.mod_pos_bound v N ltac:(lia)) as Hmb.
  assert (HR : (0 ≤ v / N < N)%Z).
  { split; [apply Z.div_pos; lia|]. apply Z.div_lt_upper_bound; lia. }
  set (R := (v / N)%Z) in *. set (C := (v mod N)%Z) in *.
  set (r := Z.min R (n - 1)). set (c := Z.min C (n - 1)).
  assert (Hr : (0 ≤ r < n)%Z) by (unfold r, n; lia).
  assert (Hc : (0 ≤ c < n)%Z) by (unfold c, n; lia).
  pose proof (index_bound n r c Hr Hc) as Hq.
  specialize (Hcells (r * n + c)%Z Hq). unfold cell_indices in Hcells.
  fold n in Hcells. cbv zeta in Hcells.
  rewrite Z.div_add_l, Z.div_small, Z.add_0_r in Hcells by lia.
  rewrite (Z.add_comm (r * n)), Z.mod_add, Z.mod_small in Hcells by lia.
  destruct Hcells as (I0 & I1 & I2 & I3 & I4 & I5).
  assert (Hv' : v = (R * N + C)%Z) by lia.
  destruct (decide (R ≤ n - 1)%Z) as [HRr|HRr],
           (decide (C ≤ n - 1)%Z) as [HCc|HCc].
  - exists (2 * (c + r * n))%Z, 0%Z. split; [lia|]. split; [lia|].
    replace (3 * (2 * (c + r * n)) + 0)%Z with (6 * (c + r * n))%Z by lia.
    rewrite I0. f_equal.
    assert (r = R) as -> by (unfold r; lia). unfold c. lia.
  - exists (2 * (c + r * n))%Z, 2%Z. split; [lia|]. split; [lia|].
    replace (3 * (2 * (c + r * n)) + 2)%Z with (6 * (c + r * n) + 2)%Z by lia.
    rewrite I2. f_equal.
    assert (r = R) as -> by (unfold r; lia). unfold c, n in *. lia.
  - exists (2 * (c + r * n))%Z, 1%Z. split; [lia|]. split; [lia|].
    replace (3 * (2 * (c + r * n)) + 1)%Z with (6 * (c + r * n) + 1)%Z by lia.
    rewrite I1. f_equal.
    replace (r + 1)%Z with R by (unfold r, n in *; lia). unfold c. lia.
  - exists (2 * (c + r * n) + 1)%Z, 2%Z. split; [lia|]. split; [lia|].
    replace (3 * (2 * (c + r * n) + 1) + 2)%Z with (6 * (c + r * n) + 5)%Z by lia.
    rewrite I5. f_equal.
    replace (r + 1)%Z with R by (unfold r, n in *; lia). unfold c, n in *. lia.
Qed.

Lemma buildMesh_normals_gen :
  Z.of_nat (length (positions (buildMesh t))) = (N * N * 3)%Z
  ∧ Z.of_nat (length (normals (buildMesh t))) = (N * N * 3)%Z
  ∧ Z.of_nat (length (indices (buildMesh t))) = (6 * ((N - 1) * (N - 1)))%Z
  ∧ ∀ v, (0 ≤ v < N * N)%Z →
      ∃ x y z : R,
        normal_at (buildMesh t) v = V3 (Fin x) (Fin y) (Fin z)
        ∧ (x * x + y * y + z * z = 1)%R
        ∧ (0 < y)%R
        ∧ (flat = true → x = 0%R ∧ y = 1%R ∧ z = 0%R).
Proof.
  unfold normal_at, buildMesh. cbn [positions normals indices].
  change (size t) with N. rewrite zero_fill.
  destruct (build_vertices_positions t) as (Hp & _ & _ & _);
    [change (size t) with N; lia|]. change (size t) with N in Hp.
  destruct (build_indices_spec N ltac:(lia) Hbig) as [Hil _].
  destruct (accumulate_normals_good flat (N * N) (2 * ((N - 1) * (N - 1)))
    (vb_positions (build_vertices t)) (build_indices N)
    (new_array (N * N * 3))) as [[Hal Hacc] Htouched].
  { nia. }
  { rewrite Hil. lia. }
  { apply triangles_upward. }
  { apply accumulators_null. nia. }
  destruct (normalize_loop flat (N * N)
    (accumulate_normals (vb_positions (build_vertices t)) (build_indices N)
       (new_array (N * N * 3)))) as [Hnl Hunit].
  { nia. }
  { done. }
  { intros v Hv. destruct (vertex_touched v Hv) as (k & j & Hk & Hj & Hi).
    by apply (Htouched k j v). }
  split; [done|]. split; [done|]. split; [done|]. exact Hunit.
Qed.
End Mesh.

(** C6.  For a terrain built from a finite N×N grid, N ≥ 2 (and N² within
    the range of the 32-bit indices), over a world of positive size, the
    mesh has N² vertices (3 coordinates and 3 normal components each) and
    6·(N-1)² indices; the normal of every vertex is a finite vector of
    length 1; and when all the samples are equal it is (0, 1, 0).  (Exact
    real arithmetic.) *)
Theorem buildMesh_counts_and_normals (o : TerrainOptions) (W : R) :
  (2 ≤ opt_size o)%Z →
  (opt_size o * opt_size o ≤ 2 ^ 32)%Z →
  Z.of_nat (length (opt_heights o)) = (opt_size o * opt_size o)%Z →
  Forall is_fin (opt_heights o) →
  default (Fin 200) (opt_worldSize o) = Fin W → (0 < W)%R →
  is_fin (default (Fin 14) (opt_heightScale o)) →
  is_fin (default (Fin 0) (opt_heightOffset o)) →
  Z.of_nat (length (positions (buildMesh (TerrainBuilder_init o))))
  = (opt_size o * opt_size o * 3)%Z
  ∧ Z.of_nat (length (normals (buildMesh (TerrainBuilder_init o))))
    = (opt_size o * opt_size o * 3)%Z
  ∧ Z.of_nat (length (indices (buildMesh (TerrainBuilder_init o))))
    = (6 * ((opt_size o - 1) * (opt_size o - 1)))%Z
  ∧ (∀ v, (0 ≤ v < opt_size o * opt_size o)%Z →
       ∃ x y z : R,
         normal_at (buildMesh (TerrainBuilder_init o)) v
         = V3 (Fin x) (Fin y) (Fin z)
         ∧ (x * x + y * y + z * z = 1)%R
         ∧ v_length (normal_at (buildMesh (TerrainBuilder_init o)) v) = Fin 1)
  ∧ ((∀ i j, (0 ≤ i < opt_size o * opt_size o)%Z →
             (0 ≤ j < opt_size o * opt_size o)%Z →
             agetZ (opt_heights o) i = agetZ (opt_heights o) j) →
     ∀ v, (0 ≤ v < opt_size o * opt_size o)%Z →
       normal_at (buildMesh (TerrainBuilder_init o)) v
       = V3 (Fin 0) (Fin 1) (Fin 0)).
Proof.
  intros HN Hbig Hlen Hfin HW HWpos Hhs Hho.
  destruct (buildMesh_normals_gen o W false HN Hbig Hlen Hfin HW HWpos Hhs Hho)
    as (Hp & Hn & Hi & Hunit); [done|].
  split; [done|]. split; [done|]. split; [done|]. split.
  - intros v Hv. destruct (Hunit v Hv) as (x & y & z & Hv3 & Hsq & _).
    exists x, y, z. split; [done|]. split; [done|].
    rewrite Hv3, v_length_fin, Hsq. by rewrite sqrt_1.
  - intros Hflat v Hv.
    destruct (buildMesh_normals_gen o W true HN Hbig Hlen Hfin HW HWpos Hhs Hho)
      as (_ & _ & _ & Hup); [by intros _|].
    destruct (Hup v Hv) as (x & y & z & Hv3 & _ & _ & Hf).
    destruct (Hf eq_refl) as (-> & -> & ->). done.
Qed.

(** The flat 2×2 grid with the default world size. *)
Lemma buildMesh_counts_and_normals_witness :
  Z.of_nat (length (indices (buildMesh (TerrainBuilder_init
    {| opt_heights := [Fin 0.5; Fin 0.5; Fin 0.5; Fin 0.5]; opt_size := 2;
       opt_worldSize := None; opt_heightScale := None;
       opt_heightOffset := None |})))) = 6%Z.
Proof.
  refine (proj1 (proj2 (proj2 (buildMesh_counts_and_normals
    {| opt_heights := [Fin 0.5; Fin 0.5; Fin 0.5; Fin 0.5]; opt_size := 2;
       opt_worldSize := None; opt_heightScale := None;
       opt_heightOffset := None |} 200 _ _ _ _ _ _ _ _)))).
  - simpl. lia.
  - simpl. lia.
  - reflexivity.
  - simpl. repeat constructor.
  - reflexivity.
  - lra.
  - exact I.
  - exact I.
Defined.

(** ** terrain.js: more on the height queries *)

Lemma agetZ_within (lo hi : R) (hs : list num) (i : Z) :
  samples_within lo hi hs → (0 ≤ i < Z.of_nat (length hs))%Z →
  ∃ r : R, agetZ hs i = Fin r ∧ (lo <= r <= hi)%R.
Proof.
  intros Hw Hi. pose proof (agetZ_lookup hs i Hi) as Hl.
  unfold samples_within in Hw. rewrite Forall_forall in Hw.
  by apply list_elem_of_lookup_2, Hw in Hl.
Qed.

Lemma getHeight_within (t : TerrainBuilder) (lo hi s off : R) (row col : Z) :
  (1 ≤ size t)%Z →
  Z.of_nat (length (heights t)) = (size t * size t)%Z →
  samples_within lo hi (heights t) →
  heightScale t = Fin s → heightOffset t = Fin off → (0 <= s)%R →
  ∃ h : R, getHeight t (zn row) (zn col) = Fin h
    ∧ (lo * s + off <= h <= hi * s + off)%R.
Proof.
  intros HN Hlen Hw Hs Hoff Hs0. rewrite getHeight_zn.
  destruct (agetZ_within lo hi (heights t)
    (clampZ (size t) row * size t + clampZ (size t) col) Hw) as (r & -> & Hr).
  { rewrite Hlen. apply index_bound; by apply clampZ_range. }
  rewrite Hs, Hoff. eexists. split; [done|]. nra.
Qed.

(** A convex combination of four values within [lo, hi] is within [lo, hi]. *)
Lemma bilinear_within (lo hi h00 h10 h01 h11 fx fz : R) :
  (lo <= h00 <= hi)%R → (lo <= h10 <= hi)%R →
  (lo <= h01 <= hi)%R → (lo <= h11 <= hi)%R →
  (0 <= fx <= 1)%R → (0 <= fz <= 1)%R →
  (lo <= h00 * (1 - fx) * (1 - fz) + h10 * fx * (1 - fz)
         + h01 * (1 - fx) * fz + h11 * fx * fz <= hi)%R.
Proof.
  intros H00 H10 H01 H11 Hfx Hfz.
  assert (W00 : (0 <= (1 - fx) * (1 - fz))%R) by (apply Rmult_le_pos; lra).
  assert (W10 : (0 <= fx * (1 - fz))%R) by (apply Rmult_le_pos; lra).
  assert (W01 : (0 <= (1 - fx) * fz)%R) by (apply Rmult_le_pos; lra).
  assert (W11 : (0 <= fx * fz)%R) by (apply Rmult_le_pos; lra).
  set (w00 := ((1 - fx) * (1 - fz))%R) in *. set (w10 := (fx * (1 - fz))%R) in *.
  set (w01 := ((1 - fx) * fz)%R) in *. set (w11 := (fx * fz)%R) in *.
  assert (Hsum : (w00 + w10 + w01 + w11 = 1)%R) by (unfold w00, w10, w01, w11; ring).
  replace (h00 * (1 - fx) * (1 - fz) + h10 * fx * (1 - fz)
           + h01 * (1 - fx) * fz + h11 * fx * fz)%R
    with (h00 * w00 + h10 * w10 + h01 * w01 + h11 * w11)%R
    by (unfold w00, w10, w01, w11; ring).
  split.
  - replace lo with (lo * w00 + lo * w10 + lo * w01 + lo * w11)%R
      by (rewrite <- !Rmult_plus_distr_l, Hsum; ring).
    repeat apply Rplus_le_compat; apply Rmult_le_compat_r; lra.
  - replace hi with (hi * w00 + hi * w10 + hi * w01 + hi * w11)%R
      by (rewrite <- !Rmult_plus_distr_l, Hsum; ring).
    repeat apply Rplus_le_compat; apply Rmult_le_compat_r; lra.
Qed.

(** The interpolated height never leaves the range of the grid: with all
    samples within [lo, hi], [getHeightAtWorld] at any finite world point,
    on the terrain or beyond its edge, lies within
    [lo·heightScale + heightOffset, hi·heightScale + heightOffset]. *)
Theorem getHeightAtWorld_within (o : TerrainOptions) (W lo hi s off x z : R) :
  (2 ≤ opt_size o)%Z →
  Z.of_nat (length (opt_heights o)) = (opt_size o * opt_size o)%Z →
  samples_within lo hi (opt_heights o) →
  default (Fin 200) (opt_worldSize o) = Fin W → (0 < W)%R →
  default (Fin 14) (opt_heightScale o) = Fin s → (0 <= s)%R →
  default (Fin 0) (opt_heightOffset o) = Fin off →
  ∃ h : R,
    getHeightAtWorld (TerrainBuilder_init o) (Fin x) (Fin z) = Fin h
    ∧ (lo * s + off <= h <= hi * s + off)%R.
Proof.
  intros HN Hlen Hw HW HWpos Hs Hs0 Hoff.
  set (t := TerrainBuilder_init o).
  assert (Hd : (IZR (opt_size o - 1) ≠ 0)%R) by (apply not_0_IZR; lia).
  assert (Hd' : (0 < IZR (opt_size o - 1))%R) by (apply IZR_lt; lia).
  assert (Hcs : cellSize t = Fin (W / IZR (opt_size o - 1))).
  { unfold t. simpl. rewrite HW. unfold zn. simpl. by rewrite decide_False. }
  assert (Hws : worldSize t = Fin W) by (unfold t; simpl; done).
  assert (Hcs0 : (W / IZR (opt_size o - 1) ≠ 0)%R).
  { apply Rgt_not_eq. by apply Rdiv_lt_0_compat. }
  unfold getHeightAtWorld. rewrite Hcs, Hws. cbn [ndiv nadd].
  rewrite (decide_False (P := (2 = 0)%R)) by lra. cbn [nadd ndiv].
  rewrite !(decide_False (P := (W / IZR (opt_size o - 1) = 0)%R)) by done.
  set (gx := ((x + W / 2) / (W / IZR (opt_size o - 1)))%R).
  set (gz := ((z + W / 2) / (W / IZR (opt_size o - 1)))%R).
  cbn [Math_floor].
  assert (Hsucc : ∀ k, zn k + Fin 1 = zn (k + 1)) by (intros; apply (zn_add _ 1)).
  rewrite !Hsucc.
  assert (Hg : ∀ r c, ∃ h : R, getHeight t (zn r) (zn c) = Fin h
    ∧ (lo * s + off <= h <= hi * s + off)%R).
  { intros r c. apply getHeight_within; try done. unfold t. simpl. lia. }
  destruct (Hg (Int_part gz) (Int_part gx)) as (h00 & -> & H00).
  destruct (Hg (Int_part gz) (Int_part gx + 1)%Z) as (h10 & -> & H10).
  destruct (Hg (Int_part gz + 1)%Z (Int_part gx)) as (h01 & -> & H01).
  destruct (Hg (Int_part gz + 1)%Z (Int_part gx + 1)%Z) as (h11 & -> & H11).
  unfold zn. cbn [nsub nmul nadd]. eexists. split; [done|].
  pose proof (base_Int_part gx). pose proof (base_Int_part gz).
  apply bilinear_within; try done; lra.
Qed.

(** A 2×2 grid with samples in [0, 1], probed outside the terrain. *)
Lemma getHeightAtWorld_within_witness :
  ∃ h : R,
    getHeightAtWorld
      (TerrainBuilder_init
         {| opt_heights := [Fin 0; Fin 1; Fin 0.5; Fin 0.25]; opt_size := 2;
            opt_worldSize := None; opt_heightScale := None;
            opt_heightOffset := None |}) (Fin 1000) (Fin (-3)) = Fin h
    ∧ (0 * 14 + 0 <= h <= 1 * 14 + 0)%R.
Proof.
  refine (getHeightAtWorld_within _ 200 0 1 14 0 1000 (-3) _ _ _ _ _ _ _ _).
  - simpl. lia.
  - reflexivity.
  - repeat constructor; eexists; (split; [done|]); lra.
  - reflexivity.
  - lra.
  - reflexivity.
  - lra.
  - reflexivity.
Defined.

(** ** terrain.js: more on the mesh *)

Lemma build_vertices_attributes (t : TerrainBuilder) :
  (0 ≤ size t)%Z →
  ∀ row col, (0 ≤ row < size t)%Z → (0 ≤ col < size t)%Z →
    agetZ (vb_uvs (build_vertices t)) ((row * size t + col) * 2)
    = zn col / zn (size t - 1)
    ∧ agetZ (vb_uvs (build_vertices t)) ((row * size t + col) * 2 + 1)
      = zn row / zn (size t - 1)
    ∧ v_fromArray (vb_colors (build_vertices t)) ((row * size t + col) * 3)
      = vertexColor (agetZ (heights t) (row * size t + col)).
Proof.
  intros HN. unfold build_vertices.
  set (n := size t) in *.
  match goal with |- context [for_Z n ?b ?s] =>
    enough (Z.of_nat (length (vb_uvs (for_Z n b s))) = (n * n * 2)%Z
      ∧ Z.of_nat (length (vb_colors (for_Z n b s))) = (n * n * 3)%Z
      ∧ ∀ i, (0 ≤ i < n * n)%Z →
          agetZ (vb_uvs (for_Z n b s)) (i * 2) = zn (i mod n) / zn (n - 1)
          ∧ agetZ (vb_uvs (for_Z n b s)) (i * 2 + 1) = zn (i / n) / zn (n - 1)
          ∧ v_fromArray (vb_colors (for_Z n b s)) (i * 3)
            = vertexColor (agetZ (heights t) i)) as (_ & _ & H)
  end.
  { intros row col Hr Hc.
    destruct (H (row * n + col)%Z (index_bound n row col Hr Hc)) as (H1 & H2 & H3).
    rewrite Z.div_add_l, Z.div_small, Z.add_0_r in H2 by lia.
    rewrite (Z.add_comm (row * n)), Z.mod_add, Z.mod_small in H1 by lia.
    rewrite (Z.add_comm col) in H1. done. }
  apply (for_Z2_ind (λ k b,
    Z.of_nat (length (vb_uvs b)) = (n * n * 2)%Z
    ∧ Z.of_nat (length (vb_colors b)) = (n * n * 3)%Z
    ∧ ∀ i, (0 ≤ i < k)%Z →
        agetZ (vb_uvs b) (i * 2) = zn (i mod n) / zn (n - 1)
        ∧ agetZ (vb_uvs b) (i * 2 + 1) = zn (i / n) / zn (n - 1)
        ∧ v_fromArray (vb_colors b) (i * 3)
          = vertexColor (agetZ (heights t) i))); [done| |].
  - cbn [vb_uvs vb_colors]. rewrite !length_new_array.
    split; [lia|]. split; [lia|]. lia.
  - intros r c b Hr Hc (H2 & H3 & H4).
    unfold vertex_step. cbn [vb_uvs vb_colors]. fold n.
    rewrite !length_aset3, !length_asetZ.
    split; [done|]. split; [done|].
    intros i Hi. pose proof (index_bound n r c Hr Hc).
    destruct (decide (i = r * n + c)%Z) as [->|Hne].
    + rewrite v_fromArray_aset3_eq by lia.
      rewrite Z.div_add_l, Z.div_small, Z.add_0_r by lia.
      rewrite (Z.add_comm (r * n)), Z.mod_add, Z.mod_small by lia.
      rewrite Z.add_0_r.
      split; [|split; [|by rewrite Z.add_comm]].
      * rewrite agetZ_asetZ_ne by lia. apply agetZ_asetZ_eq. lia.
      * rewrite (Z.add_comm c). apply agetZ_asetZ_eq. rewrite length_asetZ. lia.
    + rewrite v_fromArray_aset3_ne by done.
      rewrite !agetZ_asetZ_ne by lia. apply H4. lia.
Qed.



(** The texture coordinates of vertex (row, col) are (col/(N−1),
    row/(N−1)), both within [0, 1]. *)
Theorem buildMesh_uvs (t : TerrainBuilder) (row col : Z) :
  (2 ≤ size t)%Z → (0 ≤ row < size t)%Z → (0 ≤ col < size t)%Z →
  ∃ u v : R,
    agetZ (uvs (buildMesh t)) ((row * size t + col) * 2) = Fin u
    ∧ agetZ (uvs (buildMesh t)) ((row * size t + col) * 2 + 1) = Fin v
    ∧ u = (IZR col / IZR (size t - 1))%R ∧ v = (IZR row / IZR (size t - 1))%R
    ∧ (0 <= u <= 1)%R ∧ (0 <= v <= 1)%R.
Proof.
  intros HN Hr Hc.
  destruct (build_vertices_attributes t ltac:(lia) row col Hr Hc) as (Hu & Hv & _).
  unfold buildMesh. cbn [uvs]. rewrite Hu, Hv. unfold zn. cbn [ndiv].
  assert (Hd : (0 < IZR (size t - 1))%R) by (apply IZR_lt; lia).
  rewrite !decide_False by lra.
  eexists _, _. split; [done|]. split; [done|]. split; [done|]. split; [done|].
  assert (Hrb : (0 <= IZR row <= IZR (size t - 1))%R) by (split; apply IZR_le; lia).
  assert (Hcb : (0 <= IZR col <= IZR (size t - 1))%R) by (split; apply IZR_le; lia).
  assert (Hone : (IZR (size t - 1) / IZR (size t - 1) = 1)%R) by (field; lra).
  assert (Hinv : (0 < / IZR (size t - 1))%R) by (by apply Rinv_0_lt_compat).
  unfold Rdiv in *. split; split; nra.
Qed.

Lemma buildMesh_uvs_witness :
  ∃ u v : R,
    agetZ (uvs (buildMesh (TerrainBuilder_init
      {| opt_heights := [Fin 0; Fin 1; Fin 0.5; Fin 0.25]; opt_size := 2;
         opt_worldSize := None; opt_heightScale := None;
         opt_heightOffset := None |}))) ((1 * 2 + 0) * 2) = Fin u
    ∧ agetZ (uvs (buildMesh (TerrainBuilder_init
        {| opt_heights := [Fin 0; Fin 1; Fin 0.5; Fin 0.25]; opt_size := 2;
           opt_worldSize := None; opt_heightScale := None;
           opt_heightOffset := None |}))) ((1 * 2 + 0) * 2 + 1) = Fin v
    ∧ u = (IZR 0 / IZR (2 - 1))%R ∧ v = (IZR 1 / IZR (2 - 1))%R
    ∧ (0 <= u <= 1)%R ∧ (0 <= v <= 1)%R.
Proof.
  refine (buildMesh_uvs (TerrainBuilder_init
    {| opt_heights := [Fin 0; Fin 1; Fin 0.5; Fin 0.25]; opt_size := 2;
       opt_worldSize := None; opt_heightScale := None;
       opt_heightOffset := None |}) 1 0 _ _ _); simpl; lia.
Defined.

Lemma vertexColor_range (s : R) :
  (0 <= s <= 1)%R →
  ∃ r g b : R, vertexColor (Fin s) = V3 (Fin r) (Fin g) (Fin b)
    ∧ (0 <= r <= 1)%R ∧ (0 <= g <= 1)%R ∧ (0 <= b <= 1)%R.
Proof.
  intros Hs. unfold vertexColor. cbn [nlt].
  repeat case_bool_decide; cbn [nsub ndiv];
    rewrite decide_False by lra; cbn [nmul nadd];
    eexists _, _, _; (split; [done|]); lra.
Qed.

(** With samples within [0, 1], every vertex colour is a valid RGB
    triple (each channel within [0, 1]), taken from the band of the
    vertex's own sample. *)
Theorem buildMesh_colors (t : TerrainBuilder) (row col : Z) :
  (1 ≤ size t)%Z →
  Z.of_nat (length (heights t)) = (size t * size t)%Z →
  samples_within 0 1 (heights t) →
  (0 ≤ row < size t)%Z → (0 ≤ col < size t)%Z →
  ∃ r g b : R,
    v_fromArray (colors (buildMesh t)) ((row * size t + col) * 3)
    = V3 (Fin r) (Fin g) (Fin b)
    ∧ V3 (Fin r) (Fin g) (Fin b)
      = vertexColor (agetZ (heights t) (row * size t + col))
    ∧ (0 <= r <= 1)%R ∧ (0 <= g <= 1)%R ∧ (0 <= b <= 1)%R.
Proof.
  intros HN Hlen Hw Hr Hc.
  destruct (build_vertices_attributes t ltac:(lia) row col Hr Hc) as (_ & _ & Hcol).
  unfold buildMesh. cbn [colors]. rewrite Hcol.
  destruct (agetZ_within 0 1 (heights t) (row * size t + col) Hw) as (s & -> & Hs).
  { rewrite Hlen. by apply index_bound. }
  destruct (vertexColor_range s Hs) as (r & g & b & -> & Hrgb).
  by exists r, g, b.
Qed.

Lemma buildMesh_colors_witness :
  ∃ r g b : R,
    v_fromArray (colors (buildMesh (TerrainBuilder_init
      {| opt_heights := [Fin 0; Fin 1; Fin 0.5; Fin 0.25]; opt_size := 2;
         opt_worldSize := None; opt_heightScale := None;
         opt_heightOffset := None |}))) ((0 * 2 + 1) * 3)
    = V3 (Fin r) (Fin g) (Fin b)
    ∧ V3 (Fin r) (Fin g) (Fin b)
      = vertexColor (agetZ [Fin 0; Fin 1; Fin 0.5; Fin 0.25] (0 * 2 + 1))
    ∧ (0 <= r <= 1)%R ∧ (0 <= g <= 1)%R ∧ (0 <= b <= 1)%R.
Proof.
  refine (buildMesh_colors (TerrainBuilder_init
    {| opt_heights := [Fin 0; Fin 1; Fin 0.5; Fin 0.25]; opt_size := 2;
       opt_worldSize := None; opt_heightScale := None;
       opt_heightOffset := None |}) 0 1 _ _ _ _ _).
  - simpl. lia.
  - reflexivity.
  - repeat constructor; eexists; (split; [done|]); lra.
  - simpl. lia.
  - simpl. lia.
Defined.

(** Every triangle of the index buffer names three distinct vertices of
    the mesh: no index is out of range and no triangle is degenerate. *)
Theorem buildMesh_triangles (t : TerrainBuilder) (k : Z) :
  (2 ≤ size t)%Z → (size t * size t ≤ 2 ^ 32)%Z →
  (0 ≤ k < 2 * ((size t - 1) * (size t - 1)))%Z →
  ∃ a b c : Z,
    index_at (indices (buildMesh t)) (3 * k) = Some a
    ∧ index_at (indices (buildMesh t)) (3 * k + 1) = Some b
    ∧ index_at (indices (buildMesh t)) (3 * k + 2) = Some c
    ∧ (0 ≤ a < size t * size t)%Z ∧ (0 ≤ b < size t * size t)%Z
    ∧ (0 ≤ c < size t * size t)%Z
    ∧ a ≠ b ∧ b ≠ c ∧ a ≠ c.
Proof.
  intros HN Hbig Hk. unfold buildMesh. cbn [indices].
  set (N := size t) in *.
  destruct (build_indices_spec N ltac:(lia) Hbig) as [_ Hcells].
  set (q := (k / 2)%Z). set (n := (N - 1)%Z) in *.
  assert (Hq : (0 ≤ q < n * n)%Z).
  { unfold q. split; [apply Z.div_pos; lia|].
    apply Z.div_lt_upper_bound; lia. }
  specialize (Hcells q Hq). unfold cell_indices in Hcells. fold n in Hcells.
  cbv zeta in Hcells.
  set (r := (q / n)%Z) in *. set (c := (q mod n)%Z) in *.
  assert (Hr : (0 ≤ r < n)%Z).
  { unfold r. split; [apply Z.div_pos; lia|]. apply Z.div_lt_upper_bound; lia. }
  assert (Hc : (0 ≤ c < n)%Z) by (unfold c; apply Z.mod_pos_bound; lia).
  destruct Hcells as (I0 & I1 & I2 & I3 & I4 & I5).
  assert (Hin : ∀ r' c', (0 ≤ r' < N)%Z → (0 ≤ c' < N)%Z →
    (0 ≤ r' * N + c' < N * N)%Z) by (intros; by apply index_bound).
  pose proof (Hin r c ltac:(lia) ltac:(lia)).
  pose proof (Hin r (c + 1)%Z ltac:(lia) ltac:(lia)).
  pose proof (Hin (r + 1)%Z c ltac:(lia) ltac:(lia)).
  pose proof (Hin (r + 1)%Z (c + 1)%Z ltac:(lia) ltac:(lia)).
  pose proof (Z.div_mod k 2 ltac:(lia)) as Hdm. fold q in Hdm.
  pose proof (Z.mod_pos_bound k 2 ltac:(lia)) as Hmb.
  destruct (decide (k mod 2 = 0)%Z) as [He|He].
  - assert (3 * k = 6 * q)%Z as -> by lia.
    exists (r * N + c)%Z, ((r + 1) * N + c)%Z, (r * N + c + 1)%Z.
    repeat split; try done; lia.
  - assert (3 * k = 6 * q + 3)%Z as -> by lia.
    exists (r * N + c + 1)%Z, ((r + 1) * N + c)%Z, ((r + 1) * N + c + 1)%Z.
    replace (6 * q + 3 + 1)%Z with (6 * q + 4)%Z by lia.
    replace (6 * q + 3 + 2)%Z with (6 * q + 5)%Z by lia.
    repeat split; try done; lia.
Qed.

Lemma buildMesh_triangles_witness :
  ∃ a b c : Z,
    index_at (indices (buildMesh (TerrainBuilder_init
      {| opt_heights := [Fin 0; Fin 1; Fin 0.5; Fin 0.25]; opt_size := 2;
         opt_worldSize := None; opt_heightScale := None;
         opt_heightOffset := None |}))) (3 * 1) = Some a
    ∧ index_at (indices (buildMesh (TerrainBuilder_init
        {| opt_heights := [Fin 0; Fin 1; Fin 0.5; Fin 0.25]; opt_size := 2;
           opt_worldSize := None; opt_heightScale := None;
           opt_heightOffset := None |}))) (3 * 1 + 1) = Some b
    ∧ index_at (indices (buildMesh (TerrainBuilder_init
        {| opt_heights := [Fin 0; Fin 1; Fin 0.5; Fin 0.25]; opt_size := 2;
           opt_worldSize := None; opt_heightScale := None;
           opt_heightOffset := None |}))) (3 * 1 + 2) = Some c
    ∧ (0 ≤ a < 2 * 2)%Z ∧ (0 ≤ b < 2 * 2)%Z ∧ (0 ≤ c < 2 * 2)%Z
    ∧ a ≠ b ∧ b ≠ c ∧ a ≠ c.
Proof.
  refine (buildMesh_triangles (TerrainBuilder_init
    {| opt_heights := [Fin 0; Fin 1; Fin 0.5; Fin 0.25]; opt_size := 2;
       opt_worldSize := None; opt_heightScale := None;
       opt_heightOffset := None |}) 1 _ _ _); simpl; lia.
Defined.

(** ** terrain.js: more on the collision heightfield *)

(** Exporting twice gives the grid back: the exporter applied to a model
    that holds its own output (same size) returns the original samples. *)
Theorem buildRapierHeightfield_involutive (t : TerrainBuilder) :
  (0 ≤ size t)%Z →
  Z.of_nat (length (heights t)) = (size t * size t)%Z →
  hf_heights (buildRapierHeightfield
    {| heights := hf_heights (buildRapierHeightfield t);
       size := size t; cols := cols t; worldSize := worldSize t;
       heightScale := heightScale t; heightOffset := heightOffset t;
       cellSize := cellSize t |})
  = heights t.
Proof.
  intros HN Hlen.
  destruct (rapier_heights_spec (heights t) (size t) HN) as [Hl1 Hg1].
  destruct (rapier_heights_spec (hf_heights (buildRapierHeightfield t))
    (size t) HN) as [Hl2 Hg2].
  unfold buildRapierHeightfield at 1. cbn [hf_heights heights size].
  set (n := size t) in *.
  match goal with |- ?out = _ => set (out2 := out) in * end.
  change (for_Z n _ _) with (hf_heights (buildRapierHeightfield t)) in Hl1, Hg1.
  apply list_eq. intros i.
  destruct (decide (Z.of_nat i < n * n)%Z) as [Hi|Hi].
  - pose proof (Z.div_mod (Z.of_nat i) n ltac:(lia)) as Hdm.
    pose proof (Z.mod_pos_bound (Z.of_nat i) n ltac:(lia)) as Hmb.
    assert (Hdiv : (0 ≤ Z.of_nat i / n < n)%Z).
    { split; [apply Z.div_pos; lia|]. apply Z.div_lt_upper_bound; lia. }
    set (col := (Z.of_nat i / n)%Z) in *. set (row := (Z.of_nat i mod n)%Z) in *.
    assert (Hidx : Z.of_nat i = (col * n + row)%Z) by lia.
    rewrite <- (Nat2Z.id i), Hidx.
    rewrite (agetZ_lookup out2) by (rewrite Hl2; lia).
    rewrite (agetZ_lookup (heights t)) by lia.
    f_equal. rewrite (Hg2 row col) by lia. by rewrite (Hg1 col row) by lia.
  - rewrite !lookup_ge_None_2; [done| lia | lia].
Qed.

Lemma buildRapierHeightfield_involutive_witness :
  hf_heights (buildRapierHeightfield
    {| heights := hf_heights (buildRapierHeightfield
         (TerrainBuilder_init
            {| opt_heights := [Fin 0; Fin 1; Fin 2; Fin 3]; opt_size := 2;
               opt_worldSize := None; opt_heightScale := None;
               opt_heightOffset := None |}));
       size := 2; cols := 1; worldSize := Fin 200;
       heightScale := Fin 14; heightOffset := Fin 0;
       cellSize := Fin 200 / zn (2 - 1) |})
  = [Fin 0; Fin 1; Fin 2; Fin 3].
Proof.
  refine (buildRapierHeightfield_involutive
    (TerrainBuilder_init
       {| opt_heights := [Fin 0; Fin 1; Fin 2; Fin 3]; opt_size := 2;
          opt_worldSize := None; opt_heightScale := None;
          opt_heightOffset := None |}) _ _).
  - simpl. lia.
  - reflexivity.
Defined.

(** ** terrain.js: what a degenerate size yields *)

(** With size 1 and a positive world size the cell size is +Infinity,
    nothing is rejected, and the single vertex of the mesh is stored at
    x = z = NaN; the index buffer is empty. *)
Theorem size_one_mesh (o : TerrainOptions) (W : R) :
  opt_size o = 1%Z →
  default (Fin 200) (opt_worldSize o) = Fin W → (0 < W)%R →
  cellSize (TerrainBuilder_init o) = PInf
  ∧ (∃ y : num,
       positions (buildMesh (TerrainBuilder_init o)) = [NaN; y; NaN]
       ∧ y = getHeight (TerrainBuilder_init o) (Fin 0) (Fin 0))
  ∧ indices (buildMesh (TerrainBuilder_init o)) = [].
Proof.
  intros Hs HW HWpos.
  assert (Hcell : cellSize (TerrainBuilder_init o) = PInf).
  { cbn [cellSize TerrainBuilder_init]. rewrite HW, Hs. unfold zn. cbn [ndiv].
    rewrite decide_True by reflexivity. unfold inf_signed.
    rewrite decide_False by lra. by rewrite bool_decide_eq_true_2 by lra. }
  split; [done|]. split.
  - destruct (build_vertices_positions (TerrainBuilder_init o)) as (Hl & _ & _ & Hp).
    { cbn [size TerrainBuilder_init]. lia. }
    cbn [size TerrainBuilder_init] in Hl, Hp. rewrite Hs in Hl, Hp.
    specialize (Hp 0%Z 0%Z ltac:(lia) ltac:(lia)).
    unfold buildMesh. cbn [positions].
    destruct (vb_positions (build_vertices (TerrainBuilder_init o)))
      as [|p0 [|p1 [|p2 [|p3 l]]]]; try (simpl in Hl; lia).
    unfold vertexPosition in Hp. rewrite Hcell in Hp.
    cbn [worldSize TerrainBuilder_init] in Hp. rewrite HW in Hp.
    unfold zn in Hp. cbn [nmul ndiv nsub] in Hp.
    unfold inf_signed in Hp. rewrite decide_True in Hp by done.
    rewrite (decide_False (P := (2 = 0)%R)) in Hp by lra.
    cbn [nsub] in Hp.
    change (v_fromArray [p0; p1; p2] ((0 * 1 + 0) * 3)) with (V3 p0 p1 p2) in Hp.
    injection Hp as Hx Hy Hz. subst p0 p1 p2.
    eexists. split; [done|]. done.
  - unfold buildMesh. cbn [indices size TerrainBuilder_init]. rewrite Hs.
    reflexivity.
Qed.

Lemma size_one_mesh_witness :
  cellSize (TerrainBuilder_init
    {| opt_heights := [Fin 0.5]; opt_size := 1; opt_worldSize := None;
       opt_heightScale := None; opt_heightOffset := None |}) = PInf.
Proof.
  refine (proj1 (size_one_mesh
    {| opt_heights := [Fin 0.5]; opt_size := 1; opt_worldSize := None;
       opt_heightScale := None; opt_heightOffset := None |} 200 _ _ _)).
  - reflexivity.
  - reflexivity.
  - lra.
Defined.

(** ** heightmap.js: more on the noise *)

(** The hash of a finite point is a finite value within [0, 1). *)
Theorem noise_range (x y : R) :
  ∃ v : R, noise (Fin x) (Fin y) = Fin v ∧ (0 <= v < 1)%R.
Proof. rewrite noise_fin. eexists. split; [done|]. apply frac_part_range. Qed.

(** What [smoothNoise] returns exceeds the bilinear blend of the four
    corners by exactly (b + c − 2a)·ux·uy, for the corner hashes a, b, c
    and the smoothstep weights ux, uy of the point. *)
Theorem smoothNoise_excess (x y : R) :
  ∃ a b c d ux uy s p : R,
    lattice (Fin x) (Fin y)
    = {| la := Fin a; lb := Fin b; lc := Fin c; ld := Fin d;
         lux := Fin ux; luy := Fin uy |}
    ∧ smoothNoise (Fin x) (Fin y) = Fin s
    ∧ properBilinear (Fin x) (Fin y) = Fin p
    ∧ (s - p = (b + c - 2 * a) * ux * uy)%R.
Proof.
  destruct (smoothNoise_fin x y) as [-> ->].
  eexists _, _, _, _, _, _, _, _.
  split; [reflexivity|]. split; [reflexivity|]. split; [reflexivity|].
  unfold frac_part. ring.
Qed.



(** ** heightmap.js: more on the generator *)

(** The rescale of a scan whose extrema differ is the affine map
    v ↦ (v − min)/(max − min), which keeps the order of the values. *)
Lemma rescale_scanned_affine (F : Z → R) (n : Z) (s : Scan) :
  scanned n F s →
  length (sc_heights s) = Z.to_nat n →
  nlt (sc_minH s) (sc_maxH s) = true →
  ∃ mn mx : R, sc_minH s = Fin mn ∧ sc_maxH s = Fin mx ∧ (mn < mx)%R
    ∧ ∀ i, (0 ≤ i < n)%Z →
        rescale (sc_minH s) (sc_maxH s - sc_minH s) (sc_heights s) !! Z.to_nat i
        = Some (Fin ((F i - mn) / (mx - mn))).
Proof.
  intros (Hval & Hinit & Hext) Hlen Hlt.
  assert (Hn : (0 < n)%Z).
  { destruct (decide (0 < n)%Z); [done|].
    destruct Hinit as [Hmn Hmx]; [lia|]. by rewrite Hmn, Hmx in Hlt. }
  destruct Hext as (imin & imax & Himin & Himax & Hmn & Hmx & Hall); [done|].
  rewrite Hmn, Hmx in *. apply bool_decide_eq_true in Hlt.
  exists (F imin), (F imax). split; [done|]. split; [done|]. split; [done|].
  cbn [nsub].
  destruct (rescale_spec (Fin (F imin)) (Fin (F imax - F imin)) (sc_heights s))
    as [Hl Hget].
  rewrite Hlen in Hget.
  intros i Hi. rewrite agetZ_lookup by (rewrite Hl, Hlen; lia).
  rewrite Hget by lia. rewrite Hval by done. cbn [nsub ndiv].
  by rewrite decide_False by lra.
Qed.

Lemma affine_monotone (mn mx a b : R) :
  (mn < mx)%R → (a <= b)%R → ((a - mn) / (mx - mn) <= (b - mn) / (mx - mn))%R.
Proof.
  intros Hm Hab. unfold Rdiv. apply Rmult_le_compat_r; [|lra].
  left. apply Rinv_0_lt_compat. lra.
Qed.

(** The final rescale keeps the shape of the terrain: for a grid that is
    not constant, each output is (raw − min)/(max − min), so a cell that
    was no higher than another before the rescale is no higher after. *)
Theorem generateProceduralHeightmap_order (size i j : Z) :
  nlt (sc_minH (raw_heightmap size)) (sc_maxH (raw_heightmap size)) = true →
  (0 ≤ i < size * size)%Z → (0 ≤ j < size * size)%Z →
  ∃ ri rj oi oj mn mx : R,
    sc_heights (raw_heightmap size) !! Z.to_nat i = Some (Fin ri)
    ∧ sc_heights (raw_heightmap size) !! Z.to_nat j = Some (Fin rj)
    ∧ hd_heights (generateProceduralHeightmap size) !! Z.to_nat i = Some (Fin oi)
    ∧ hd_heights (generateProceduralHeightmap size) !! Z.to_nat j = Some (Fin oj)
    ∧ sc_minH (raw_heightmap size) = Fin mn
    ∧ sc_maxH (raw_heightmap size) = Fin mx
    ∧ oi = ((ri - mn) / (mx - mn))%R ∧ oj = ((rj - mn) / (mx - mn))%R
    ∧ (ri <= rj → oi <= oj)%R.
Proof.
  intros Hlt Hi Hj.
  assert (Hs : (1 ≤ size)%Z).
  { destruct (decide (1 ≤ size)%Z); [done|].
    rewrite raw_heightmap_empty in Hlt by lia. done. }
  destruct (raw_heightmap_scanned size Hs) as [Hsc Hlen].
  destruct (rescale_scanned_affine _ _ _ Hsc Hlen Hlt)
    as (mn & mx & Hmn & Hmx & Hm & Hout).
  destruct Hsc as (Hval & _).
  unfold generateProceduralHeightmap. cbn [hd_heights].
  eexists _, _, _, _, mn, mx.
  split. { rewrite agetZ_lookup by lia. by rewrite Hval. }
  split. { rewrite agetZ_lookup by lia. by rewrite Hval. }
  split; [by apply Hout|]. split; [by apply Hout|].
  split; [done|]. split; [done|]. split; [done|]. split; [done|].
  by apply affine_monotone.
Qed.

Lemma generateProceduralHeightmap_order_witness :
  ∃ ri rj oi oj mn mx : R,
    sc_heights (raw_heightmap 200) !! Z.to_nat 0 = Some (Fin ri)
    ∧ sc_heights (raw_heightmap 200) !! Z.to_nat 1 = Some (Fin rj)
    ∧ hd_heights (generateProceduralHeightmap 200) !! Z.to_nat 0 = Some (Fin oi)
    ∧ hd_heights (generateProceduralHeightmap 200) !! Z.to_nat 1 = Some (Fin oj)
    ∧ sc_minH (raw_heightmap 200) = Fin mn
    ∧ sc_maxH (raw_heightmap 200) = Fin mx
    ∧ oi = ((ri - mn) / (mx - mn))%R ∧ oj = ((rj - mn) / (mx - mn))%R
    ∧ (ri <= rj → oi <= oj)%R.
Proof.
  refine (generateProceduralHeightmap_order 200 0 1 raw_heightmap_200_range _ _);
    lia.
Defined.

(** The rescale of a scan of [n > 0] cells whose extrema coincide: every
    cell becomes 0/0. *)
Lemma rescale_scanned_constant (F : Z → R) (n : Z) (s : Scan) :
  (0 < n)%Z →
  scanned n F s →
  length (sc_heights s) = Z.to_nat n →
  nlt (sc_minH s) (sc_maxH s) = false →
  ∀ i, (0 ≤ i < n)%Z →
    rescale (sc_minH s) (sc_maxH s - sc_minH s) (sc_heights s) !! Z.to_nat i
    = Some NaN.
Proof.
  intros Hn (Hval & _ & Hext) Hlen Hlt i Hi.
  destruct Hext as (imin & imax & Himin & Himax & Hmn & Hmx & Hall); [done|].
  rewrite Hmn, Hmx in *. apply bool_decide_eq_false in Hlt. cbn [nsub].
  destruct (rescale_spec (Fin (F imin)) (Fin (F imax - F imin)) (sc_heights s))
    as [Hl Hget].
  rewrite Hlen in Hget.
  rewrite agetZ_lookup by (rewrite Hl, Hlen; lia).
  rewrite Hget by lia. rewrite Hval by done. cbn [nsub ndiv].
  pose proof (Hall i Hi). pose proof (Hall imax Himax).
  rewrite decide_True by lra. unfold inf_signed. by rewrite decide_True by lra.
Qed.

(** When the grid before the rescale is constant (as it is at size 1),
    the range is 0 and every output value is NaN, while the result still
    reports [minH = 0] and [maxH = 1]. *)
Theorem generateProceduralHeightmap_constant (size : Z) :
  (1 ≤ size)%Z →
  nlt (sc_minH (raw_heightmap size)) (sc_maxH (raw_heightmap size)) = false →
  (∀ i, (0 ≤ i < size * size)%Z →
     hd_heights (generateProceduralHeightmap size) !! Z.to_nat i = Some NaN)
  ∧ hd_minH (generateProceduralHeightmap size) = Fin 0
  ∧ hd_maxH (generateProceduralHeightmap size) = Fin 1.
Proof.
  intros Hs Hlt.
  destruct (raw_heightmap_scanned size Hs) as [Hsc Hlen].
  split; [|done].
  unfold generateProceduralHeightmap. cbn [hd_heights].
  assert (Hpos : (0 < size * size)%Z) by nia.
  apply (rescale_scanned_constant _ _ _ Hpos Hsc Hlen Hlt).
Qed.

Lemma raw_heightmap_1_constant :
  nlt (sc_minH (raw_heightmap 1)) (sc_maxH (raw_heightmap 1)) = false.
Proof.
  destruct (raw_heightmap_scanned 1 ltac:(lia)) as [(_ & _ & Hext) _].
  destruct Hext as (imin & imax & Himin & Himax & -> & -> & _); [lia|].
  assert (imin = 0)%Z as -> by lia. assert (imax = 0)%Z as -> by lia.
  apply bool_decide_eq_false. lra.
Qed.

Lemma generateProceduralHeightmap_constant_witness :
  hd_minH (generateProceduralHeightmap 1) = Fin 0.
Proof.
  refine (proj1 (proj2 (generateProceduralHeightmap_constant 1 _
                          raw_heightmap_1_constant))).
  lia.
Defined.

(** ** heightmap.js: the image loader *)

(** For an image of n×n RGBA pixels with bytes in 0..255, the loader
    returns n·n heights, height i being the red byte of pixel i over 255,
    within [0, 1]; [minH] and [maxH] are the darkest and the brightest
    red byte of the image, over 255.  (Exact real arithmetic: the program
    rounds each quotient to binary64 and each stored height further to
    binary32, while [minH] and [maxH] keep the binary64 value.) *)
Theorem loadHeightmap_onload_spec (pixels : list Z) (n : Z) :
  (1 ≤ n)%Z →
  Z.of_nat (length pixels) = (4 * (n * n))%Z →
  Forall (λ p, (0 ≤ p ≤ 255)%Z) pixels →
  Z.of_nat (length (hd_heights (loadHeightmap_onload pixels n))) = (n * n)%Z
  ∧ hd_size (loadHeightmap_onload pixels n) = n
  ∧ (∀ i, (0 ≤ i < n * n)%Z →
       ∃ p : Z, pixels !! Z.to_nat (4 * i) = Some p
         ∧ hd_heights (loadHeightmap_onload pixels n) !! Z.to_nat i
           = Some (Fin (IZR p / 255))
         ∧ (0 <= IZR p / 255 <= 1)%R)
  ∧ ∃ lo hi : Z,
      hd_minH (loadHeightmap_onload pixels n) = Fin (IZR lo / 255)
      ∧ hd_maxH (loadHeightmap_onload pixels n) = Fin (IZR hi / 255)
      ∧ (∃ i, (0 ≤ i < n * n)%Z ∧ pixels !! Z.to_nat (4 * i) = Some lo)
      ∧ (∃ i, (0 ≤ i < n * n)%Z ∧ pixels !! Z.to_nat (4 * i) = Some hi)
      ∧ ∀ i p, (0 ≤ i < n * n)%Z → pixels !! Z.to_nat (4 * i) = Some p →
          (lo ≤ p ≤ hi)%Z.
Proof.
  intros Hn Hlen Hbytes.
  set (F := λ i : Z, (to_R (pixel_at pixels (i * 4)) / 255)%R).
  assert (Hpix : ∀ i, (0 ≤ i < n * n)%Z →
    ∃ p : Z, pixels !! Z.to_nat (4 * i) = Some p
      ∧ pixel_at pixels (i * 4) / Fin 255 = Fin (F i)
      ∧ F i = (IZR p / 255)%R ∧ (0 <= IZR p / 255 <= 1)%R).
  { intros i Hi.
    destruct (lookup_lt_is_Some_2 pixels (Z.to_nat (4 * i))) as [p Hp]; [lia|].
    exists p. split; [done|].
    assert (Hpa : pixel_at pixels (i * 4) = zn p).
    { unfold pixel_at. rewrite bool_decide_eq_true_2 by lia.
      replace (i * 4)%Z with (4 * i)%Z by lia. by rewrite Hp. }
    unfold F. rewrite Hpa. unfold zn. cbn [ndiv to_R].
    rewrite decide_False by lra. split; [done|]. split; [done|].
    rewrite Forall_forall in Hbytes.
    apply list_elem_of_lookup_2, Hbytes in Hp.
    assert (0 <= IZR p <= 255)%R by (split; apply IZR_le; lia). lra. }
  assert (Hscan :
    scanned (n * n) F
      (for_Z (n * n) (λ i s, scan_put s i (pixel_at pixels (i * 4) / Fin 255))
         (scan_init (n * n)))
    ∧ length (sc_heights
        (for_Z (n * n) (λ i s, scan_put s i (pixel_at pixels (i * 4) / Fin 255))
           (scan_init (n * n)))) = Z.to_nat (n * n)).
  { apply (for_Z_ind (λ k s,
      scanned k F s ∧ length (sc_heights s) = Z.to_nat (n * n))); [nia| |].
    - split; [apply scanned_init|apply length_new_array].
    - intros k s Hk [Hsc Hl].
      destruct (Hpix k Hk) as (p & _ & -> & _).
      destruct (scanned_put k F s) as [H1 H2]; [lia|done|].
      split; [done|]. by rewrite H2. }
  destruct Hscan as [(Hval & _ & Hext) Hl].
  destruct Hext as (imin & imax & Himin & Himax & Hmn & Hmx & Hall); [nia|].
  unfold loadHeightmap_onload. cbn [hd_heights hd_size hd_minH hd_maxH].
  assert (Hout : ∀ i, (0 ≤ i < n * n)%Z →
    sc_heights
      (for_Z (n * n) (λ i s, scan_put s i (pixel_at pixels (i * 4) / Fin 255))
         (scan_init (n * n))) !! Z.to_nat i = Some (Fin (F i))).
  { intros i Hi. rewrite agetZ_lookup by lia. by rewrite Hval. }
  split; [lia|]. split; [done|]. split.
  - intros i Hi. destruct (Hpix i Hi) as (p & Hp & _ & HF & Hr).
    exists p. split; [done|]. split; [|done]. rewrite Hout by done. by rewrite HF.
  - destruct (Hpix imin Himin) as (lo & Hlo & _ & HFlo & _).
    destruct (Hpix imax Himax) as (hi & Hhi & _ & HFhi & _).
    exists lo, hi. rewrite Hmn, Hmx, HFlo, HFhi.
    split; [done|]. split; [done|].
    split; [by exists imin|]. split; [by exists imax|].
    intros i p Hi Hp. destruct (Hpix i Hi) as (p' & Hp' & _ & HFi & _).
    rewrite Hp in Hp'. injection Hp' as <-.
    destruct (Hall i Hi) as [H1 H2].
    rewrite HFlo, HFi in H1. rewrite HFi, HFhi in H2.
    split; apply le_IZR; lra.
Qed.

(** One pixel: red 51, i.e. brightness 0.2. *)
Lemma loadHeightmap_onload_spec_witness :
  hd_size (loadHeightmap_onload [51; 51; 51; 255]%Z 1) = 1%Z.
Proof.
  refine (proj1 (proj2 (loadHeightmap_onload_spec [51; 51; 51; 255]%Z 1 _ _ _))).
  - lia.
  - reflexivity.
  - repeat constructor; lia.
Defined.

(** ** controller.js: input handlers *)

(** A key is down exactly from its [keydown] to its [keyup]; the events of
    one key leave the others as they were. *)
Theorem key_events (c : FPSController) (code other : string) :
  pressed (on_keydown c code) other
  = (if bool_decide (code = other) then true else pressed c other)
  ∧ pressed (on_keyup c code) other
    = (if bool_decide (code = other) then false else pressed c other)
  ∧ pressed (on_keyup (on_keydown c code) code) code = false.
Proof.
  unfold pressed, on_keyup, on_keydown, set_keys. cbn [keys].
  split; [|split].
  - case_bool_decide as H.
    + subst. by rewrite lookup_insert_eq.
    + by rewrite lookup_insert_ne.
  - case_bool_decide as H.
    + subst. by rewrite lookup_insert_eq.
    + by rewrite lookup_insert_ne.
  - by rewrite lookup_insert_eq.
Qed.

(** While the pointer is locked, a mouse move leaves the pitch within
    [-1.4, 1.4], strictly inside ±π/2, whatever the pitch was before and
    however large the move. *)
Theorem on_mousemove_pitch (c : FPSController) (movementX : num)
    (p s dy : R) :
  locked c = true →
  pitch c = Fin p → SENSITIVITY c = Fin s →
  ∃ p' : R,
    pitch (on_mousemove c movementX (Fin dy)) = Fin p'
    ∧ (-1.4 <= p' <= 1.4)%R ∧ (- (PI / 2) < p' < PI / 2)%R.
Proof.
  intros Hl Hp Hs. unfold on_mousemove. rewrite Hl. cbn [negb pitch].
  rewrite Hp, Hs. cbn [nmul nsub Math_min Math_max nlt].
  pose proof PI_bounds.
  repeat case_bool_decide; eexists; (split; [done|]); lra.
Qed.

(** The new controller, pointer locked, after a move of 5000 pixels up. *)
Lemma on_mousemove_pitch_witness :
  ∃ p' : R,
    pitch (on_mousemove
      (on_pointerlockchange
         (FPSController_new (V3 (Fin 0) (Fin 0) (Fin 0)) (Fin 0) (Fin 0)) true)
      (Fin 3) (Fin (-5000))) = Fin p'
    ∧ (-1.4 <= p' <= 1.4)%R ∧ (- (PI / 2) < p' < PI / 2)%R.
Proof.
  refine (on_mousemove_pitch _ (Fin 3) 0 0.002 (-5000) _ _ _); reflexivity.
Defined.

(** ** controller.js: more on the integrator step *)

(** In the air no jump fires, whatever the keys and the cooldown: the
    vertical velocity is the prior one plus gravity times [dt], and the
    cooldown is not reset. *)
Theorem update_airborne
    (resolve : Vector3 → Vector3 → Vector3 * bool)
    (c : FPSController) (dt : num) :
  isGrounded c = false →
  velY (update resolve c dt).1 = velY c + GRAVITY c * dt
  ∧ jumpCooldown (update resolve c dt).1
    = (if ngt (jumpCooldown c) (Fin 0) then jumpCooldown c - dt
       else jumpCooldown c).
Proof.
  intros Hg. unfold update. cbn [fst velY jumpCooldown].
  by rewrite Hg, andb_false_r.
Qed.

Lemma update_airborne_witness :
  velY (update (λ _ d, (d, false))
    (on_keydown (FPSController_new (V3 (Fin 0) (Fin 0) (Fin 0)) (Fin 0) (Fin 0))
       "Space") (Fin 0.016)).1
  = velY (on_keydown
            (FPSController_new (V3 (Fin 0) (Fin 0) (Fin 0)) (Fin 0) (Fin 0))
            "Space")
    + GRAVITY (on_keydown
                 (FPSController_new (V3 (Fin 0) (Fin 0) (Fin 0)) (Fin 0) (Fin 0))
                 "Space") * Fin 0.016.
Proof.
  refine (proj1 (update_airborne _ _ _ _)). reflexivity.
Defined.

(** A grounded step never leaves the vertical velocity below -2, however
    long the frame and however fast the body was falling (jump force at
    least -2; 9 in the constructor). *)
Theorem update_grounded_velocity
    (resolve : Vector3 → Vector3 → Vector3 * bool)
    (c : FPSController) (v g d jf : R) :
  isGrounded c = true →
  velY c = Fin v → GRAVITY c = Fin g → JUMP_FORCE c = Fin jf →
  (-2 <= jf)%R →
  ∃ v' : R, velY (update resolve c (Fin d)).1 = Fin v' ∧ (-2 <= v')%R.
Proof.
  intros Hg Hv Hgr Hjf Hjf2. unfold update. cbn [fst velY].
  rewrite Hg, Hv, Hgr, Hjf. cbn [nmul nadd nlt andb].
  destruct (pressed c "Space" && true && _); [by eexists|].
  case_bool_decide; eexists; (split; [done|]); lra.
Qed.

Lemma update_grounded_velocity_witness :
  ∃ v' : R,
    velY (update (λ _ d, (d, true))
      (update (λ _ d, (d, true))
         (FPSController_new (V3 (Fin 0) (Fin 0) (Fin 0)) (Fin 0) (Fin 0))
         (Fin 0.05)).1 (Fin 0.05)).1 = Fin v'
    ∧ (-2 <= v')%R.
Proof.
  refine (update_grounded_velocity _ _ (0 + -25 * 0.05) (-25) 0.05 9 _ _ _ _ _).
  - reflexivity.
  - reflexivity.
  - reflexivity.
  - reflexivity.
  - lra.
Defined.

(** While the cooldown outlasts the frame no jump fires, even grounded
    with the jump key held: the cooldown goes down by [dt] and the
    velocity follows gravity (held at -2 on the ground). *)
Theorem update_cooldown_blocks_jump
    (resolve : Vector3 → Vector3 → Vector3 * bool)
    (c : FPSController) (jc d v g : R) :
  jumpCooldown c = Fin jc → velY c = Fin v → GRAVITY c = Fin g →
  (0 < d < jc)%R →
  jumpCooldown (update resolve c (Fin d)).1 = Fin (jc - d)
  ∧ velY (update resolve c (Fin d)).1
    = (if isGrounded c && bool_decide (v + g * d < 0)%R
       then Fin (-2) else Fin (v + g * d)).
Proof.
  intros Hjc Hv Hg Hd. unfold update. cbn [fst velY jumpCooldown].
  rewrite Hjc, Hv, Hg. unfold ngt. cbn [nlt nsub nmul nadd nle].
  rewrite (bool_decide_eq_true_2 (0 < jc)%R) by lra. cbn [nsub nle].
  rewrite (bool_decide_eq_false_2 (jc - d <= 0)%R) by lra.
  by rewrite !andb_false_r.
Qed.

(** The frame after a jump: cooldown 0.4, frame of 1/60 s. *)
Lemma update_cooldown_blocks_jump_witness :
  jumpCooldown (update (λ _ d, (d, true))
    (setPosition
       {| keys := {["Space" := true]}; yaw := Fin 0; pitch := Fin 0;
          locked := true; velY := Fin 9; isGrounded := true;
          jumpCooldown := Fin 0.4;
          MOVE_SPEED := Fin 8; SPRINT_MULT := Fin 1.8; JUMP_FORCE := Fin 9;
          GRAVITY := Fin (-25); EYE_HEIGHT := Fin 1.2;
          SENSITIVITY := Fin 0.002;
          _mov := V3 (Fin 0) (Fin 0) (Fin 0);
          body_translation := V3 (Fin 0) (Fin 30) (Fin 0);
          body_next := V3 (Fin 0) (Fin 30) (Fin 0);
          camera_position := V3 (Fin 0) (Fin 0) (Fin 0);
          camera_rotation_x := Fin 0; camera_rotation_y := Fin 0 |}
       (Fin 0) (Fin 30) (Fin 0)) (Fin (1 / 60))).1
  = Fin (0.4 - 1 / 60).
Proof.
  refine (proj1 (update_cooldown_blocks_jump _ _ 0.4 (1 / 60) 0 (-25) _ _ _ _)).
  - reflexivity.
  - reflexivity.
  - reflexivity.
  - lra.
Defined.

(** The keys move the body horizontally only: for a finite yaw and finite
    speed settings the movement vector has a zero y component. *)
Theorem movement_horizontal (c : FPSController) (y ms sm : R) :
  yaw c = Fin y → MOVE_SPEED c = Fin ms → SPRINT_MULT c = Fin sm →
  vy (movement c) = Fin 0.
Proof.
  intros Hy Hms Hsm. unfold movement, targetSpeed. rewrite Hy, Hms, Hsm.
  assert (Hsp : ∃ s, Fin ms * (if pressed c "ShiftLeft" || pressed c "ShiftRight"
                               then Fin sm else Fin 1) = Fin s).
  { destruct (_ || _); by eexists. }
  destruct Hsp as [s ->].
  destruct (pressed c "KeyW" || pressed c "ArrowUp"),
           (pressed c "KeyS" || pressed c "ArrowDown"),
           (pressed c "KeyA" || pressed c "ArrowLeft"),
           (pressed c "KeyD" || pressed c "ArrowRight");
    unfold v_addScaledVector; cbn [vx vy vz nadd nmul nneg Math_sin Math_cos];
    rewrite v_lengthSq_fin; unfold ngt, nlt;
    (case_bool_decide as HL;
     [ rewrite v_normalize_fin by lra; cbn [v_multiplyScalar vx vy vz nmul];
       f_equal; ring
     | cbn [vy]; f_equal; ring ]).
Qed.

Lemma movement_horizontal_witness :
  vy (movement (on_keydown
    (FPSController_new (V3 (Fin 0) (Fin 0) (Fin 0)) (Fin 0) (Fin 0)) "KeyD"))
  = Fin 0.
Proof.
  refine (movement_horizontal _ 0 8 1.8 _ _ _); reflexivity.
Defined.

(** ** terrain.js: vertex normals, whatever the relief *)

(** Every vertex normal points up: its y component is positive (and at
    most 1), whatever the relief. *)
Theorem buildMesh_normals_upward (o : TerrainOptions) (W : R) (v : Z) :
  (2 ≤ opt_size o)%Z →
  (opt_size o * opt_size o ≤ 2 ^ 32)%Z →
  Z.of_nat (length (opt_heights o)) = (opt_size o * opt_size o)%Z →
  Forall is_fin (opt_heights o) →
  default (Fin 200) (opt_worldSize o) = Fin W → (0 < W)%R →
  is_fin (default (Fin 14) (opt_heightScale o)) →
  is_fin (default (Fin 0) (opt_heightOffset o)) →
  (0 ≤ v < opt_size o * opt_size o)%Z →
  ∃ x y z : R,
    normal_at (buildMesh (TerrainBuilder_init o)) v = V3 (Fin x) (Fin y) (Fin z)
    ∧ (0 < y <= 1)%R.
Proof.
  intros HN Hbig Hlen Hfin HW HWpos Hhs Hho Hv.
  destruct (buildMesh_normals_gen o W false HN Hbig Hlen Hfin HW HWpos Hhs Hho)
    as (_ & _ & _ & Hunit); [done|].
  destruct (Hunit v Hv) as (x & y & z & Hv3 & Hsq & Hy & _).
  exists x, y, z. split; [done|]. split; [done|]. nra.
Qed.

Lemma buildMesh_normals_upward_witness :
  ∃ x y z : R,
    normal_at (buildMesh (TerrainBuilder_init
      {| opt_heights := [Fin 0; Fin 1; Fin 0.5; Fin 0.25]; opt_size := 2;
         opt_worldSize := None; opt_heightScale := None;
         opt_heightOffset := None |})) 3 = V3 (Fin x) (Fin y) (Fin z)
    ∧ (0 < y <= 1)%R.
Proof.
  refine (buildMesh_normals_upward
    {| opt_heights := [Fin 0; Fin 1; Fin 0.5; Fin 0.25]; opt_size := 2;
       opt_worldSize := None; opt_heightScale := None;
       opt_heightOffset := None |} 200 3 _ _ _ _ _ _ _ _ _).
  - simpl. lia.
  - simpl. lia.
  - reflexivity.
  - simpl. repeat constructor.
  - reflexivity.
  - lra.
  - exact I.
  - exact I.
  - simpl. lia.
Defined.

(** ** heightmap.js: bounds of the noise *)

Lemma smoothstep_range (f : R) :
  (0 <= f < 1)%R → (0 <= f * f * (3 - 2 * f) <= 1)%R.
Proof.
  intros Hf. split.
  - apply Rmult_le_pos; [nra|lra].
  - assert (H : (1 - f * f * (3 - 2 * f) = (1 - f) * (1 - f) * (1 + 2 * f))%R)
      by ring.
    assert (0 <= (1 - f) * (1 - f) * (1 + 2 * f))%R
      by (apply Rmult_le_pos; [nra|lra]).
    lra.
Qed.

(** The value [smoothNoise] returns is finite and within [-2, 3]; the
    bilinear blend it leaves unreached would be within [0, 1]. *)
Theorem smoothNoise_bounds (x y : R) :
  ∃ s p : R,
    smoothNoise (Fin x) (Fin y) = Fin s ∧ (-2 <= s <= 3)%R
    ∧ properBilinear (Fin x) (Fin y) = Fin p ∧ (0 <= p <= 1)%R.
Proof.
  destruct (smoothNoise_fin x y) as [-> ->].
  eexists _, _. split; [reflexivity|]. split; [|split; [reflexivity|]].
  - pose proof (base_Int_part x) as Hx. pose proof (base_Int_part y) as Hy.
    pose proof (smoothstep_range (x - IZR (Int_part x)) ltac:(lra)) as Hux.
    pose proof (smoothstep_range (y - IZR (Int_part y)) ltac:(lra)) as Huy.
    set (ux := ((x - IZR (Int_part x)) * (x - IZR (Int_part x))
                * (3 - 2 * (x - IZR (Int_part x))))%R) in *.
    set (uy := ((y - IZR (Int_part y)) * (y - IZR (Int_part y))
                * (3 - 2 * (y - IZR (Int_part y))))%R) in *.
    match goal with |- context [frac_part ?r] =>
      pose proof (frac_part_range r) end.
    set (a := frac_part (sin (IZR (Int_part x) * 127.1
                              + IZR (Int_part y) * 311.7) * 43758.5453123)) in *.
    pose proof (frac_part_range (sin ((IZR (Int_part x) + 1) * 127.1
      + IZR (Int_part y) * 311.7) * 43758.5453123)) as Hb.
    set (b := frac_part (sin ((IZR (Int_part x) + 1) * 127.1
                              + IZR (Int_part y) * 311.7) * 43758.5453123)) in *.
    pose proof (frac_part_range (sin (IZR (Int_part x) * 127.1
      + (IZR (Int_part y) + 1) * 311.7) * 43758.5453123)) as Hc.
    set (c := frac_part (sin (IZR (Int_part x) * 127.1
                + (IZR (Int_part y) + 1) * 311.7) * 43758.5453123)) in *.
    pose proof (frac_part_range (sin ((IZR (Int_part x) + 1) * 127.1
      + (IZR (Int_part y) + 1) * 311.7) * 43758.5453123)) as Hd.
    set (d := frac_part (sin ((IZR (Int_part x) + 1) * 127.1
                + (IZR (Int_part y) + 1) * 311.7) * 43758.5453123)) in *.
    assert (Ha : (0 <= a < 1)%R) by (unfold a; apply frac_part_range).
    assert (Hxy : (0 <= ux * uy <= 1)%R) by (split; nra).
    assert (Hbu : (0 <= b * ux <= 1)%R) by (split; nra).
    assert (Hcu : (0 <= c * uy <= 1)%R) by (split; nra).
    assert (Hdu : (0 <= d * (ux * uy) <= 1)%R) by (split; nra).
    assert (Hak : (-2 <= a * (1 - ux - uy - ux * uy) <= 1)%R) by (split; nra).
    replace (a + (b - a) * ux + (c - a) * uy + (d - a) * ux * uy
             + (b - a) * (1 - uy) * 0)%R
      with (a * (1 - ux - uy - ux * uy) + b * ux + c * uy + d * (ux * uy))%R
      by ring.
    split; [lra|].
    destruct (Rle_dec 0 (1 - ux - uy - ux * uy)) as [Hk|Hk].
    + assert (a * (1 - ux - uy - ux * uy) <= 1 - ux - uy - ux * uy)%R by nra.
      assert (b * ux <= ux)%R by nra. assert (c * uy <= uy)%R by nra.
      assert (d * (ux * uy) <= ux * uy)%R by nra. lra.
    + assert (a * (1 - ux - uy - ux * uy) <= 0)%R by nra. lra.
  - pose proof (base_Int_part x) as Hx. pose proof (base_Int_part y) as Hy.
    pose proof (smoothstep_range (x - IZR (Int_part x)) ltac:(lra)) as Hux.
    pose proof (smoothstep_range (y - IZR (Int_part y)) ltac:(lra)) as Huy.
    apply bilinear_within; try done;
      match goal with |- (0 <= frac_part ?r <= 1)%R =>
        pose proof (frac_part_range r); lra end.
Qed.

(** ** terrain.js: queries beyond the edge *)

Lemma axis_blend_clamp (n : Z) (h : Z → R) (g : R) :
  (1 ≤ n)%Z →
  axis_blend n h g = axis_blend n h (Rmax 0 (Rmin (IZR (n - 1)) g)).
Proof.
  intros Hn.
  assert (Hn1 : (0 <= IZR (n - 1))%R) by (apply IZR_le; lia).
  pose proof (base_Int_part g) as Hg.
  destruct (Rle_dec g 0) as [Hlo|Hlo]; [|destruct (Rle_dec (IZR (n - 1)) g) as [Hhi|Hhi]].
  - rewrite Rmin_right by lra. rewrite Rmax_left by lra.
    unfold axis_blend. rewrite (Int_part_eq 0 0) by lra.
    assert (Hi : (Int_part g ≤ 0)%Z) by (apply le_IZR; lra).
    destruct (decide (Int_part g = 0%Z)) as [E|E].
    + rewrite E in *. assert (g = 0)%R as -> by lra. done.
    + assert (clampZ n (Int_part g) = 0%Z) as -> by (unfold clampZ; lia).
      assert (clampZ n (Int_part g + 1) = 0%Z) as -> by (unfold clampZ; lia).
      assert (clampZ n 0 = 0%Z) as -> by (unfold clampZ; lia).
      ring.
  - rewrite Rmin_left by lra. rewrite Rmax_right by lra.
    unfold axis_blend. rewrite Int_part_IZR.
    assert (Hi : (n - 1 ≤ Int_part g)%Z).
    { apply Z.lt_succ_r. apply lt_IZR. rewrite succ_IZR. lra. }
    assert (clampZ n (Int_part g) = (n - 1)%Z) as -> by (unfold clampZ; lia).
    assert (clampZ n (Int_part g + 1) = (n - 1)%Z) as -> by (unfold clampZ; lia).
    assert (clampZ n (n - 1) = (n - 1)%Z) as -> by (unfold clampZ; lia).
    assert (clampZ n (n - 1 + 1) = (n - 1)%Z) as -> by (unfold clampZ; lia).
    ring.
  - rewrite Rmin_right by lra. rewrite Rmax_right by lra. done.
Qed.

Lemma grid_coord_clamp (W cs x : R) (n : Z) :
  (0 < cs)%R → (0 < W)%R → W = (IZR (n - 1) * cs)%R →
  ((Rmax (- (W / 2)) (Rmin (W / 2) x) + W / 2) / cs)%R
  = Rmax 0 (Rmin (IZR (n - 1)) ((x + W / 2) / cs)).
Proof.
  intros Hcs HW HWn.
  assert (Hinv : (0 < / cs)%R) by (by apply Rinv_0_lt_compat).
  assert (Hfull : ((W / 2 + W / 2) / cs = IZR (n - 1))%R).
  { rewrite HWn. field. lra. }
  destruct (Rle_dec x (- (W / 2))) as [Hlo|Hlo];
    [|destruct (Rle_dec (W / 2) x) as [Hhi|Hhi]].
  - rewrite (Rmin_right (W / 2) x) by lra. rewrite (Rmax_left (- (W / 2)) x) by lra.
    assert (((x + W / 2) / cs <= 0)%R) by (unfold Rdiv; nra).
    assert (0 <= IZR (n - 1))%R by (rewrite <- Hfull; unfold Rdiv; nra).
    rewrite Rmin_right by lra. rewrite Rmax_left by lra. unfold Rdiv. ring.
  - rewrite (Rmin_left (W / 2) x) by lra.
    rewrite (Rmax_right (- (W / 2)) (W / 2)) by lra.
    assert ((IZR (n - 1) <= (x + W / 2) / cs)%R).
    { rewrite <- Hfull. unfold Rdiv. apply Rmult_le_compat_r; lra. }
    assert (0 <= IZR (n - 1))%R by (rewrite <- Hfull; unfold Rdiv; nra).
    rewrite Rmin_left by lra. rewrite Rmax_right by lra. done.
  - rewrite (Rmin_right (W / 2) x) by lra. rewrite (Rmax_right (- (W / 2)) x) by lra.
    assert ((0 <= (x + W / 2) / cs)%R) by (unfold Rdiv; nra).
    assert (((x + W / 2) / cs <= IZR (n - 1))%R).
    { rewrite <- Hfull. unfold Rdiv. apply Rmult_le_compat_r; lra. }
    rewrite Rmin_right by lra. rewrite Rmax_right by lra. done.
Qed.

(** [getHeightAtWorld] at a finite point, as the blend along z of the
    blends along x of the samples. *)
Lemma getHeightAtWorld_blend (o : TerrainOptions) (W x z : R) :
  (2 ≤ opt_size o)%Z →
  Z.of_nat (length (opt_heights o)) = (opt_size o * opt_size o)%Z →
  Forall is_fin (opt_heights o) →
  default (Fin 200) (opt_worldSize o) = Fin W → (0 < W)%R →
  is_fin (default (Fin 14) (opt_heightScale o)) →
  is_fin (default (Fin 0) (opt_heightOffset o)) →
  getHeightAtWorld (TerrainBuilder_init o) (Fin x) (Fin z)
  = Fin (axis_blend (opt_size o)
           (λ r, axis_blend (opt_size o)
              (λ c, to_R (getHeight (TerrainBuilder_init o) (zn r) (zn c)))
              ((x + W / 2) / (W / IZR (opt_size o - 1))))
           ((z + W / 2) / (W / IZR (opt_size o - 1)))).
Proof.
  intros HN Hlen Hfin HW HWpos Hhs Hho.
  set (t := TerrainBuilder_init o). set (N := opt_size o) in *.
  assert (Hd' : (0 < IZR (N - 1))%R) by (apply IZR_lt; lia).
  assert (Hcs : cellSize t = Fin (W / IZR (N - 1))).
  { unfold t. cbn [cellSize TerrainBuilder_init]. rewrite HW. unfold zn.
    cbn [ndiv]. fold N. by rewrite decide_False by lra. }
  assert (Hws : worldSize t = Fin W) by (unfold t; simpl; done).
  assert (Hcs0 : (W / IZR (N - 1) ≠ 0)%R).
  { apply Rgt_not_eq. by apply Rdiv_lt_0_compat. }
  unfold getHeightAtWorld. rewrite Hcs, Hws. cbn [ndiv nadd].
  rewrite (decide_False (P := (2 = 0)%R)) by lra. cbn [nadd ndiv].
  rewrite !(decide_False (P := (W / IZR (N - 1) = 0)%R)) by done.
  set (gx := ((x + W / 2) / (W / IZR (N - 1)))%R).
  set (gz := ((z + W / 2) / (W / IZR (N - 1)))%R).
  cbn [Math_floor].
  assert (Hsucc : ∀ k, zn k + Fin 1 = zn (k + 1)) by (intros; apply (zn_add _ 1)).
  rewrite !Hsucc.
  assert (Hg : ∀ r c, getHeight t (zn r) (zn c)
    = Fin (to_R (getHeight t (zn (clampZ N r)) (zn (clampZ N c))))).
  { intros r c.
    destruct (getHeight_fin t r c) as [h Hh]; try done; [unfold t; simpl; lia|].
    assert (Hc : getHeight t (zn (clampZ N r)) (zn (clampZ N c))
                 = getHeight t (zn r) (zn c)).
    { rewrite !getHeight_zn. change (size t) with N.
      by rewrite (clampZ_id N (clampZ N r)), (clampZ_id N (clampZ N c))
        by (apply clampZ_range; lia). }
    rewrite Hc, Hh. done. }
  rewrite (Hg (Int_part gz) (Int_part gx)), (Hg (Int_part gz) (Int_part gx + 1)%Z),
    (Hg (Int_part gz + 1)%Z (Int_part gx)),
    (Hg (Int_part gz + 1)%Z (Int_part gx + 1)%Z).
  unfold axis_blend.
  generalize (to_R (getHeight t (zn (clampZ N (Int_part gz))) (zn (clampZ N (Int_part gx))))).
  generalize (to_R (getHeight t (zn (clampZ N (Int_part gz))) (zn (clampZ N (Int_part gx + 1))))).
  generalize (to_R (getHeight t (zn (clampZ N (Int_part gz + 1))) (zn (clampZ N (Int_part gx))))).
  generalize (to_R (getHeight t (zn (clampZ N (Int_part gz + 1))) (zn (clampZ N (Int_part gx + 1))))).
  intros h11 h01 h10 h00. unfold zn. cbn [nsub nmul nadd]. f_equal. ring.
Qed.

(** Beyond the edge the terrain is continued flat: a query at any finite
    point gives what the query gives at the nearest point of the terrain
    square [-W/2, W/2]², so callers need no bounds check. *)
Theorem getHeightAtWorld_beyond_edge (o : TerrainOptions) (W x z : R) :
  (2 ≤ opt_size o)%Z →
  Z.of_nat (length (opt_heights o)) = (opt_size o * opt_size o)%Z →
  Forall is_fin (opt_heights o) →
  default (Fin 200) (opt_worldSize o) = Fin W → (0 < W)%R →
  is_fin (default (Fin 14) (opt_heightScale o)) →
  is_fin (default (Fin 0) (opt_heightOffset o)) →
  getHeightAtWorld (TerrainBuilder_init o) (Fin x) (Fin z)
  = getHeightAtWorld (TerrainBuilder_init o)
      (Fin (Rmax (- (W / 2)) (Rmin (W / 2) x)))
      (Fin (Rmax (- (W / 2)) (Rmin (W / 2) z))).
Proof.
  intros HN Hlen Hfin HW HWpos Hhs Hho.
  rewrite !(getHeightAtWorld_blend o W) by done. f_equal.
  set (N := opt_size o) in *.
  assert (Hd' : (0 < IZR (N - 1))%R) by (apply IZR_lt; lia).
  assert (Hcs : (0 < W / IZR (N - 1))%R) by (by apply Rdiv_lt_0_compat).
  assert (HWn : W = (IZR (N - 1) * (W / IZR (N - 1)))%R) by (field; lra).
  rewrite !(grid_coord_clamp W _ _ N Hcs HWpos HWn).
  rewrite (axis_blend_clamp N _ ((z + W / 2) / (W / IZR (N - 1)))) by lia.
  unfold axis_blend at 1 3.
  by rewrite !(axis_blend_clamp N _ ((x + W / 2) / (W / IZR (N - 1)))) by lia.
Qed.

(** A 2×2 grid, probed 900 m beyond the edge in x and 50 m in z. *)
Lemma getHeightAtWorld_beyond_edge_witness :
  getHeightAtWorld
    (TerrainBuilder_init
       {| opt_heights := [Fin 0; Fin 1; Fin 0.5; Fin 0.25]; opt_size := 2;
          opt_worldSize := None; opt_heightScale := None;
          opt_heightOffset := None |}) (Fin 1000) (Fin (-150))
  = getHeightAtWorld
      (TerrainBuilder_init
         {| opt_heights := [Fin 0; Fin 1; Fin 0.5; Fin 0.25]; opt_size := 2;
            opt_worldSize := None; opt_heightScale := None;
            opt_heightOffset := None |})
      (Fin (Rmax (- (200 / 2)) (Rmin (200 / 2) 1000)))
      (Fin (Rmax (- (200 / 2)) (Rmin (200 / 2) (-150)))).
Proof.
  refine (getHeightAtWorld_beyond_edge _ 200 1000 (-150) _ _ _ _ _ _ _).
  - simpl. lia.
  - reflexivity.
  - simpl. repeat constructor.
  - reflexivity.
  - lra.
  - exact I.
  - exact I.
Defined.

(** ** main.js: the speed bar *)

(** The length of the movement vector: 0 or the target speed. *)
Lemma movement_length (c : FPSController) (y ms sm : R) :
  yaw c = Fin y →
  MOVE_SPEED c = Fin ms → SPRINT_MULT c = Fin sm →
  (0 <= ms)%R → (0 <= sm)%R →
  v_length (movement c) = Fin 0 ∨ v_length (movement c) = targetSpeed c.
Proof.
  intros Hy Hms Hsm Hms0 Hsm0.
  destruct (targetSpeed_fin c ms sm Hms Hsm Hms0 Hsm0) as (s & Hts & Hs).
  unfold movement. rewrite Hts, Hy.
  pose proof (sin2_cos2 y) as Hsc. unfold Rsqr in Hsc.
  assert (Hgen : ∀ a e b : R,
    (a * a + e * e + b * b = 0 ∨ 1 <= a * a + e * e + b * b)%R →
    v_length (if ngt (v_lengthSq (V3 (Fin a) (Fin e) (Fin b))) (Fin 0.001)
              then v_multiplyScalar (v_normalize (V3 (Fin a) (Fin e) (Fin b))) (Fin s)
              else V3 (Fin a) (Fin e) (Fin b)) = Fin 0
    ∨ v_length (if ngt (v_lengthSq (V3 (Fin a) (Fin e) (Fin b))) (Fin 0.001)
              then v_multiplyScalar (v_normalize (V3 (Fin a) (Fin e) (Fin b))) (Fin s)
              else V3 (Fin a) (Fin e) (Fin b)) = Fin s).
  { intros a e b Hab.
    destruct (dead_zone_or_normalised a e b s Hab Hs) as [[_ H]|H]; auto. }
  destruct (pressed c "KeyW" || pressed c "ArrowUp"),
           (pressed c "KeyS" || pressed c "ArrowDown"),
           (pressed c "KeyA" || pressed c "ArrowLeft"),
           (pressed c "KeyD" || pressed c "ArrowRight");
    cbn [v_addScaledVector vx vy vz nadd nmul nneg Math_sin Math_cos];
    apply Hgen; first [ left; nra | right; nra ].
Qed.

(** The speed bar of the HUD never overflows and shows the gait: for the
    frame that [update] returns, its width is 0 % at rest, 100 % when
    sprinting and 100/SPRINT_MULT % when walking (55.6 % with the
    constructor's 1.8). *)
Theorem speed_bar (resolve : Vector3 → Vector3 → Vector3 * bool)
    (c : FPSController) (dt : num) (y ms sm : R) :
  yaw c = Fin y →
  MOVE_SPEED c = Fin ms → SPRINT_MULT c = Fin sm →
  (0 < ms)%R → (1 <= sm)%R →
  ∃ w : R,
    speedFill_width (MAX_SPEED c) (fr_speed (update resolve c dt).2) = Fin w
    ∧ (0 <= w <= 100)%R
    ∧ (w = 0
       ∨ w = if pressed c "ShiftLeft" || pressed c "ShiftRight"
             then 100 else 100 / sm)%R.
Proof.
  intros Hy Hms Hsm Hms0 Hsm1.
  change (fr_speed (update resolve c dt).2) with (v_length (movement c)).
  assert (Hmax : (ms * sm ≠ 0)%R) by nra.
  unfold speedFill_width, MAX_SPEED. rewrite Hms, Hsm. cbn [nmul].
  assert (Hms' : (0 <= ms)%R) by lra. assert (Hsm' : (0 <= sm)%R) by lra.
  destruct (movement_length c y ms sm Hy Hms Hsm Hms' Hsm') as [-> | ->].
  - exists 0%R. cbn [ndiv]. rewrite (decide_False (P := (ms * sm = 0)%R)) by done. cbn [nmul Math_min].
    unfold nlt. replace (0 / (ms * sm) * 100)%R with 0%R by (unfold Rdiv; ring).
    rewrite bool_decide_eq_true_2 by lra. split; [done|]. split; [lra|by left].
  - unfold targetSpeed. rewrite Hms, Hsm.
    destruct (pressed c "ShiftLeft" || pressed c "ShiftRight");
      cbn [nmul ndiv]; rewrite (decide_False (P := (ms * sm = 0)%R)) by done; cbn [nmul Math_min];
      unfold nlt.
    + replace (ms * sm / (ms * sm) * 100)%R with 100%R by (field; lra).
      rewrite bool_decide_eq_false_2 by lra.
      exists 100%R. split; [done|]. split; [lra|by right].
    + replace (ms * 1 / (ms * sm) * 100)%R with (100 / sm)%R by (field; lra).
      assert (0 < 100 / sm <= 100)%R.
      { split; [apply Rdiv_lt_0_compat; lra|].
        apply (Rmult_le_reg_r sm); [lra|]. unfold Rdiv.
        rewrite Rmult_assoc, Rinv_l by lra. lra. }
      exists (100 / sm)%R. split; [|split; [lra|by right]].
      case_bool_decide; [done|]. f_equal. lra.
Qed.

(** The new controller, sprinting forward. *)
Lemma speed_bar_witness :
  ∃ w : R,
    speedFill_width
      (MAX_SPEED (on_keydown (on_keydown
         (FPSController_new (V3 (Fin 0) (Fin 0) (Fin 0)) (Fin 0) (Fin 0))
         "KeyW") "ShiftLeft"))
      (fr_speed (update (λ _ d, (d, true))
         (on_keydown (on_keydown
            (FPSController_new (V3 (Fin 0) (Fin 0) (Fin 0)) (Fin 0) (Fin 0))
            "KeyW") "ShiftLeft") (Fin 0.016)).2) = Fin w
    ∧ (0 <= w <= 100)%R
    ∧ (w = 0
       ∨ w = if pressed (on_keydown (on_keydown
                (FPSController_new (V3 (Fin 0) (Fin 0) (Fin 0)) (Fin 0) (Fin 0))
                "KeyW") "ShiftLeft") "ShiftLeft"
                || pressed (on_keydown (on_keydown
                (FPSController_new (V3 (Fin 0) (Fin 0) (Fin 0)) (Fin 0) (Fin 0))
                "KeyW") "ShiftLeft") "ShiftRight"
             then 100 else 100 / 1.8)%R.
Proof.
  refine (speed_bar _ _ _ 0 8 1.8 _ _ _ _ _); [reflexivity..|lra|lra].
Defined.
